(** * Backport engine: branch naming, pull-request payloads, commit
    resolution, the per-branch pipeline with its conflict loop, branch
    setup and repository setup.

    The development embeds the TypeScript/JavaScript sources shallowly:
    pure string functions become Rocq functions on [string]; code that
    talks to git, GitHub, the prompt or the file system becomes a
    state-passing computation over an explicit world, with rejected
    promises as an error outcome. *)

From Stdlib Require Import Ascii String List NArith PArith Lia DecimalString.
From Stdlib Require Import DecimalPos DecimalN.
From stdpp Require Import base option list strings gmap.

Local Open Scope string_scope.
Local Open Scope list_scope.

(** ** JavaScript string primitives used by the sources

    A JavaScript string is modelled as a Rocq [string]; one character
    stands for one code unit, which is exact for the ASCII text the
    engine manipulates (branch names, revision ids, git messages). *)
Module Js.

(** The line feed of the template literals. *)
Definition nl : string := String (ascii_of_nat 10) EmptyString.

(** The double quote. *)
Definition dq : string := String (ascii_of_nat 34) EmptyString.

(** [s.slice(0, n)]. *)
Definition slice0 (n : nat) (s : string) : string := String.substring 0 n s.

(** [parts.join(sep)]. *)
Definition join (sep : string) (parts : list string) : string :=
  String.concat sep parts.

(** [s.slice(n)]. *)
Fixpoint sliceFrom (n : nat) (s : string) : string :=
  match n, s with
  | O, _ => s
  | S _, EmptyString => EmptyString
  | S k, String _ t => sliceFrom k t
  end.

(** [s.includes(needle)]. *)
Fixpoint includes (s needle : string) : bool :=
  String.prefix needle s ||
  match s with
  | EmptyString => false
  | String _ t => includes t needle
  end.

(** [s.replace(pat, rep)] for a string pattern [pat]: the first
    occurrence only.  The sources call it with [rep = ''], so the
    [$]-patterns of replacement strings never come into play. *)
Fixpoint replace (s pat rep : string) : string :=
  if String.prefix pat s then rep +:+ sliceFrom (String.length pat) s
  else match s with
       | EmptyString => EmptyString
       | String c t => String c (replace t pat rep)
       end.

(** [c] is one of [A-Z]. *)
Definition isUpper (c : ascii) : bool :=
  let n := nat_of_ascii c in (65 <=? n)%nat && (n <=? 90)%nat.

Definition lowerChar (c : ascii) : ascii :=
  if isUpper c then ascii_of_nat (nat_of_ascii c + 32) else c.

(** [s.toLowerCase()] on ASCII text. *)
Fixpoint toLowerCase (s : string) : string :=
  match s with
  | EmptyString => EmptyString
  | String c t => String (lowerChar c) (toLowerCase t)
  end.

(** [c] is one of [0-9], the class [\d] of a JavaScript regular
    expression. *)
Definition isDigit (c : ascii) : bool :=
  let n := nat_of_ascii c in (48 <=? n)%nat && (n <=? 57)%nat.

Definition digitValue (c : ascii) : N := N.of_nat (nat_of_ascii c - 48).

(** [parseInt(ds, 10)] on a string of decimal digits, most
    significant digit first. *)
Definition parseDigits (ds : string) : N :=
  fold_left (fun acc c => (acc * 10 + digitValue c)%N)
            (list_ascii_of_string ds) 0%N.

(** Membership of a character in a string. *)
Fixpoint occurs (c : ascii) (s : string) : Prop :=
  match s with
  | EmptyString => False
  | String d t => c = d \/ occurs c t
  end.

(** Template rendering [`${p}`] of a pull-request number. *)
Definition ofPositive (p : positive) : string :=
  NilEmpty.string_of_uint (Pos.to_uint p).

End Js.

(** ** Run options of the TypeScript services *)

(** Modelled from the spec: the declaration of [BackportOptions]
    (options/options) is missing.  The record holds the run options
    the embedded functions read: repository owner and name, access
    credentials, username, fork flag, source branch, author and path
    filters and the label-to-branch mapping, whose type is left as a
    parameter. *)
Record BackportOptions {BLM : Type} := {
  accessToken : string;
  githubApiBaseUrlV4 : string;
  gitHostname : string;
  maxNumber : N;
  repoName : string;
  repoOwner : string;
  username : string;
  fork : bool;
  sourceBranch : string;
  path : option string;
  all : bool;
  author : option string;
  branchLabelMapping : BLM
}.
Arguments BackportOptions : clear implicits.

(** ** Branch names and pull-request payloads (cli steps) *)
Module Steps.

(** [Commit] of the cli steps: [pullRequest?: number].  A present
    number is a GitHub pull-request number, which starts at 1, so it
    is truthy in [if (commit.pullRequest)]. *)
Record Commit := {
  sha : string;
  message : string;
  pullRequest : option positive
}.

Record GithubPullRequestPayload := {
  title : string;
  body : string;
  head : string;
  base : string
}.

Definition getReference (commit : Commit) (short : bool) : string :=
  match pullRequest commit with
  | Some pr =>
      if short then "pr-" +:+ Js.ofPositive pr else "#" +:+ Js.ofPositive pr
  | None =>
      let shortCommit := Js.slice0 7 (sha commit) in
      if short then "commit-" +:+ shortCommit else shortCommit
  end.

Definition getReferenceLong (commit : Commit) : string :=
  getReference commit false.

Definition getReferenceShort (commit : Commit) : string :=
  getReference commit true.

Definition getBackportBranchName (version : string) (commits : list Commit)
  : string :=
  let refValues :=
    Js.slice0 200 (Js.join "_" (map getReferenceShort commits)) in
  "backport/" +:+ version +:+ "/" +:+ refValues.

Definition getPullRequestPayload
    (version : string) (commits : list Commit) (username : string)
  : GithubPullRequestPayload :=
  let backportBranchName := getBackportBranchName version commits in
  let commitRefs :=
    Js.join Js.nl
      (map (fun commit =>
              let ref := getReferenceLong commit in
              " - " +:+ Js.replace (message commit) ("(" +:+ ref +:+ ")") EmptyString
                    +:+ " (" +:+ ref +:+ ")")
           commits) in
  let commitMessages :=
    Js.slice0 200 (Js.join " | " (map message commits)) in
  {| title := "[" +:+ version +:+ "] " +:+ commitMessages;
     body := "Backports the following commits to " +:+ version +:+ ":"
             +:+ Js.nl +:+ commitRefs;
     head := username +:+ ":" +:+ backportBranchName;
     base := version |}.

(** *** The naming rule in the words of the specification *)

(** The first [n] characters of [s]. *)
Definition firstChars (n : nat) (s : string) : string :=
  string_of_list_ascii (take n (list_ascii_of_string s)).

(** [pr-<number>] when a pull request is associated, otherwise
    [commit-<first 7 characters of the revision id>]. *)
Definition shortRefSpec (commit : Commit) : string :=
  match pullRequest commit with
  | Some n => "pr-" +:+ Js.ofPositive n
  | None => "commit-" +:+ firstChars 7 (sha commit)
  end.

(** The references joined by [_]. *)
Fixpoint joinedRefsSpec (refs : list string) : string :=
  match refs with
  | [] => EmptyString
  | [r] => r
  | r :: rest => r +:+ "_" +:+ joinedRefsSpec rest
  end.

(** [backport/<target>/<refs>], the ref segment cut at 200
    characters. *)
Definition branchNameSpec (target : string) (commits : list Commit)
  : string :=
  "backport/" +:+ target +:+ "/"
    +:+ firstChars 200 (joinedRefsSpec (map shortRefSpec commits)).

End Steps.

(** ** Errors and promises *)

(** The value of [e.code]: a string such as ['ENOENT'] or an exit
    status such as [128]. *)
Inductive ErrorCode :=
| CodeString (s : string)
| CodeNumber (n : N).

Inductive ErrorClass := PlainError | HandledError | TypeError.

(** A thrown value: the properties of an error object that the sources
    inspect ([message], [code], [cmd], [stderr], [stdout]) and whether
    it is a [HandledError]. *)
Record JsError := {
  errClass : ErrorClass;
  errMessage : string;
  errCode : option ErrorCode;
  errCmd : option string;
  errStderr : option string;
  errStdout : option string
}.

#[global] Instance ErrorCode_eq_dec : EqDecision ErrorCode.
Proof. solve_decision. Defined.
#[global] Instance ErrorClass_eq_dec : EqDecision ErrorClass.
Proof. solve_decision. Defined.
#[global] Instance JsError_eq_dec : EqDecision JsError.
Proof. solve_decision. Defined.

(** [new HandledError(message)]. *)
Definition newHandledError (msg : string) : JsError :=
  {| errClass := HandledError; errMessage := msg; errCode := None;
     errCmd := None; errStderr := None; errStdout := None |}.

(** The [TypeError] of reading a property of [undefined]. *)
Definition newTypeError (msg : string) : JsError :=
  {| errClass := TypeError; errMessage := msg; errCode := None;
     errCmd := None; errStderr := None; errStdout := None |}.

(** How an awaited promise ends: fulfilled with a value, rejected with
    an error, or never settled. *)
Inductive Outcome (A : Type) :=
| Resolved (a : A)
| Rejected (e : JsError)
| Pending.
Arguments Resolved {A} a.
Arguments Rejected {A} e.
Arguments Pending {A}.

(** An asynchronous computation, run to its end against a state [S]. *)
Definition Promise (S A : Type) : Type := S -> Outcome A * S.

Module Async.
Section Combinators.
Context {S : Type}.

(** [Promise.resolve(a)]. *)
Definition resolve {A} (a : A) : Promise S A := fun s => (Resolved a, s).

(** [Promise.reject(e)], also a [throw e] inside a handler. *)
Definition reject {A} (e : JsError) : Promise S A :=
  fun s => (Rejected e, s).

(** [p.then(f)]. *)
Definition andThen {A B} (p : Promise S A) (f : A -> Promise S B)
  : Promise S B :=
  fun s =>
    match p s with
    | (Resolved a, s') => f a s'
    | (Rejected e, s') => (Rejected e, s')
    | (Pending, s') => (Pending, s')
    end.

(** [p.catch(h)]. *)
Definition catch {A} (p : Promise S A) (h : JsError -> Promise S A)
  : Promise S A :=
  fun s =>
    match p s with
    | (Resolved a, s') => (Resolved a, s')
    | (Rejected e, s') => h e s'
    | (Pending, s') => (Pending, s')
    end.

(** What [Promise.all] settles to, given how its first promise and
    the rest settle. *)
Definition allOutcome {A} (r : Outcome A) (rs : Outcome (list A))
  : Outcome (list A) :=
  match r, rs with
  | Resolved a, Resolved l => Resolved (a :: l)
  | Resolved _, Rejected e => Rejected e
  | Resolved _, Pending => Pending
  | Rejected e, _ => Rejected e
  | Pending, Rejected e => Rejected e
  | Pending, _ => Pending
  end.

(** [Promise.all(ps)]: every promise of the array has been started;
    the world serves them in array order. *)
Fixpoint promiseAll {A} (ps : list (Promise S A)) : Promise S (list A) :=
  match ps with
  | [] => resolve []
  | p :: rest =>
      fun s =>
        let '(r, s1) := p s in
        let '(rs, s2) := promiseAll rest s1 in
        (allOutcome r rs, s2)
  end.

End Combinators.

End Async.

(** A run of the program: the state of the outside world and the calls
    made to the collaborators so far, oldest first. *)
Record Session (W C : Type) := {
  world : W;
  calls : list C
}.
Arguments world {W C} _.
Arguments calls {W C} _.

(** Calls collaborator [op], recording the call as [c]. *)
Definition perform {W C A} (c : C) (op : W -> Outcome A * W)
  : Promise (Session W C) A :=
  fun s =>
    let '(r, w) := op (world s) in
    (r, {| world := w; calls := calls s ++ [c] |}).

(** A synchronous effect that cannot fail, recorded as [c]. *)
Definition note {W C} (c : C) : Promise (Session W C) unit :=
  fun s => (Resolved tt, {| world := world s; calls := calls s ++ [c] |}).

(** ** The per-branch pipeline and its conflict loop (cli steps) *)
Module Cli.
Import Steps Async.

(** [res.data] of the create-pull-request response. *)
Record GithubIssue := {
  html_url : string;
  number : N
}.

(** The calls the pipeline makes to its collaborators. *)
Inductive Call :=
| ResetAndPullMaster (owner repoName : string)
| CreateAndCheckoutBranch (owner repoName version branch : string)
| Cherrypick (owner repoName sha : string)
| Push (owner repoName username branch : string)
| IsIndexDirty (owner repoName : string)
| ConfirmConflictResolved
| GetPullRequestByCommit (owner repoName sha : string)
| CreatePullRequest (owner repoName : string)
                    (payload : GithubPullRequestPayload)
| AddLabels (owner repoName : string) (number : N) (labels : list string)
| ConsoleLog (text : string)
| ConsoleError (e : JsError).

Definition isConfirmCall (c : Call) : bool :=
  match c with ConfirmConflictResolved => true | _ => false end.
Definition isCreatePullRequestCall (c : Call) : bool :=
  match c with CreatePullRequest _ _ _ => true | _ => false end.
Definition isAddLabelsCall (c : Call) : bool :=
  match c with AddLabels _ _ _ _ => true | _ => false end.
Definition isPushCall (c : Call) : bool :=
  match c with Push _ _ _ _ => true | _ => false end.

(** How many calls of a kind a trace holds. *)
Definition countCalls (kind : Call -> bool) (tr : list Call) : nat :=
  length (filter (fun c => kind c = true) tr).

(** The modules the steps import ([lib/git], [lib/github],
    [lib/prompts], [lib/constants], [lib/env]); they are not among
    the sources, so each function is a parameter acting on the
    world [W]. *)
Record Libs (W : Type) := {
  resetAndPullMaster : string -> string -> W -> Outcome unit * W;
  createAndCheckoutBranch :
    string -> string -> string -> string -> W -> Outcome unit * W;
  cherrypick : string -> string -> string -> W -> Outcome unit * W;
  push : string -> string -> string -> string -> W -> Outcome unit * W;
  isIndexDirty : string -> string -> W -> Outcome bool * W;
  confirmConflictResolved : W -> Outcome bool * W;
  getPullRequestByCommit :
    string -> string -> string -> W -> Outcome (option positive) * W;
  createPullRequest :
    string -> string -> GithubPullRequestPayload ->
    W -> Outcome GithubIssue * W;
  addLabels :
    string -> string -> N -> list string -> W -> Outcome unit * W;
  GITHUB_ERROR : ErrorCode;
  getRepoPath : string -> string -> string
}.
Arguments resetAndPullMaster {W} _.
Arguments createAndCheckoutBranch {W} _.
Arguments cherrypick {W} _.
Arguments push {W} _.
Arguments isIndexDirty {W} _.
Arguments confirmConflictResolved {W} _.
Arguments getPullRequestByCommit {W} _.
Arguments createPullRequest {W} _.
Arguments addLabels {W} _.
Arguments GITHUB_ERROR {W} _.
Arguments getRepoPath {W} _.

Section Pipeline.
Context {W : Type} (lib : Libs W).

Abbreviation Task := (Promise (Session W Call)).

(** The spinner only decorates the terminal: the promise settles
    as it would without it. *)
Definition withSpinner {A} (promise : Task A) (text errorText : string)
  : Task A :=
  catch (andThen promise (fun res => resolve res)) (fun e => reject e).

(** [items.reduce((p, item) => p.then(() => handler(item)),
    Promise.resolve())]. *)
Definition sequentially {A B} (items : list A) (handler : A -> Task B)
  : Task (option B) :=
  fold_left
    (fun p item =>
       andThen p (fun _ => andThen (handler item)
                                   (fun b => resolve (Some b))))
    items (resolve None).

(** [e.cmd.includes('git cherry-pick')]; reading [includes] of a
    missing [cmd] throws. *)
Definition isCherrypickConflict (e : JsError) : JsError + bool :=
  match errCmd e with
  | Some cmd => inr (Js.includes cmd "git cherry-pick")
  | None =>
      inl (newTypeError "Cannot read property 'includes' of undefined")
  end.

(** The recursion has no bound of its own; [fuel] bounds the number
    of prompts, and a run that needs more stays [Pending]. *)
Fixpoint confirmResolvedRecursive (fuel : nat) (owner repoName : string)
  : Task unit :=
  match fuel with
  | O => fun s => (Pending, s)
  | S fuel' =>
      andThen
        (andThen
           (perform ConfirmConflictResolved (confirmConflictResolved lib))
           (fun _ =>
              perform (IsIndexDirty owner repoName)
                      (isIndexDirty lib owner repoName)))
        (fun isDirty =>
           if isDirty
           then confirmResolvedRecursive fuel' owner repoName
           else resolve tt)
  end.

Definition cherrypickAndConfirm (fuel : nat) (owner repoName sha : string)
  : Task unit :=
  catch
    (withSpinner
       (perform (Cherrypick owner repoName sha)
                (cherrypick lib owner repoName sha))
       "Cherry-picking commit"
       ("Cherry-picking failed. Please resolve conflicts in: "
          +:+ getRepoPath lib owner repoName))
    (fun e =>
       match isCherrypickConflict e with
       | inl typeError => reject typeError
       | inr false => reject e
       | inr true => confirmResolvedRecursive fuel owner repoName
       end).

Definition doBackportVersion
    (fuel : nat) (owner repoName : string) (commits : list Commit)
    (version username : string) (labels : list string)
  : Task GithubIssue :=
  let backportBranchName := getBackportBranchName version commits in
  let refValues := Js.join ", " (map getReferenceLong commits) in
  andThen
    (note (ConsoleLog ("Backporting " +:+ refValues +:+ " to " +:+ version)))
    (fun _ =>
  andThen
    (andThen
       (andThen
          (withSpinner
             (andThen
                (perform (ResetAndPullMaster owner repoName)
                         (resetAndPullMaster lib owner repoName))
                (fun _ =>
                   perform
                     (CreateAndCheckoutBranch owner repoName version
                                              backportBranchName)
                     (createAndCheckoutBranch lib owner repoName version
                                              backportBranchName)))
             "Pulling latest changes" EmptyString)
          (fun _ =>
             sequentially commits
               (fun commit =>
                  cherrypickAndConfirm fuel owner repoName (sha commit))))
       (fun _ =>
          withSpinner
            (perform (Push owner repoName username backportBranchName)
                     (push lib owner repoName username backportBranchName))
            ("Pushing branch " +:+ username +:+ ":" +:+ backportBranchName)
            EmptyString))
    (fun _ =>
       let payload := getPullRequestPayload version commits username in
       withSpinner
         (andThen
            (perform (CreatePullRequest owner repoName payload)
                     (createPullRequest lib owner repoName payload))
            (fun res =>
               if (0 <? length labels)%nat
               then
                 andThen
                   (perform
                      (AddLabels owner repoName (number res) labels)
                      (addLabels lib owner repoName (number res) labels))
                   (fun _ => resolve res)
               else resolve res))
         "Creating pull request" EmptyString)).

(** Add pull request info to commit if it exists. *)
Definition withPullRequest (owner repoName : string)
    (commits : list Commit) : Task (list Commit) :=
  promiseAll
    (map (fun commit =>
            andThen
              (perform (GetPullRequestByCommit owner repoName (sha commit))
                       (getPullRequestByCommit lib owner repoName
                                               (sha commit)))
              (fun pullRequest =>
                 resolve {| sha := sha commit;
                            message := message commit;
                            pullRequest := pullRequest |}))
         commits).

Definition handleErrors (e : JsError) : Task unit :=
  if decide (errCode e = Some (GITHUB_ERROR lib))
  then resolve tt
  else note (ConsoleError e).

(** The work for one target branch, before its [.catch]. *)
Definition versionTask
    (fuel : nat) (owner repoName : string) (commits : list Commit)
    (username : string) (labels : list string) (version : string)
  : Task unit :=
  andThen
    (andThen
       (withPullRequest owner repoName commits)
       (fun commitsWithPullRequest =>
          doBackportVersion fuel owner repoName commitsWithPullRequest
                            version username labels))
    (fun res =>
       note (ConsoleLog ("View pull request: " +:+ html_url res
                           +:+ Js.nl))).

Definition doBackportVersions
    (fuel : nat) (owner repoName : string) (commits : list Commit)
    (versions : list string) (username : string) (labels : list string)
  : Task (option unit) :=
  sequentially versions
    (fun version =>
       catch (versionTask fuel owner repoName commits username labels
                          version)
             handleErrors).

End Pipeline.
End Cli.

(** ** Commit resolution by author ([fetchCommitsByAuthor]) *)
Module Resolver.
Import Async.

(** The tail [\d*\)] of the pattern: the leading digits of [s] when a
    closing parenthesis follows them. *)
Fixpoint digitsThenClose (s : string) : option string :=
  match s with
  | EmptyString => None
  | String c t =>
      if Js.isDigit c then
        match digitsThenClose t with
        | Some ds => Some (String c ds)
        | None => None
        end
      else if Ascii.eqb c ")" then Some EmptyString
      else None
  end.

(** The pattern [/\(#(\d+)\)/] tried at the start of [s]: the digits
    of the capture group when [s] begins with [(#], one or more digits
    and [)]. *)
Definition matchAt (s : string) : option string :=
  match s with
  | String "(" (String "#" rest) =>
      match digitsThenClose rest with
      | Some (String d ds) => Some (String d ds)
      | _ => None
      end
  | _ => None
  end.

(** The regular expression has no anchor: the leftmost match
    anywhere in the string wins. *)
Fixpoint regexSearch (s : string) : option string :=
  match matchAt s with
  | Some ds => Some ds
  | None =>
      match s with
      | EmptyString => None
      | String _ t => regexSearch t
      end
  end.

Definition getPullNumberFromMessage (firstMessageLine : string)
  : option N :=
  match regexSearch firstMessageLine with
  | Some ds => Some (Js.parseDigits ds)
  | None => None
  end.

(** Every character of [s] is a decimal digit. *)
Fixpoint allDigits (s : string) : bool :=
  match s with
  | EmptyString => true
  | String c t => Js.isDigit c && allDigits t
  end.

(** [message] holds the text [(#ds)] right after [pre]. *)
Definition patternAt (message pre ds : string) : Prop :=
  allDigits ds = true /\ ds <> EmptyString
  /\ exists post, message = pre +:+ "(#" +:+ ds +:+ ")" +:+ post.

Section Fetch.
(** [BLM]: the label mapping of the options; [X]: the rest of a
    pull-request node (labels, timeline); [TargetPR]: an existing
    target pull request; [W]: the world behind the API. *)
Context {BLM X TargetPR W : Type}.

(** Modelled from the spec: the declaration of [PullRequestNode]
    (sourcePRAndTargetPRs) is missing.  The history query returns,
    per entry, the first associated pull request with its number,
    repository owner and name, merge-commit id and labels; [rest]
    stands for the labels and whatever else the node carries. *)
Record PullRequestNode := {
  number : N;
  repository_name : string;
  repository_owner_login : string;
  mergeCommit_oid : option string;
  rest : X
}.

(** [edge.node] of the history; [associatedPullRequests] holds the
    nodes of its edges. *)
Record HistoryEdge := {
  oid : string;
  node_message : string;
  associatedPullRequests : list PullRequestNode
}.

(** [res.repository.ref], [null] or the history edges of its
    target. *)
Record DataResponse := {
  repository_ref : option (list HistoryEdge)
}.

(** Modelled from the spec: the declaration of [CommitSelected]
    (types/Commit) is missing.  A commit holds its source branch, the
    target branches derived from labels, revision id, formatted and
    original message, optional pull-request number and the pull
    requests that already exist for the target branches. *)
Record CommitSelected := {
  sourceBranch_ : string;
  targetBranchesFromLabels : list string;
  sha : string;
  formattedMessage : string;
  originalMessage : string;
  pullNumber : option N;
  existingTargetPullRequests : list TargetPR
}.

(** The variables of the GraphQL query. *)
Record QueryVariables := {
  q_repoOwner : string;
  q_repoName : string;
  q_sourceBranch : string;
  q_maxNumber : N;
  q_authorId : option string;
  q_historyPath : option string
}.

(** Imported functions that are not among the sources. *)
Record Imports := {
  getFormattedCommitMessage : string -> option N -> string -> string;
  getExistingTargetPullRequests :
    string -> PullRequestNode -> list TargetPR;
  getTargetBranchesFromLabels :
    list TargetPR -> BLM -> list string -> list string;
  getPullRequestLabels : PullRequestNode -> list string;
  fetchAuthorId : BackportOptions BLM -> W -> Outcome (option string) * W;
  apiRequestV4 :
    string -> string -> QueryVariables -> W -> Outcome DataResponse * W
}.

Context (imports : Imports).

(** A string used as a condition: [undefined] and [''] are falsy. *)
Definition truthy (s : option string) : option string :=
  match s with
  | Some EmptyString => None
  | other => other
  end.

Definition isSourcePullRequest
    (pullRequestNode : option PullRequestNode)
    (options : BackportOptions BLM) (sha : string) : bool :=
  match pullRequestNode with
  | None => false
  | Some node =>
      String.eqb (repository_name node) (repoName options)
      && String.eqb (repository_owner_login node) (repoOwner options)
      && match mergeCommit_oid node with
         | Some o => String.eqb o sha
         | None => false
         end
  end.

(** The body of the [map] over the history edges. *)
Definition commitOfEdge (options : BackportOptions BLM)
    (edge : HistoryEdge) : CommitSelected :=
  let commitMessage := node_message edge in
  let sha := oid edge in
  let pullRequestNode := head (associatedPullRequests edge) in
  let withoutSourcePullRequest :=
    let pullNumber := getPullNumberFromMessage commitMessage in
    let formattedMessage :=
      getFormattedCommitMessage imports commitMessage pullNumber sha in
    {| sourceBranch_ := sourceBranch options;
       targetBranchesFromLabels := [];
       sha := sha;
       formattedMessage := formattedMessage;
       originalMessage := commitMessage;
       pullNumber := pullNumber;
       existingTargetPullRequests := [] |} in
  if negb (isSourcePullRequest pullRequestNode options sha)
  then withoutSourcePullRequest
  else
    match pullRequestNode with
    | None =>
        (* not reached: without a node the test above is false *)
        withoutSourcePullRequest
    | Some node =>
        let pullNumber := Some (number node) in
        let formattedMessage :=
          getFormattedCommitMessage imports commitMessage pullNumber sha in
        let existingTargetPullRequests :=
          getExistingTargetPullRequests imports commitMessage node in
        let targetBranchesFromLabels :=
          getTargetBranchesFromLabels imports existingTargetPullRequests
            (branchLabelMapping options)
            (getPullRequestLabels imports node) in
        {| sourceBranch_ := sourceBranch options;
           targetBranchesFromLabels := targetBranchesFromLabels;
           sha := sha;
           formattedMessage := formattedMessage;
           originalMessage := commitMessage;
           pullNumber := pullNumber;
           existingTargetPullRequests := existingTargetPullRequests |}
    end.

(** Template rendering of [options.author]. *)
Definition renderAuthor (a : option string) : string :=
  match a with
  | Some name => name
  | None => "null"
  end.

(** The message thrown when no commits were found. *)
Definition noCommitsText (options : BackportOptions BLM) : string :=
  let pathText :=
    match truthy (path options) with
    | Some p => " touching files in path: " +:+ Js.dq +:+ p +:+ Js.dq
    | None => EmptyString
    end in
  if all options
  then "There are no commits in this repository" +:+ pathText
  else "There are no commits by " +:+ Js.dq
       +:+ renderAuthor (author options) +:+ Js.dq
       +:+ " in this repository" +:+ pathText
       +:+ ". Try with `--all` for commits by all users or `--author=<username>` for commits from a specific user".

(** The mention of the path filter, when one was given. *)
Definition pathMention (options : BackportOptions BLM) : string :=
  match path options with
  | Some (String c p) =>
      " touching files in path: " +:+ Js.dq +:+ String c p +:+ Js.dq
  | _ => EmptyString
  end.

Definition fetchCommitsByAuthor (options : BackportOptions BLM)
  : Promise W (list CommitSelected) :=
  andThen
    (andThen
       (fetchAuthorId imports options)
       (fun authorId =>
          apiRequestV4 imports (githubApiBaseUrlV4 options)
            (accessToken options)
            {| q_repoOwner := repoOwner options;
               q_repoName := repoName options;
               q_sourceBranch := sourceBranch options;
               q_maxNumber := maxNumber options;
               q_authorId := authorId;
               q_historyPath := truthy (path options) |}))
    (fun res =>
       match repository_ref res with
       | None =>
           reject
             (newHandledError
                ("The upstream branch " +:+ Js.dq +:+ sourceBranch options
                   +:+ Js.dq
                   +:+ " does not exist. Try specifying a different branch with "
                   +:+ Js.dq +:+ "--source-branch <your-branch>" +:+ Js.dq))
       | Some edges =>
           let commits := map (commitOfEdge options) edges in
           match commits with
           | [] => reject (newHandledError (noCommitsText options))
           | _ => resolve commits
           end
       end).

End Fetch.

Arguments PullRequestNode : clear implicits.
Arguments HistoryEdge : clear implicits.
Arguments DataResponse : clear implicits.
Arguments CommitSelected : clear implicits.
Arguments Imports : clear implicits.

(** *** The fallback in the words of the specification: the number of
    the trailing [(#NNN)] of the message, if the message ends with
    one. *)
Fixpoint trailingPullNumber (message : string) : option N :=
  let further :=
    match message with
    | EmptyString => None
    | String _ t => trailingPullNumber t
    end in
  match matchAt message with
  | Some ds =>
      if String.eqb message ("(#" +:+ ds +:+ ")")
      then Some (Js.parseDigits ds)
      else further
  | None => further
  end.

End Resolver.

(** ** The git service and repository setup *)
Module Git.
Import Async.

Inductive FileKind := Directory | RegularFile.

(** The local disk: the kind of entry found at each existing path.
    [X] is everything else the subprocesses depend on (the network,
    the remote repositories, the contents of files). *)
Record Machine (X : Type) := {
  fs : gmap string FileKind;
  outside : X
}.
Arguments fs {X} _.
Arguments outside {X} _.

(** What a finished subprocess hands back. *)
Record ExecResult := {
  stdout : string;
  stderr : string
}.

(** The calls made to the operating system. *)
Inductive SystemCall :=
| Exec (cmd cwd : string)
| ExecAsCallback (cmd cwd : string)
| MakeDir (dir : string)
| Stat (file : string)
| Del (file : string).

(** Modules that are not among the sources: the promisified child
    process, [make-dir], and the paths of [env]; and the working
    directory of the process, which [del] looks at. *)
Record Platform (BLM X : Type) := {
  exec : string -> string -> Machine X -> Outcome ExecResult * Machine X;
  execAsCallback :
    string -> string -> Machine X -> Outcome unit * Machine X;
  makeDir : string -> Machine X -> Outcome unit * Machine X;
  getRepoPath : BackportOptions BLM -> string;
  getRepoOwnerPath : BackportOptions BLM -> string;
  processCwd : string
}.
Arguments processCwd {BLM X} _.
Arguments exec {BLM X} _.
Arguments execAsCallback {BLM X} _.
Arguments makeDir {BLM X} _.
Arguments getRepoPath {BLM X} _.
Arguments getRepoOwnerPath {BLM X} _.

(** [file] is [dir] itself or lies below it. *)
Definition isUnder (dir file : string) : bool :=
  String.eqb dir file || String.prefix (dir +:+ "/") file.

(** The errors with which [del] refuses a path when it is called
    without the [force] option. *)
Definition delError (text : string) : JsError :=
  {| errClass := PlainError;
     errMessage := text;
     errCode := None; errCmd := None; errStderr := None;
     errStdout := None |}.

Definition cwdError : JsError :=
  delError
    "Cannot delete the current working directory. Can be overridden with the `force` option.".

Definition outsideCwdError : JsError :=
  delError
    "Cannot delete files/directories outside the current working directory. Can be overridden with the `force` option.".

Section Service.
Context {BLM X : Type} (imports : Platform BLM X).

Abbreviation GitTask := (Promise (Session (Machine X) SystemCall)).

(** [stat(path)]: the entry at [path], or an [ENOENT] error. *)
Definition stat (file : string) : GitTask FileKind :=
  perform (Stat file)
    (fun m =>
       match fs m !! file with
       | Some kind => (Resolved kind, m)
       | None =>
           (Rejected
              {| errClass := PlainError;
                 errMessage := "ENOENT: no such file or directory";
                 errCode := Some (CodeString "ENOENT");
                 errCmd := None; errStderr := None; errStdout := None |},
            m)
       end).

(** The check that [del] makes, when [force] is not set, on an entry
    it is about to remove: it refuses the working directory of the
    process and everything that does not lie inside it. *)
Definition safeCheck (file : string) : option JsError :=
  if String.eqb file (processCwd imports) then Some cwdError
  else if isUnder (processCwd imports) file then None
  else Some outsideCwdError.

(** [del(path)], called without options on a plain path.  When
    nothing is at [path], the pattern matches nothing and nothing is
    removed.  Otherwise the entry is checked first; an entry that
    passes is removed with all below it.  Failures of the removal
    itself (permissions) are not modelled. *)
Definition del (file : string) : GitTask unit :=
  perform (Del file)
    (fun m =>
       match fs m !! file with
       | None => (Resolved tt, m)
       | Some _ =>
           match safeCheck file with
           | Some refusal => (Rejected refusal, m)
           | None =>
               (Resolved tt,
                {| fs := filter (fun entry => isUnder file entry.1 = false)
                                (fs m);
                   outside := outside m |})
           end
       end).

Definition folderExists (file : string) : GitTask bool :=
  catch
    (andThen (stat file)
             (fun stats =>
                resolve (match stats with
                         | Directory => true
                         | RegularFile => false
                         end)))
    (fun e =>
       if decide (errCode e = Some (CodeString "ENOENT"))
       then resolve false
       else reject e).

Definition repoExists (options : BackportOptions BLM) : GitTask bool :=
  folderExists (getRepoPath imports options).

Definition deleteRepo (options : BackportOptions BLM) : GitTask unit :=
  let repoPath := getRepoPath imports options in
  del repoPath.

Definition getRemoteUrl (options : BackportOptions BLM)
    (repoOwner : string) : string :=
  "https://" +:+ accessToken options +:+ "@" +:+ gitHostname options
    +:+ "/" +:+ repoOwner +:+ "/" +:+ repoName options +:+ ".git".

(** The progress callback only feeds the spinner. *)
Definition cloneRepo (options : BackportOptions BLM) : GitTask unit :=
  let cmd :=
    "git clone " +:+ getRemoteUrl options (repoOwner options)
      +:+ " --progress" in
  let cwd := getRepoOwnerPath imports options in
  perform (ExecAsCallback cmd cwd) (execAsCallback imports cmd cwd).

Definition deleteRemote (options : BackportOptions BLM)
    (remoteName : string) : GitTask unit :=
  let cmd := "git remote rm " +:+ remoteName in
  let cwd := getRepoPath imports options in
  catch
    (andThen (perform (Exec cmd cwd) (exec imports cmd cwd))
             (fun _ => resolve tt))
    (fun e =>
       let isExecError :=
         bool_decide (errCode e = Some (CodeNumber 128)) in
       if negb isExecError then reject e else resolve tt).

Definition addRemote (options : BackportOptions BLM)
    (remoteName : string) : GitTask unit :=
  let cmd :=
    "git remote add " +:+ remoteName +:+ " "
      +:+ getRemoteUrl options remoteName in
  let cwd := getRepoPath imports options in
  catch
    (andThen (perform (Exec cmd cwd) (exec imports cmd cwd))
             (fun _ => resolve tt))
    (fun _ => resolve tt).

(** [e.stderr?.toLowerCase().includes(needle)], with [undefined]
    counted as false. *)
Definition stderrIncludes (e : JsError) (needle : string) : bool :=
  match errStderr e with
  | Some text => Js.includes (Js.toLowerCase text) needle
  | None => false
  end.

Definition createFeatureBranch (options : BackportOptions BLM)
    (baseBranch featureBranch : string) : GitTask ExecResult :=
  let cmd :=
    "git reset --hard && git clean -d --force && git fetch "
      +:+ repoOwner options +:+ " " +:+ baseBranch
      +:+ " && git checkout -B " +:+ featureBranch +:+ " "
      +:+ repoOwner options +:+ "/" +:+ baseBranch +:+ " --no-track" in
  let cwd := getRepoPath imports options in
  catch
    (perform (Exec cmd cwd) (exec imports cmd cwd))
    (fun e =>
       let isBranchInvalid :=
         stderrIncludes e "couldn't find remote ref"
         || stderrIncludes e "Invalid refspec" in
       if isBranchInvalid
       then
         reject
           (newHandledError
              ("The branch " +:+ Js.dq +:+ baseBranch +:+ Js.dq
                 +:+ " is invalid or doesn't exist"))
       else reject e).

Definition getRemoteName (options : BackportOptions BLM) : string :=
  if fork options then username options else repoOwner options.

Definition pushFeatureBranch (options : BackportOptions BLM)
    (featureBranch : string) : GitTask ExecResult :=
  let remoteName := getRemoteName options in
  let cmd :=
    "git push " +:+ remoteName +:+ " " +:+ featureBranch +:+ ":"
      +:+ featureBranch +:+ " --force" in
  let cwd := getRepoPath imports options in
  perform (Exec cmd cwd) (exec imports cmd cwd).

(** *** [maybeSetupRepo] *)

(** The body of the [try]: create the owner directory, clone, and
    delete the default "origin" remote to avoid confusion. *)
Definition cloneAttempt (options : BackportOptions BLM) : GitTask unit :=
  andThen
    (andThen
       (perform (MakeDir (getRepoOwnerPath imports options))
                (makeDir imports (getRepoOwnerPath imports options)))
       (fun _ => cloneRepo options))
    (fun _ => deleteRemote options "origin").

Definition maybeSetupRepo (options : BackportOptions BLM) : GitTask unit :=
  andThen (repoExists options)
    (fun isAlreadyCloned =>
       andThen
         (if negb isAlreadyCloned
          then
            catch (cloneAttempt options)
                  (fun e =>
                     andThen (deleteRepo options) (fun _ => reject e))
          else resolve tt)
         (fun _ =>
            andThen (deleteRemote options (username options))
              (fun _ =>
            andThen (addRemote options (username options))
              (fun _ =>
            if negb (String.eqb (username options) (repoOwner options))
            then
              andThen (deleteRemote options (repoOwner options))
                      (fun _ => addRemote options (repoOwner options))
            else resolve tt)))).

End Service.
End Git.

(** ** Runs of the pipeline described step by step

    The predicates below describe, on the world alone, how a stretch
    of collaborator calls goes; the theorems use them to say what kind
    of run they are about. *)
Module Runs.
Import Steps Cli.

Section Runs.
Context {W : Type} (lib : Libs W) (owner repoName : string).

(** Every cherry-pick of [commits] succeeds, taking the world from
    [w] to [w']. *)
Inductive picksCleanly : list Commit -> W -> W -> Prop :=
| picks_nil w : picksCleanly [] w w
| picks_cons c cs w w1 w2 :
    cherrypick lib owner repoName (sha c) w = (Resolved tt, w1) ->
    picksCleanly cs w1 w2 ->
    picksCleanly (c :: cs) w w2.

(** One prompt per element of [answers]: the user answers, and the
    index is found dirty afterwards. *)
Inductive stillDirty : list bool -> W -> W -> Prop :=
| dirty_nil w : stillDirty [] w w
| dirty_cons answer answers w w1 w2 w3 :
    confirmConflictResolved lib w = (Resolved answer, w1) ->
    isIndexDirty lib owner repoName w1 = (Resolved true, w2) ->
    stillDirty answers w2 w3 ->
    stillDirty (answer :: answers) w w3.

(** One prompt answered [answer], after which the index is clean. *)
Definition thenClean (answer : bool) (w w' : W) : Prop :=
  exists w1,
    confirmConflictResolved lib w = (Resolved answer, w1)
    /\ isIndexDirty lib owner repoName w1 = (Resolved false, w').

(** The labels call, made only when labels are configured. *)
Definition labelsApplied (number : N) (labels : list string) (w w' : W)
  : Prop :=
  match labels with
  | [] => w' = w
  | _ => addLabels lib owner repoName number labels w = (Resolved tt, w')
  end.

(** A task for [version] on the commits [pre ++ c :: post] in
    which every step succeeds, except that the cherry-pick of [c]
    stops on a conflict: the user then answers [answers] while the
    index stays dirty, and [answer] before it is found clean. *)
Inductive conflictRun (version username : string) (labels : list string)
    (pre : list Commit) (c : Commit) (post : list Commit)
    (answers : list bool) (answer : bool) (res : GithubIssue)
  : W -> W -> Prop :=
| conflict_run w0 w1 w2 w3 w4 w5 w6 w7 w8 w9 w10 e :
    resetAndPullMaster lib owner repoName w0 = (Resolved tt, w1) ->
    createAndCheckoutBranch lib owner repoName version
      (getBackportBranchName version (pre ++ c :: post)) w1
    = (Resolved tt, w2) ->
    picksCleanly pre w2 w3 ->
    cherrypick lib owner repoName (sha c) w3 = (Rejected e, w4) ->
    isCherrypickConflict e = inr true ->
    stillDirty answers w4 w5 ->
    thenClean answer w5 w6 ->
    picksCleanly post w6 w7 ->
    push lib owner repoName username
         (getBackportBranchName version (pre ++ c :: post)) w7
    = (Resolved tt, w8) ->
    createPullRequest lib owner repoName
      (getPullRequestPayload version (pre ++ c :: post) username) w8
    = (Resolved res, w9) ->
    labelsApplied (number res) labels w9 w10 ->
    conflictRun version username labels pre c post answers answer res
                w0 w10.

End Runs.

(** The calls that are not pull-request creations. *)
Definition notCreate (c : Call) : Prop := isCreatePullRequestCall c = false.

(** [p] leaves the recorded calls in place and adds only calls
    that satisfy [P]. *)
Definition adds {W A : Type} (P : Call -> Prop)
    (p : Promise (Session W Call) A) : Prop :=
  forall s, exists tr, calls (p s).2 = calls s ++ tr /\ Forall P tr.

(** The calls of one round of the conflict loop. *)
Definition roundCalls (owner repoName : string) : list Call :=
  [ConfirmConflictResolved; IsIndexDirty owner repoName].

Definition pickCalls (owner repoName : string) (commits : list Commit)
  : list Call :=
  map (fun commit => Cherrypick owner repoName (sha commit)) commits.

(** The calls that follow the creation of the pull request. *)
Definition labelCalls (owner repoName : string) (res : GithubIssue)
    (labels : list string) : list Call :=
  if (0 <? length labels)%nat
  then [AddLabels owner repoName (number res) labels]
  else [].

(** The calls of a task with one conflict that took [rounds] rounds
    of the loop, in order. *)
Definition conflictRunCalls (owner repoName version username : string)
    (labels : list string) (pre : list Commit) (c : Commit)
    (post : list Commit) (rounds : nat) (res : GithubIssue) : list Call :=
  let commits := pre ++ c :: post in
  let branch := getBackportBranchName version commits in
  [ConsoleLog ("Backporting " +:+ Js.join ", " (map getReferenceLong commits)
                 +:+ " to " +:+ version);
   ResetAndPullMaster owner repoName;
   CreateAndCheckoutBranch owner repoName version branch]
  ++ pickCalls owner repoName pre
  ++ [Cherrypick owner repoName (sha c)]
  ++ concat (replicate rounds (roundCalls owner repoName))
  ++ pickCalls owner repoName post
  ++ [Push owner repoName username branch;
      CreatePullRequest owner repoName
        (getPullRequestPayload version commits username)]
  ++ labelCalls owner repoName res labels.

End Runs.

(** ** Concrete collaborators for the examples

    They follow the mocks of the [doBackportVersion] tests: every git
    command succeeds except a cherry-pick of [conflictSha] and a
    checkout of [invalidBranch]; the prompt always answers [answer];
    the pull request created is number 1337.  The world is the number
    of index checks that will still find the index dirty. *)
Module Demo.
Import Steps Cli.

Definition conflictError (sha : string) : JsError :=
  {| errClass := PlainError; errMessage := "as"; errCode := None;
     errCmd := Some ("git cherry-pick " +:+ sha);
     errStderr := None; errStdout := None |}.

Definition invalidBranchError (branch : string) : JsError :=
  {| errClass := PlainError;
     errMessage := "fatal: Couldn't find remote ref " +:+ branch;
     errCode := Some (CodeNumber 128);
     errCmd := Some ("git fetch origin " +:+ branch);
     errStderr := Some ("fatal: Couldn't find remote ref " +:+ branch);
     errStdout := None |}.

Definition createdPullRequest : GithubIssue :=
  {| html_url := "myHtmlUrl"; number := 1337 |}.

Definition libs (conflictSha invalidBranch : string) (answer : bool)
  : Libs nat :=
  {| resetAndPullMaster := fun _ _ w => (Resolved tt, w);
     createAndCheckoutBranch := fun _ _ version _ w =>
       if String.eqb version invalidBranch
       then (Rejected (invalidBranchError version), w)
       else (Resolved tt, w);
     cherrypick := fun _ _ sha w =>
       if String.eqb sha conflictSha
       then (Rejected (conflictError sha), w)
       else (Resolved tt, w);
     push := fun _ _ _ _ w => (Resolved tt, w);
     isIndexDirty := fun _ _ w =>
       match w with
       | O => (Resolved false, O)
       | S k => (Resolved true, k)
       end;
     confirmConflictResolved := fun w => (Resolved answer, w);
     getPullRequestByCommit := fun _ _ _ w => (Resolved None, w);
     createPullRequest := fun _ _ _ w => (Resolved createdPullRequest, w);
     addLabels := fun _ _ _ _ w => (Resolved tt, w);
     GITHUB_ERROR := CodeString "GITHUB_ERROR";
     getRepoPath := fun owner repoName =>
       "/myHomeDir/.backport/repositories/" +:+ owner +:+ "/" +:+ repoName
  |}.

Definition start (dirtyChecks : nat) : Session nat Call :=
  {| world := dirtyChecks; calls := [] |}.

(** The commit of the first example scenario. *)
Definition commit1000 : Commit :=
  {| sha := "mySha"; message := "myCommitMessage (#1000)";
     pullRequest := Some 1000%positive |}.

(** The commit of the conflict tests. *)
Definition plainCommit : Commit :=
  {| sha := "mySha"; message := "myCommitMessage"; pullRequest := None |}.

Definition options (useFork : bool) : BackportOptions unit :=
  {| accessToken := "myAccessToken";
     githubApiBaseUrlV4 := "https://api.github.com/graphql";
     gitHostname := "github.com";
     maxNumber := 10;
     repoName := "kibana";
     repoOwner := "elastic";
     username := "sqren";
     fork := useFork;
     sourceBranch := "master";
     path := None;
     all := false;
     author := Some "sqren";
     branchLabelMapping := tt |}.

(** Collaborators of the resolver.  The world is the response the
    API is going to give; formatting and label lookups are kept
    trivial. *)
Definition resolverImports
  : Resolver.Imports unit unit unit (Resolver.DataResponse unit) :=
  {| Resolver.getFormattedCommitMessage := fun message _ _ => message;
     Resolver.getExistingTargetPullRequests := fun _ _ => [];
     Resolver.getTargetBranchesFromLabels := fun _ _ _ => [];
     Resolver.getPullRequestLabels := fun _ => [];
     Resolver.fetchAuthorId := fun options w => (Resolved (author options), w);
     Resolver.apiRequestV4 := fun _ _ _ w => (Resolved w, w) |}.

(** A history entry whose only associated pull request lives in
    another owner's repository, and whose message mentions a pull
    request in the middle. *)
Definition revertEdge : Resolver.HistoryEdge unit :=
  {| Resolver.oid := "mySha";
     Resolver.node_message := "Revert (#123) because of flakiness";
     Resolver.associatedPullRequests :=
       [ {| Resolver.number := 7;
            Resolver.repository_name := "kibana";
            Resolver.repository_owner_login := "someone-else";
            Resolver.mergeCommit_oid := Some "mySha";
            Resolver.rest := tt |} ] |}.

(** A source branch without any commit. *)
Definition emptyHistory : Resolver.DataResponse unit :=
  {| Resolver.repository_ref := Some [] |}.

Definition optionsIn (dir : string) (everyone : bool)
  : BackportOptions unit :=
  {| accessToken := "myAccessToken";
     githubApiBaseUrlV4 := "https://api.github.com/graphql";
     gitHostname := "github.com";
     maxNumber := 10;
     repoName := "kibana";
     repoOwner := "elastic";
     username := "sqren";
     fork := true;
     sourceBranch := "master";
     path := Some dir;
     all := everyone;
     author := if everyone then None else Some "sqren";
     branchLabelMapping := tt |}.

(** A failure of [git fetch] on a malformed refspec. *)
Definition refspecError : JsError :=
  {| errClass := PlainError;
     errMessage := "Command failed: git fetch elastic 6.x^";
     errCode := Some (CodeNumber 128);
     errCmd := Some "git fetch elastic 6.x^";
     errStderr := Some "fatal: Invalid refspec '6.x^'";
     errStdout := None |}.

Definition repoPathOf (options : BackportOptions unit) : string :=
  "/myHomeDir/.backport/repositories/" +:+ repoOwner options +:+ "/"
    +:+ repoName options.

(** Collaborators of the git service: [exec] fails with [failure]
    when one is given; the clone leaves the repository folder and a
    file in it behind and then fails with [cloneFailure] when one is
    given. *)
Definition gitImportsAt (startedIn : string)
    (failure cloneFailure : option JsError)
  : Git.Platform unit unit :=
  {| Git.exec := fun _ _ m =>
       match failure with
       | Some e => (Rejected e, m)
       | None => (Resolved {| Git.stdout := EmptyString;
                              Git.stderr := EmptyString |}, m)
       end;
     Git.execAsCallback := fun _ cwd m =>
       let cloned :=
         {| Git.fs :=
              <[cwd +:+ "/kibana/.git" := Git.RegularFile]>
                (<[cwd +:+ "/kibana" := Git.Directory]> (Git.fs m));
            Git.outside := Git.outside m |} in
       match cloneFailure with
       | Some e => (Rejected e, cloned)
       | None => (Resolved tt, cloned)
       end;
     Git.makeDir := fun dir m =>
       (Resolved tt,
        {| Git.fs := <[dir := Git.Directory]> (Git.fs m);
           Git.outside := Git.outside m |});
     Git.getRepoPath := repoPathOf;
     Git.getRepoOwnerPath := fun options =>
       "/myHomeDir/.backport/repositories/" +:+ repoOwner options;
     Git.processCwd := startedIn |}.

(** The tool started from a checkout of the project, outside the
    folder in which the repositories are kept. *)
Definition gitImports (failure cloneFailure : option JsError)
  : Git.Platform unit unit :=
  gitImportsAt "/myHomeDir/projects/kibana" failure cloneFailure.

Definition networkDown : JsError :=
  {| errClass := PlainError;
     errMessage := "Command failed: git clone";
     errCode := Some (CodeNumber 128);
     errCmd := Some "git clone";
     errStderr := Some "fatal: unable to access: Could not resolve host";
     errStdout := None |}.

Definition freshMachine : Session (Git.Machine unit) Git.SystemCall :=
  {| world := {| Git.fs := ∅; Git.outside := tt |}; calls := [] |}.

End Demo.

(** ** Further string primitives *)
Module JsText.

(** [s.split(sep)] for a one-character separator. *)
Fixpoint split (sep : ascii) (s : string) : list string :=
  match s with
  | EmptyString => [EmptyString]
  | String c t =>
      if Ascii.eqb c sep then EmptyString :: split sep t
      else match split sep t with
           | piece :: pieces => String c piece :: pieces
           | [] => [String c EmptyString]
           end
  end.

(** The white space and line terminators of ASCII text: tab, line
    feed, vertical tab, form feed, carriage return and blank. *)
Definition isSpace (c : ascii) : bool :=
  let n := nat_of_ascii c in
  ((9 <=? n)%nat && (n <=? 13)%nat) || (n =? 32)%nat.

Fixpoint trimStart (s : string) : string :=
  match s with
  | EmptyString => EmptyString
  | String c t => if isSpace c then trimStart t else s
  end.

Fixpoint trimEnd (s : string) : string :=
  match s with
  | EmptyString => EmptyString
  | String c t =>
      match trimEnd t with
      | EmptyString => if isSpace c then EmptyString else String c EmptyString
      | kept => String c kept
      end
  end.

(** [s.trim()]. *)
Definition trim (s : string) : string := trimEnd (trimStart s).

(** [s.indexOf(c)] for a character [c]; [None] stands for [-1]. *)
Fixpoint indexOf (c : ascii) (s : string) : option nat :=
  match s with
  | EmptyString => None
  | String d t =>
      if Ascii.eqb d c then Some O
      else match indexOf c t with
           | Some n => Some (S n)
           | None => None
           end
  end.

(** [s.slice(0, pos)] where [pos] is the result of an [indexOf]: the
    end [-1] counts from the end of the string and drops the last
    character. *)
Definition sliceTo (pos : option nat) (s : string) : string :=
  match pos with
  | Some n => Js.slice0 n s
  | None => Js.slice0 (String.length s - 1) s
  end.

(** [uniq] of lodash: the first occurrence of every element, in
    order; [seen] holds the elements already kept. *)
Fixpoint uniqFrom (seen items : list string) : list string :=
  match items with
  | [] => []
  | item :: others =>
      if bool_decide (item ∈ seen) then uniqFrom seen others
      else item :: uniqFrom (item :: seen) others
  end.

Definition uniq (items : list string) : list string := uniqFrom [] items.

(** The decimal numeral of a natural number, as a template literal
    renders it. *)
Definition ofN (n : N) : string := NilZero.string_of_uint (N.to_uint n).

(** Up to [2^53] every natural number is a double, so [parseInt]
    reads its decimal numeral exactly; above it the result is
    rounded. *)
Definition maxExact : N := 2 ^ 53.

End JsText.

(** ** Further cli steps *)
Module StepsMore.

(** The object returned by [parseUpstream]; a component the split
    does not yield is [undefined]. *)
Record Upstream := {
  owner : option string;
  repoName : option string
}.

Definition parseUpstream (upstream : string) : Upstream :=
  let parts := JsText.split "/" upstream in
  {| owner := parts !! 0%nat; repoName := parts !! 1%nat |}.

End StepsMore.

(** ** The error handler on any rejection value *)
Module CliMore.
Import Async.

Section Pipeline.
Context {W : Type} (lib : Cli.Libs W).


End Pipeline.
End CliMore.

(** ** Further functions of the git service *)
Module GitMore.
Import Git Async.

Section Service.
Context {BLM X : Type} (imports : Platform BLM X).

(** [path.resolve] of Node, not among the sources. *)
Context (pathResolve : string -> string -> string).

(** The informational note goes to the log file only. *)
Definition cherrypickContinue (options : BackportOptions BLM)
  : Promise (Session (Machine X) SystemCall) unit :=
  let cmd := "git -c core.editor=true cherry-pick --continue" in
  let cwd := getRepoPath imports options in
  catch
    (andThen (perform (Exec cmd cwd) (exec imports cmd cwd))
             (fun _ => resolve tt))
    (fun e =>
       let isCherrypickError :=
         bool_decide (errCode e = Some (CodeNumber 128)) in
       if isCherrypickError then resolve tt else reject e).

(** The body of the [map] of [getFilesWithConflicts]. *)
Definition conflictEntry (repoPath line : string) : string :=
  let posSeparator := JsText.indexOf ":" line in
  let filename := JsText.trim (JsText.sliceTo posSeparator line) in
  " - " +:+ pathResolve repoPath filename.

Definition getFilesWithConflicts (options : BackportOptions BLM)
  : Promise (Session (Machine X) SystemCall) (list string) :=
  let repoPath := getRepoPath imports options in
  let cmd := "git --no-pager diff --check" in
  catch
    (andThen (perform (Exec cmd repoPath) (exec imports cmd repoPath))
             (fun _ => resolve []))
    (fun e =>
       let isConflictError := bool_decide (errCode e = Some (CodeNumber 2)) in
       if isConflictError then
         match errStdout e with
         | None =>
             reject (newTypeError "Cannot read property 'split' of undefined")
         | Some out =>
             let files :=
               map (conflictEntry repoPath)
                   (filter (fun line => JsText.trim line <> EmptyString)
                           (JsText.split (ascii_of_nat 10) out)) in
             resolve (JsText.uniq files)
         end
       else reject e).

End Service.
End GitMore.

(** ** Properties of recorded calls, for any kind of call *)
Module Traces.

(** [p] leaves the recorded calls in place and adds only calls that
    satisfy [P]. *)
Definition appendsOnly {W C A : Type} (P : C -> Prop)
    (p : Promise (Session W C) A) : Prop :=
  forall s, exists tr, calls (p s).2 = calls s ++ tr /\ Forall P tr.


(** The calls of the pipeline before anything is published. *)
Definition isLocalCall (c : Cli.Call) : Prop :=
  Cli.isPushCall c = false
  /\ Cli.isCreatePullRequestCall c = false
  /\ Cli.isAddLabelsCall c = false.

(** The first line a task prints. *)
Definition banner (commits : list Steps.Commit) (version : string)
  : Cli.Call :=
  Cli.ConsoleLog
    ("Backporting " +:+ Js.join ", " (map Steps.getReferenceLong commits)
       +:+ " to " +:+ version).

Definition isLookupCall (c : Cli.Call) : bool :=
  match c with Cli.GetPullRequestByCommit _ _ _ => true | _ => false end.

Definition isDelCall (c : Git.SystemCall) : bool :=
  match c with Git.Del _ => true | _ => false end.

Definition isExecCall (c : Git.SystemCall) : bool :=
  match c with Git.Exec _ _ => true | _ => false end.

End Traces.

(** ** Further collaborators for the examples *)
Module Scenarios.
Import Steps Cli.

(** Collaborators with an index that never gets clean and a
    cherry-pick that always stops on a conflict. *)
Definition stuck : Libs unit :=
  {| resetAndPullMaster := fun _ _ w => (Resolved tt, w);
     createAndCheckoutBranch := fun _ _ _ _ w => (Resolved tt, w);
     cherrypick := fun _ _ sha w => (Rejected (Demo.conflictError sha), w);
     push := fun _ _ _ _ w => (Resolved tt, w);
     isIndexDirty := fun _ _ w => (Resolved true, w);
     confirmConflictResolved := fun w => (Resolved true, w);
     getPullRequestByCommit := fun _ _ _ w => (Resolved None, w);
     createPullRequest := fun _ _ _ w =>
       (Resolved Demo.createdPullRequest, w);
     addLabels := fun _ _ _ _ w => (Resolved tt, w);
     GITHUB_ERROR := CodeString "GITHUB_ERROR";
     getRepoPath := fun owner repoName => owner +:+ "/" +:+ repoName |}.

(** A failure of [git] that is no conflict: the disk is full. *)
Definition diskFull : JsError :=
  {| errClass := PlainError; errMessage := "No space left on device";
     errCode := Some (CodeNumber 1);
     errCmd := Some "git fetch elastic master:master --force";
     errStderr := Some "fatal: write error: No space left on device";
     errStdout := None |}.

(** An error thrown without a [cmd] property. *)
Definition bareError : JsError :=
  {| errClass := PlainError; errMessage := "socket hang up";
     errCode := None; errCmd := None; errStderr := None;
     errStdout := None |}.

(** Collaborators whose cherry-pick of [badSha] fails with [failure],
    and whose prompt fails with [interrupt] when one is given. *)
Definition failing (badSha : string) (failure : JsError)
    (interrupt : option JsError) : Libs unit :=
  {| resetAndPullMaster := fun _ _ w => (Resolved tt, w);
     createAndCheckoutBranch := fun _ _ _ _ w => (Resolved tt, w);
     cherrypick := fun _ _ sha w =>
       if String.eqb sha badSha then (Rejected failure, w)
       else (Resolved tt, w);
     push := fun _ _ _ _ w => (Resolved tt, w);
     isIndexDirty := fun _ _ w => (Resolved false, w);
     confirmConflictResolved := fun w =>
       match interrupt with
       | Some e => (Rejected e, w)
       | None => (Resolved true, w)
       end;
     getPullRequestByCommit := fun _ _ sha w =>
       (Resolved (if String.eqb sha "mySha" then Some 1000%positive
                  else None), w);
     createPullRequest := fun _ _ _ w =>
       (Resolved Demo.createdPullRequest, w);
     addLabels := fun _ _ _ _ w => (Resolved tt, w);
     GITHUB_ERROR := CodeString "GITHUB_ERROR";
     getRepoPath := fun owner repoName => owner +:+ "/" +:+ repoName |}.

Definition begin : Session unit Call := {| world := tt; calls := [] |}.

(** Collaborators with which every step succeeds, except that the
    labels call fails with [failure]. *)
Definition labelsFail (failure : JsError) : Libs unit :=
  {| resetAndPullMaster := fun _ _ w => (Resolved tt, w);
     createAndCheckoutBranch := fun _ _ _ _ w => (Resolved tt, w);
     cherrypick := fun _ _ _ w => (Resolved tt, w);
     push := fun _ _ _ _ w => (Resolved tt, w);
     isIndexDirty := fun _ _ w => (Resolved false, w);
     confirmConflictResolved := fun w => (Resolved true, w);
     getPullRequestByCommit := fun _ _ _ w => (Resolved None, w);
     createPullRequest := fun _ _ _ w =>
       (Resolved Demo.createdPullRequest, w);
     addLabels := fun _ _ _ _ w => (Rejected failure, w);
     GITHUB_ERROR := CodeString "GITHUB_ERROR";
     getRepoPath := fun owner repoName => owner +:+ "/" +:+ repoName |}.

Definition otherCommit : Commit :=
  {| sha := "mySha2"; message := "myOtherCommitMessage";
     pullRequest := None |}.

(** A machine on which the repository is already cloned. *)
Definition clonedMachine : Session (Git.Machine unit) Git.SystemCall :=
  {| world :=
       {| Git.fs :=
            {[ "/myHomeDir/.backport/repositories/elastic/kibana"
               := Git.Directory ]};
          Git.outside := tt |};
     calls := [] |}.

(** A failure of [git remote rm] for a remote that does not exist. *)
Definition noSuchRemote : JsError :=
  {| errClass := PlainError;
     errMessage := "Command failed: git remote rm";
     errCode := Some (CodeNumber 128);
     errCmd := Some "git remote rm";
     errStderr := Some "fatal: No such remote";
     errStdout := None |}.

(** The failure of [git diff --check] on two files with conflict
    markers, one of them reported twice. *)
Definition conflictMarkers : JsError :=
  {| errClass := PlainError;
     errMessage := "Command failed: git --no-pager diff --check";
     errCode := Some (CodeNumber 2);
     errCmd := Some "git --no-pager diff --check";
     errStderr := None;
     errStdout :=
       Some ("a.ts:1: leftover conflict marker" +:+ Js.nl
               +:+ "a.ts:5: leftover conflict marker" +:+ Js.nl
               +:+ "b.ts:2: leftover conflict marker" +:+ Js.nl) |}.

(** A stand-in for [path.resolve]: joins with a slash. *)
Definition joinPath (dir file : string) : string := dir +:+ "/" +:+ file.

End Scenarios.

(** * Properties *)

(** ** Strings *)
Module JsFacts.

Lemma slice0_take (n : nat) (s : string) :
  Js.slice0 n s = string_of_list_ascii (take n (list_ascii_of_string s)).
Proof.
  unfold Js.slice0. revert s.
  induction n as [|n IH]; intros [|c s]; simpl; try reflexivity.
  now rewrite IH.
Qed.

Lemma slice0_length (n : nat) (s : string) :
  (String.length (Js.slice0 n s) <= n)%nat.
Proof.
  unfold Js.slice0. revert s.
  induction n as [|n IH]; intros [|c s]; simpl; try lia.
  specialize (IH s). lia.
Qed.

Lemma prefix_app (p s : string) : String.prefix p (p +:+ s) = true.
Proof.
  induction p as [|c p IH]; simpl.
  - now destruct s.
  - destruct (Ascii.ascii_dec c c) as [_|Hne]; [exact IH | now elim Hne].
Qed.

Lemma includes_here (s needle : string) :
  String.prefix needle s = true -> Js.includes s needle = true.
Proof. intros H. destruct s; simpl in *; now rewrite H. Qed.

Lemma includes_skip (pre s needle : string) :
  Js.includes s needle = true -> Js.includes (pre +:+ s) needle = true.
Proof.
  intros H. induction pre as [|c pre IH]; simpl; [exact H|].
  rewrite IH. apply orb_true_r.
Qed.

Lemma append_empty (s : string) : s +:+ EmptyString = s.
Proof.
  induction s as [|c s IH]; [reflexivity|].
  change (String c (s +:+ EmptyString) = String c s). now rewrite IH.
Qed.

Lemma append_assoc (a b c : string) : (a +:+ b) +:+ c = a +:+ b +:+ c.
Proof.
  induction a as [|x a IH]; [reflexivity|].
  change (String x ((a +:+ b) +:+ c) = String x (a +:+ b +:+ c)).
  now rewrite IH.
Qed.

(** A string includes each piece it was put together from. *)
Lemma includes_middle (pre mid post : string) :
  Js.includes (pre +:+ mid +:+ post) mid = true.
Proof. apply includes_skip, includes_here, prefix_app. Qed.

Lemma includes_piece (s pre mid post : string) :
  s = pre +:+ mid +:+ post -> Js.includes s mid = true.
Proof. intros ->. apply includes_middle. Qed.

Lemma prefix_occurs (c : ascii) (p s : string) :
  String.prefix (String c p) s = true -> Js.occurs c s.
Proof.
  destruct s as [|d s]; simpl; [discriminate|].
  destruct (Ascii.ascii_dec c d) as [->|]; [now left | discriminate].
Qed.

Lemma includes_occurs (c : ascii) (p s : string) :
  Js.includes s (String c p) = true -> Js.occurs c s.
Proof.
  induction s as [|d s IH]; simpl.
  - discriminate.
  - intros H. apply orb_true_iff in H as [H|H].
    + destruct (Ascii.ascii_dec c d) as [->|]; [now left | discriminate].
    + right. now apply IH.
Qed.

Lemma lowerChar_not_upper (c : ascii) : Js.isUpper (Js.lowerChar c) = false.
Proof.
  destruct c as [[] [] [] [] [] [] [] []]; vm_compute; reflexivity.
Qed.

(** No capital letter survives [toLowerCase]. *)
Lemma toLowerCase_no_upper (c : ascii) (s : string) :
  Js.isUpper c = true -> ~ Js.occurs c (Js.toLowerCase s).
Proof.
  intros Hc. induction s as [|d s IH]; simpl; [tauto|].
  intros [->|H]; [|now apply IH].
  rewrite lowerChar_not_upper in Hc. discriminate.
Qed.

(** A needle that starts with a capital letter is never found in
    lower-cased text. *)
Lemma lowered_excludes_capitalised (c : ascii) (p s : string) :
  Js.isUpper c = true -> Js.includes (Js.toLowerCase s) (String c p) = false.
Proof.
  intros Hc. destruct (Js.includes _ _) eqn:E; [|reflexivity].
  exfalso. eapply toLowerCase_no_upper; [exact Hc|].
  eapply includes_occurs; exact E.
Qed.

End JsFacts.

(** ** Branch names and payloads *)
Module StepsFacts.
Import Steps.

Lemma join_joinedRefsSpec (refs : list string) :
  Js.join "_" refs = joinedRefsSpec refs.
Proof.
  unfold Js.join.
  induction refs as [|r [|r' refs] IH]; try reflexivity.
  change (r +:+ "_" +:+ String.concat "_" (r' :: refs)
          = r +:+ "_" +:+ joinedRefsSpec (r' :: refs)).
  now rewrite IH.
Qed.

Lemma getReferenceShort_spec (commit : Commit) :
  getReferenceShort commit = shortRefSpec commit.
Proof.
  unfold getReferenceShort, getReference, shortRefSpec, firstChars.
  destruct (pullRequest commit); [reflexivity|].
  now rewrite JsFacts.slice0_take.
Qed.

(** C1: for every target branch and every ordered list of commits
    (empty or not), the derived branch name is
    [backport/<target>/<refs>], where [<refs>] is the commits' short
    references ([pr-<number>] with a pull request, otherwise
    [commit-<first 7 characters of the revision id>]) joined by [_]
    and cut to at most 200 characters; equal inputs give equal
    names. *)
Theorem getBackportBranchName_spec (target : string) (commits : list Commit) :
  getBackportBranchName target commits = branchNameSpec target commits
  /\ (String.length
        (firstChars 200 (joinedRefsSpec (map shortRefSpec commits)))
      <= 200)%nat
  /\ (forall target' commits',
        (target', commits') = (target, commits) ->
        getBackportBranchName target' commits'
        = getBackportBranchName target commits).
Proof.
  assert (Hrefs : map getReferenceShort commits = map shortRefSpec commits).
  { apply map_ext. intros c. apply getReferenceShort_spec. }
  split; [|split].
  - unfold getBackportBranchName, branchNameSpec, firstChars.
    now rewrite JsFacts.slice0_take, join_joinedRefsSpec, Hrefs.
  - unfold firstChars. rewrite <- JsFacts.slice0_take.
    apply JsFacts.slice0_length.
  - intros target' commits' [= -> ->]. reflexivity.
Qed.

Lemma getBackportBranchName_spec_witness :
  getBackportBranchName "6.x" [Demo.commit1000; Demo.plainCommit]
  = "backport/6.x/pr-1000_commit-mySha"
  /\ getBackportBranchName "6.x" [Demo.commit1000; Demo.plainCommit]
     = getBackportBranchName "6.x" [Demo.commit1000; Demo.plainCommit].
Proof.
  destruct (getBackportBranchName_spec
              "6.x" [Demo.commit1000; Demo.plainCommit])
    as [Hname [_ Hpure]].
  split.
  - rewrite Hname. vm_compute. reflexivity.
  - apply Hpure. reflexivity.
Defined.





(** C7: for the commit [mySha] with message [myCommitMessage (#1000)]
    and pull request 1000, on target [6.x], the branch name and the
    title are the expected ones, but the body line keeps the blank
    that preceded the stripped reference: it reads
    [ - myCommitMessage  (#1000)], with two blanks, and so differs
    from the expected body. *)
Theorem payload_of_first_scenario :
  let payload := getPullRequestPayload "6.x" [Demo.commit1000] "sqren" in
  getBackportBranchName "6.x" [Demo.commit1000] = "backport/6.x/pr-1000"
  /\ title payload = "[6.x] myCommitMessage (#1000)"
  /\ body payload
     = "Backports the following commits to 6.x:" +:+ Js.nl
       +:+ " - myCommitMessage  (#1000)"
  /\ body payload
     <> "Backports the following commits to 6.x:" +:+ Js.nl
        +:+ " - myCommitMessage (#1000)".
Proof. vm_compute. repeat split. discriminate. Qed.

End StepsFacts.

(** ** Commit resolution *)
Module ResolverFacts.
Import Resolver Async.

Lemma digitsThenClose_app (ds post : string) :
  allDigits ds = true -> digitsThenClose (ds +:+ ")" +:+ post) = Some ds.
Proof.
  induction ds as [|c ds IH]; simpl; [reflexivity|].
  intros [Hc Hds]%andb_true_iff. now rewrite Hc, IH.
Qed.

Lemma digitsThenClose_inv (s ds : string) :
  digitsThenClose s = Some ds ->
  allDigits ds = true /\ exists post, s = ds +:+ ")" +:+ post.
Proof.
  revert ds. induction s as [|c s IH]; simpl; [discriminate|].
  intros ds. destruct (Js.isDigit c) eqn:Hc.
  - destruct (digitsThenClose s) as [ds'|]; [|discriminate].
    intros [= <-]. destruct (IH ds' eq_refl) as [Hds [post ->]].
    simpl. rewrite Hc, Hds. split; [reflexivity | now exists post].
  - destruct (Ascii.eqb c ")") eqn:Hclose; [|discriminate].
    intros [= <-]. apply Ascii.eqb_eq in Hclose as ->.
    split; [reflexivity | now exists s].
Qed.

Lemma matchAt_app (ds post : string) :
  allDigits ds = true -> ds <> EmptyString ->
  matchAt ("(#" +:+ ds +:+ ")" +:+ post) = Some ds.
Proof.
  intros Hds Hne.
  change (matchAt (String "(" (String "#" (ds +:+ ")" +:+ post))) = Some ds).
  unfold matchAt. rewrite digitsThenClose_app by exact Hds.
  destruct ds; [now elim Hne | reflexivity].
Qed.

Lemma matchAt_inv (s ds : string) :
  matchAt s = Some ds -> patternAt s EmptyString ds.
Proof.
  unfold matchAt, patternAt.
  destruct s as [|c1 [|c2 rest]]; try discriminate.
  - destruct c1 as [[] [] [] [] [] [] [] []]; discriminate.
  - destruct (Ascii.eqb c1 "(") eqn:H1;
      [apply Ascii.eqb_eq in H1 as -> |
       destruct c1 as [[] [] [] [] [] [] [] []]; try discriminate;
       simpl in H1; discriminate].
    destruct (Ascii.eqb c2 "#") eqn:H2;
      [apply Ascii.eqb_eq in H2 as -> |
       destruct c2 as [[] [] [] [] [] [] [] []]; try discriminate;
       simpl in H2; discriminate].
    destruct (digitsThenClose rest) as [[|d ds']|] eqn:E; try discriminate.
    intros [= <-]. apply digitsThenClose_inv in E as [Hds [post ->]].
    split; [exact Hds|]. split; [discriminate | now exists post].
Qed.

(** A match that is found sits at some place of the message, and no
    match starts further to the left. *)
Lemma regexSearch_found (s ds : string) :
  regexSearch s = Some ds ->
  exists pre,
    patternAt s pre ds
    /\ forall pre' ds',
         patternAt s pre' ds' ->
         (String.length pre <= String.length pre')%nat.
Proof.
  induction s as [|c s IH].
  - simpl. discriminate.
  - cbn [regexSearch]. destruct (matchAt (String c s)) as [ds0|] eqn:E.
    + intros [= <-]. exists EmptyString. split.
      * now apply matchAt_inv.
      * intros. simpl. lia.
    + intros Hs. destruct (IH Hs) as [pre [[Hds [Hne [post Heq]]] Hleft]].
      exists (String c pre). split.
      * split; [exact Hds|]. split; [exact Hne|].
        exists post. simpl. now rewrite Heq.
      * intros pre' ds' [Hds' [Hne' [post' Heq']]].
        destruct pre' as [|c' pre'].
        { simpl in Heq'. rewrite Heq' in E.
          change (matchAt ("(#" +:+ ds' +:+ ")" +:+ post') = None) in E.
          rewrite matchAt_app in E by assumption. discriminate. }
        simpl in Heq'. injection Heq' as -> Heq'.
        specialize (Hleft pre' ds').
        simpl. apply le_n_S, Hleft.
        split; [exact Hds'|]. split; [exact Hne'|]. now exists post'.
Qed.

Lemma regexSearch_here (s ds : string) :
  matchAt s = Some ds -> regexSearch s = Some ds.
Proof. intros H. destruct s; simpl in *; now rewrite H. Qed.

Lemma regexSearch_cons (c : ascii) (s : string) :
  regexSearch (String c s)
  = match matchAt (String c s) with
    | Some ds => Some ds
    | None => regexSearch s
    end.
Proof. reflexivity. Qed.

(** When nothing is found, the message holds no [(#NNN)] at all. *)
Lemma regexSearch_complete (s pre ds : string) :
  patternAt s pre ds -> regexSearch s <> None.
Proof.
  intros [Hds [Hne [post ->]]].
  induction pre as [|c pre IH].
  - change (regexSearch ("(#" +:+ ds +:+ ")" +:+ post) <> None).
    rewrite (regexSearch_here _ ds); [discriminate|].
    now apply matchAt_app.
  - change (regexSearch (String c (pre +:+ "(#" +:+ ds +:+ ")" +:+ post))
            <> None).
    rewrite regexSearch_cons. destruct (matchAt _); [discriminate | exact IH].
Qed.

Section Facts.
Context {BLM X TargetPR W : Type}.
Context (imports : Imports BLM X TargetPR W).

Lemma isSourcePullRequest_true
    (candidate : option (PullRequestNode X))
    (options : BackportOptions BLM) (sha : string) :
  isSourcePullRequest candidate options sha = true
  <-> exists node,
        candidate = Some node
        /\ mergeCommit_oid node = Some sha
        /\ repository_owner_login node = repoOwner options
        /\ repository_name node = repoName options.
Proof.
  unfold isSourcePullRequest. destruct candidate as [node|].
  - rewrite !andb_true_iff, !String.eqb_eq. split.
    + intros [[Hname Howner] Hoid]. exists node.
      destruct (mergeCommit_oid node) as [o|]; [|discriminate].
      apply String.eqb_eq in Hoid as ->. auto.
    + intros [node' [[= <-] [Hoid [Howner Hname]]]].
      rewrite Hoid. repeat split; auto. apply String.eqb_refl.
  - split; [discriminate|]. intros [node [[=] _]].
Qed.

(** C2, as the code has it: a candidate pull request is accepted
    exactly when its merge-commit id equals the revision id and
    its repository owner and name are those of the current
    repository, and then gives the commit its number; otherwise
    the commit carries no labels-derived branches and no existing
    target pull requests, and its number is parsed from the
    leftmost [(#NNN)] found anywhere in the message (trailing or
    not), and is absent when the message holds none. *)
Theorem commitOfEdge_pull_request
    (options : BackportOptions BLM) (edge : HistoryEdge X) :
  let commit := commitOfEdge imports options edge in
  let candidate := head (associatedPullRequests edge) in
  let accepted := isSourcePullRequest candidate options (oid edge) in
  (accepted = true
   <-> exists node,
         candidate = Some node
         /\ mergeCommit_oid node = Some (oid edge)
         /\ repository_owner_login node = repoOwner options
         /\ repository_name node = repoName options)
  /\ (if accepted
      then pullNumber commit = number <$> candidate
      else pullNumber commit = getPullNumberFromMessage (node_message edge)
           /\ targetBranchesFromLabels commit = []
           /\ existingTargetPullRequests commit = [])
  /\ (forall n,
        getPullNumberFromMessage (node_message edge) = Some n ->
        exists pre ds,
          patternAt (node_message edge) pre ds
          /\ n = Js.parseDigits ds
          /\ forall pre' ds',
               patternAt (node_message edge) pre' ds' ->
               (String.length pre <= String.length pre')%nat)
  /\ (getPullNumberFromMessage (node_message edge) = None ->
      forall pre ds, ~ patternAt (node_message edge) pre ds).
Proof.
  cbv zeta. split; [apply isSourcePullRequest_true|]. split; [|split].
  - unfold commitOfEdge.
    destruct (isSourcePullRequest _ _ _) eqn:E; simpl.
    + destruct (head (associatedPullRequests edge)); [reflexivity|].
      discriminate.
    + repeat split.
  - unfold getPullNumberFromMessage. intros n.
    destruct (regexSearch (node_message edge)) as [ds|] eqn:E;
      [|discriminate].
    intros [= <-]. destruct (regexSearch_found _ _ E) as [pre [Hat Hleft]].
    exists pre, ds. auto.
  - unfold getPullNumberFromMessage.
    destruct (regexSearch (node_message edge)) eqn:E; [discriminate|].
    intros _ pre ds Hat. now apply regexSearch_complete in Hat.
Qed.

Lemma noCommitsText_all (options : BackportOptions BLM) :
  all options = true ->
  noCommitsText options
  = "There are no commits in this repository" +:+ pathMention options.
Proof.
  intros Hall. unfold noCommitsText, pathMention. rewrite Hall.
  now destruct (path options) as [[|c p]|].
Qed.

Lemma noCommitsText_author (options : BackportOptions BLM) (name : string) :
  all options = false -> author options = Some name ->
  noCommitsText options
  = "There are no commits by " +:+ Js.dq +:+ name +:+ Js.dq
      +:+ " in this repository" +:+ pathMention options
      +:+ ". Try with `--all` for commits by all users or `--author=<username>` for commits from a specific user".
Proof.
  intros Hall Hauthor. unfold noCommitsText, pathMention.
  rewrite Hall, Hauthor.
  now destruct (path options) as [[|c p]|].
Qed.

(** C8: when the history query yields zero commits, the operation
    fails with a handled error whose text depends on the mode.
    With an author filter the text names the author and suggests
    [--all] and [--author]; with "all" it is exactly "There are no
    commits in this repository" plus the path mention, so the
    suggestion is left out; in both modes the path filter is
    mentioned when one was given. *)
Theorem fetchCommitsByAuthor_no_commits
    (options : BackportOptions BLM) (authorId : option string)
    (w w1 w2 : W) :
  fetchAuthorId imports options w = (Resolved authorId, w1) ->
  apiRequestV4 imports (githubApiBaseUrlV4 options) (accessToken options)
    {| q_repoOwner := repoOwner options;
       q_repoName := repoName options;
       q_sourceBranch := sourceBranch options;
       q_maxNumber := maxNumber options;
       q_authorId := authorId;
       q_historyPath := truthy (path options) |} w1
  = (Resolved {| repository_ref := Some [] |}, w2) ->
  exists text,
    fetchCommitsByAuthor imports options w
    = (Rejected (newHandledError text), w2)
    /\ (all options = false ->
        forall name, author options = Some name ->
          Js.includes text ("by " +:+ Js.dq +:+ name +:+ Js.dq) = true
          /\ Js.includes text "Try with `--all`" = true
          /\ Js.includes text "or `--author=<username>`" = true)
    /\ (all options = true ->
        text = "There are no commits in this repository"
                 +:+ pathMention options)
    /\ (forall dir, path options = Some dir -> dir <> EmptyString ->
        Js.includes text
          ("touching files in path: " +:+ Js.dq +:+ dir +:+ Js.dq) = true).
Proof.
  intros Hauthor Hquery. exists (noCommitsText options).
  split; [|split; [|split]].
  - unfold fetchCommitsByAuthor, andThen. rewrite Hauthor, Hquery.
    reflexivity.
  - intros Hall name Hname.
    rewrite (noCommitsText_author options name Hall Hname).
    split; [|split].
    + eapply (JsFacts.includes_piece _ "There are no commits ").
      rewrite !JsFacts.append_assoc. reflexivity.
    + do 6 apply JsFacts.includes_skip. reflexivity.
    + do 6 apply JsFacts.includes_skip. reflexivity.
  - apply noCommitsText_all.
  - intros dir Hdir Hne.
    assert (Hmention :
              forall before rest,
                Js.includes (before +:+ pathMention options +:+ rest)
                  ("touching files in path: " +:+ Js.dq +:+ dir +:+ Js.dq)
                = true).
    { intros before rest. unfold pathMention. rewrite Hdir.
      destruct dir as [|c dir]; [now elim Hne|].
      eapply (JsFacts.includes_piece _ (before +:+ " ")).
      rewrite !JsFacts.append_assoc. reflexivity. }
    destruct (all options) eqn:Hall.
    + rewrite (noCommitsText_all options Hall).
      rewrite <- (JsFacts.append_empty (pathMention options)).
      apply Hmention.
    + destruct (author options) as [name|] eqn:Hname.
      * rewrite (noCommitsText_author options name Hall Hname).
        rewrite <- !JsFacts.append_assoc.
        rewrite (JsFacts.append_assoc _ (pathMention options)).
        apply Hmention.
      * unfold noCommitsText. rewrite Hall, Hname.
        replace (match truthy (path options) with
                 | Some p =>
                     " touching files in path: " +:+ Js.dq +:+ p +:+ Js.dq
                 | None => EmptyString
                 end) with (pathMention options)
          by (unfold pathMention; now destruct (path options) as [[|c p]|]).
        rewrite <- !JsFacts.append_assoc.
        rewrite (JsFacts.append_assoc _ (pathMention options)).
        apply Hmention.
Qed.

End Facts.

(** C2 as stated fails: the candidate pull request of the commit
    below is discarded (its repository has another owner), the
    message does not end with a [(#NNN)], and yet the commit gets the
    number 123 from the middle of the message. *)
Lemma fallback_number_not_trailing :
  isSourcePullRequest (head (associatedPullRequests Demo.revertEdge))
                      (Demo.options false) (oid Demo.revertEdge) = false
  /\ pullNumber (commitOfEdge Demo.resolverImports (Demo.options false)
                              Demo.revertEdge)
     <> trailingPullNumber (node_message Demo.revertEdge).
Proof. vm_compute. split; [reflexivity | discriminate]. Qed.

Lemma commitOfEdge_pull_request_witness :
  pullNumber (commitOfEdge Demo.resolverImports (Demo.options false)
                           Demo.revertEdge)
  = Some 123%N
  /\ exists pre ds,
       patternAt (node_message Demo.revertEdge) pre ds
       /\ 123%N = Js.parseDigits ds.
Proof.
  pose proof (commitOfEdge_pull_request Demo.resolverImports
                (Demo.options false) Demo.revertEdge) as [_ [Hnum [Hsome _]]].
  cbv zeta in Hnum, Hsome. split.
  - vm_compute. reflexivity.
  - destruct (Hsome 123%N) as [pre [ds [Hat [Hn _]]]].
    + vm_compute. reflexivity.
    + exists pre, ds. split; assumption.
Defined.

Lemma fetchCommitsByAuthor_no_commits_witness :
  exists text,
    fetchCommitsByAuthor Demo.resolverImports (Demo.optionsIn "src" false)
                         Demo.emptyHistory
    = (Rejected (newHandledError text), Demo.emptyHistory)
    /\ Js.includes text ("by " +:+ Js.dq +:+ "sqren" +:+ Js.dq) = true
    /\ Js.includes text "Try with `--all`" = true
    /\ Js.includes text
         ("touching files in path: " +:+ Js.dq +:+ "src" +:+ Js.dq) = true.
Proof.
  destruct (fetchCommitsByAuthor_no_commits Demo.resolverImports
              (Demo.optionsIn "src" false) (Some "sqren")
              Demo.emptyHistory Demo.emptyHistory Demo.emptyHistory
              eq_refl eq_refl)
    as [text [Hrun [Hauthor [_ Hpath]]]].
  exists text. split; [exact Hrun|].
  destruct (Hauthor eq_refl "sqren" eq_refl) as [Hname [Hall _]].
  split; [exact Hname|]. split; [exact Hall|].
  apply Hpath; [reflexivity | discriminate].
Defined.

End ResolverFacts.

(** ** The git service and repository setup *)
Module GitFacts.
Import Git Async.

Lemma perform_run {W C A} (c : C) (op : W -> Outcome A * W)
    (s : Session W C) (r : Outcome A) (w : W) :
  op (world s) = (r, w) ->
  perform c op s = (r, {| world := w; calls := calls s ++ [c] |}).
Proof. intros H. unfold perform. now rewrite H. Qed.


Section Facts.
Context {BLM X : Type} (imports : Platform BLM X).

(** The second test of [isBranchInvalid] looks for a capitalised
    needle in lower-cased text and never succeeds. *)
Lemma stderrIncludes_Invalid_refspec (e : JsError) :
  stderrIncludes e "Invalid refspec" = false.
Proof.
  unfold stderrIncludes. destruct (errStderr e) as [text|]; [|reflexivity].
  now apply JsFacts.lowered_excludes_capitalised.
Qed.

(** C9: a failure of the branch-setup command is turned into the
    handled error naming the branch only when its lower-cased
    stderr holds [couldn't find remote ref]; every other failure,
    one with an [Invalid refspec] signature included, is rethrown
    unchanged.  In both cases the command was run once. *)
Theorem createFeatureBranch_failure
    (options : BackportOptions BLM) (baseBranch featureBranch : string)
    (s : Session (Machine X) SystemCall) (e : JsError) (m : Machine X)
    (cmd : string) :
  cmd = "git reset --hard && git clean -d --force && git fetch "
        +:+ repoOwner options +:+ " " +:+ baseBranch
        +:+ " && git checkout -B " +:+ featureBranch +:+ " "
        +:+ repoOwner options +:+ "/" +:+ baseBranch +:+ " --no-track" ->
  exec imports cmd (getRepoPath imports options) (world s)
  = (Rejected e, m) ->
  createFeatureBranch imports options baseBranch featureBranch s
  = (Rejected
       (if stderrIncludes e "couldn't find remote ref"
        then newHandledError
               ("The branch " +:+ Js.dq +:+ baseBranch +:+ Js.dq
                  +:+ " is invalid or doesn't exist")
        else e),
     {| world := m;
        calls := calls s ++ [Exec cmd (getRepoPath imports options)] |}).
Proof.
  intros -> Hexec. unfold createFeatureBranch, catch.
  rewrite (perform_run _ _ _ _ _ Hexec).
  rewrite stderrIncludes_Invalid_refspec, orb_false_r.
  now destruct (stderrIncludes e "couldn't find remote ref").
Qed.


End Facts.

Lemma createFeatureBranch_failure_witness :
  createFeatureBranch (Demo.gitImports (Some Demo.refspecError) None)
                      (Demo.options false) "6.x^" "backport/6.x^/pr-1000"
                      Demo.freshMachine
  = (Rejected Demo.refspecError,
     {| world := world Demo.freshMachine;
        calls :=
          [Exec "git reset --hard && git clean -d --force && git fetch elastic 6.x^ && git checkout -B backport/6.x^/pr-1000 elastic/6.x^ --no-track"
                "/myHomeDir/.backport/repositories/elastic/kibana"] |})
  /\ errClass Demo.refspecError <> HandledError.
Proof.
  split; [|discriminate].
  exact (createFeatureBranch_failure
           (Demo.gitImports (Some Demo.refspecError) None)
           (Demo.options false) "6.x^" "backport/6.x^/pr-1000"
           Demo.freshMachine Demo.refspecError (world Demo.freshMachine)
           _ eq_refl eq_refl).
Defined.


(** With the tool started from the home directory, the folder lies
    inside the working directory: the partial clone is removed and
    the error of the clone is the one reported. *)
Lemma deleteRepo_inside_cwd :
  exists s2,
    maybeSetupRepo (Demo.gitImportsAt "/myHomeDir" None
                                      (Some Demo.networkDown))
                   (Demo.options false) Demo.freshMachine
    = (Rejected Demo.networkDown, s2)
    /\ fs (world s2) !! "/myHomeDir/.backport/repositories/elastic/kibana"
       = None
    /\ fs (world s2)
         !! "/myHomeDir/.backport/repositories/elastic/kibana/.git"
       = None
    /\ fs (world s2) !! "/myHomeDir/.backport/repositories/elastic"
       = Some Directory.
Proof.
  eexists. split; [vm_compute; reflexivity|].
  repeat split; vm_compute; reflexivity.
Qed.

End GitFacts.

(** ** The pipeline *)
Module CliFacts.
Import Steps Cli Async Runs.

Lemma countCalls_app (kind : Call -> bool) (tr1 tr2 : list Call) :
  countCalls kind (tr1 ++ tr2) = countCalls kind tr1 + countCalls kind tr2.
Proof. unfold countCalls. now rewrite filter_app, length_app. Qed.

Lemma countCalls_cons (kind : Call -> bool) (c : Call) (tr : list Call) :
  countCalls kind (c :: tr)
  = (if kind c then 1 else 0) + countCalls kind tr.
Proof.
  unfold countCalls. destruct (kind c) eqn:E.
  - now rewrite filter_cons_True.
  - rewrite filter_cons_False; [reflexivity|]. now rewrite E.
Qed.

Lemma countCalls_none (kind : Call -> bool) (tr : list Call) :
  Forall (fun c => kind c = false) tr -> countCalls kind tr = 0.
Proof.
  induction 1 as [|c tr Hc _ IH]; [reflexivity|].
  now rewrite countCalls_cons, Hc, IH.
Qed.

Lemma countCalls_picks (kind : Call -> bool) (owner repoName : string)
    (commits : list Commit) :
  (forall sha, kind (Cherrypick owner repoName sha) = false) ->
  countCalls kind (pickCalls owner repoName commits) = 0.
Proof.
  intros Hkind. apply countCalls_none. unfold pickCalls.
  apply Forall_map, Forall_forall. intros commit _. apply Hkind.
Qed.

Lemma countCalls_rounds (kind : Call -> bool) (owner repoName : string)
    (n : nat) :
  countCalls kind (concat (replicate n (roundCalls owner repoName)))
  = n * countCalls kind (roundCalls owner repoName).
Proof.
  induction n as [|n IH]; [reflexivity|].
  cbn [replicate concat]. rewrite countCalls_app, IH. lia.
Qed.

(** How often each kind of call occurs in a task with one
    conflict. *)
Lemma conflictRunCalls_counts (owner repoName version username : string)
    (labels : list string) (pre : list Commit) (c : Commit)
    (post : list Commit) (rounds : nat) (res : GithubIssue) :
  let tr := conflictRunCalls owner repoName version username labels
                             pre c post rounds res in
  countCalls isConfirmCall tr = rounds
  /\ countCalls isPushCall tr = 1
  /\ countCalls isCreatePullRequestCall tr = 1
  /\ countCalls isAddLabelsCall tr
     = match labels with [] => 0 | _ => 1 end.
Proof.
  cbv zeta. unfold conflictRunCalls.
  rewrite !countCalls_app, !countCalls_rounds.
  rewrite !countCalls_picks by reflexivity.
  unfold labelCalls, roundCalls. destruct labels as [|label labels];
    cbn [length Nat.ltb Nat.leb]; rewrite !countCalls_cons;
    unfold countCalls; rewrite !filter_nil;
    cbn [length isConfirmCall isPushCall isCreatePullRequestCall
                isAddLabelsCall];
    lia.
Qed.

Section Facts.
Context {W : Type} (lib : Libs W).

Abbreviation Run := (Promise (Session W Call)).
Abbreviation adding P p := (@adds W _ P p).

Lemma andThen_resolved {A B} (p : Run A) (f : A -> Run B)
    (s s' : Session W Call) (b : B) :
  andThen p f s = (Resolved b, s') ->
  exists a s1, p s = (Resolved a, s1) /\ f a s1 = (Resolved b, s').
Proof.
  unfold andThen. destruct (p s) as [[a|e|] s1]; try discriminate.
  intros H. now exists a, s1.
Qed.

Lemma withSpinner_resolved {A} (p : Run A) (text errorText : string)
    (s s' : Session W Call) (a : A) :
  withSpinner p text errorText s = (Resolved a, s') ->
  p s = (Resolved a, s').
Proof.
  unfold withSpinner, catch, andThen, resolve, reject.
  destruct (p s) as [[a0|e|] s1]; try discriminate. exact id.
Qed.

Lemma withSpinner_run {A} (p : Run A) (text errorText : string)
    (s : Session W Call) :
  withSpinner p text errorText s = p s.
Proof.
  unfold withSpinner, catch, andThen, resolve, reject.
  now destruct (p s) as [[a0|e|] s1].
Qed.

Lemma perform_inv {A} (c : Call) (op : W -> Outcome A * W)
    (s s' : Session W Call) (r : Outcome A) :
  perform c op s = (r, s') ->
  exists w,
    op (world s) = (r, w)
    /\ s' = {| world := w; calls := calls s ++ [c] |}.
Proof.
  unfold perform. destruct (op (world s)) as [r0 w].
  intros [= <- <-]. now exists w.
Qed.

Lemma adds_resolve P {A} (a : A) : adding P (resolve a).
Proof. intros s. exists []. simpl. now rewrite app_nil_r. Qed.

Lemma adds_reject P {A} (e : JsError) : adding P (@reject _ A e).
Proof. intros s. exists []. simpl. now rewrite app_nil_r. Qed.

Lemma adds_perform (P : Call -> Prop) {A} (c : Call)
    (op : W -> Outcome A * W) :
  P c -> adding P (perform c op).
Proof.
  intros Hc s. exists [c]. unfold perform.
  destruct (op (world s)) as [r w]. simpl. auto.
Qed.

Lemma adds_note (P : Call -> Prop) (c : Call) : P c -> adding P (note c).
Proof. intros Hc s. exists [c]. simpl. auto. Qed.

Lemma adds_andThen P {A B} (p : Run A) (f : A -> Run B) :
  adding P p -> (forall a, adding P (f a)) -> adding P (andThen p f).
Proof.
  intros Hp Hf s. unfold andThen.
  destruct (Hp s) as [tr1 [E1 F1]].
  destruct (p s) as [[a|e|] s1]; simpl in *; try (now exists tr1).
  destruct (Hf a s1) as [tr2 [E2 F2]].
  exists (tr1 ++ tr2). rewrite E2, E1, app_assoc. split; [reflexivity|].
  now apply Forall_app.
Qed.

Lemma adds_catch P {A} (p : Run A) (h : JsError -> Run A) :
  adding P p -> (forall e, adding P (h e)) -> adding P (catch p h).
Proof.
  intros Hp Hh s. unfold catch.
  destruct (Hp s) as [tr1 [E1 F1]].
  destruct (p s) as [[a|e|] s1]; simpl in *; try (now exists tr1).
  destruct (Hh e s1) as [tr2 [E2 F2]].
  exists (tr1 ++ tr2). rewrite E2, E1, app_assoc. split; [reflexivity|].
  now apply Forall_app.
Qed.

Lemma adds_withSpinner P {A} (p : Run A) (text errorText : string) :
  adding P p -> adding P (withSpinner p text errorText).
Proof.
  intros Hp. unfold withSpinner. apply adds_catch.
  - apply adds_andThen; [exact Hp|]. intros a. apply adds_resolve.
  - intros e. apply adds_reject.
Qed.

Lemma adds_sequentially P {A B} (items : list A) (handler : A -> Run B) :
  (forall item, adding P (handler item)) ->
  adding P (sequentially items handler).
Proof.
  intros Hh. unfold sequentially.
  assert (Hfold : forall p : Run (option B),
             adding P p ->
             adding P (fold_left
                       (fun p item =>
                          andThen p (fun _ =>
                            andThen (handler item)
                                    (fun b => resolve (Some b))))
                       items p)).
  { induction items as [|item items IH]; intros p Hp; simpl; [exact Hp|].
    apply IH. apply adds_andThen; [exact Hp|]. intros _.
    apply adds_andThen; [apply Hh|]. intros b. apply adds_resolve. }
  apply Hfold, adds_resolve.
Qed.

Lemma adds_promiseAll P {A} (ps : list (Run A)) :
  Forall (@adds W A P) ps -> adding P (promiseAll ps).
Proof.
  induction ps as [|p ps IH]; intros Hps; simpl.
  - apply adds_resolve.
  - inversion Hps as [|? ? Hp Hrest]; subst. intros s.
    destruct (Hp s) as [tr1 [E1 F1]].
    destruct (p s) as [r s1]. simpl in *.
    destruct (IH Hrest s1) as [tr2 [E2 F2]].
    destruct (promiseAll ps s1) as [rs s2]. simpl in *.
    exists (tr1 ++ tr2). rewrite E2, E1, app_assoc. split; [reflexivity|].
    now apply Forall_app.
Qed.

Lemma adds_confirmResolvedRecursive (fuel : nat) (owner repoName : string) :
  adding notCreate (confirmResolvedRecursive lib fuel owner repoName).
Proof.
  induction fuel as [|fuel IH]; simpl.
  - intros s. exists []. simpl. now rewrite app_nil_r.
  - apply adds_andThen.
    + apply adds_andThen; [now apply adds_perform|].
      intros _. now apply adds_perform.
    + intros [|]; [exact IH | apply adds_resolve].
Qed.

Lemma adds_cherrypickAndConfirm (fuel : nat) (owner repoName sha : string) :
  adding notCreate (cherrypickAndConfirm lib fuel owner repoName sha).
Proof.
  unfold cherrypickAndConfirm. apply adds_catch.
  - apply adds_withSpinner. now apply adds_perform.
  - intros e. destruct (isCherrypickConflict e) as [typeError|[|]].
    + apply adds_reject.
    + apply adds_confirmResolvedRecursive.
    + apply adds_reject.
Qed.

Lemma adds_withPullRequest (owner repoName : string)
    (commits : list Commit) :
  adding notCreate (withPullRequest lib owner repoName commits).
Proof.
  unfold withPullRequest. apply adds_promiseAll.
  apply Forall_map, Forall_forall. intros commit _.
  apply adds_andThen; [now apply adds_perform|].
  intros pr. apply adds_resolve.
Qed.

(** A task that resolves has created its pull request, once, as
    the last call but for the labels. *)
Lemma doBackportVersion_resolved
    (fuel : nat) (owner repoName : string) (commits : list Commit)
    (version username : string) (labels : list string)
    (s s' : Session W Call) (res : GithubIssue) :
  doBackportVersion lib fuel owner repoName commits version username
                    labels s
  = (Resolved res, s') ->
  exists before,
    Forall notCreate before
    /\ calls s'
       = calls s ++ before
         ++ CreatePullRequest owner repoName
              (getPullRequestPayload version commits username)
            :: labelCalls owner repoName res labels.
Proof.
  unfold doBackportVersion.
  set (pre := andThen (andThen (withSpinner _ _ _) _) _).
  assert (Hpre : adding notCreate pre).
  { subst pre. apply adds_andThen; [apply adds_andThen|].
    - apply adds_withSpinner, adds_andThen; [now apply adds_perform|].
      intros _. now apply adds_perform.
    - intros _. apply adds_sequentially. intros commit.
      apply adds_cherrypickAndConfirm.
    - intros _. apply adds_withSpinner. now apply adds_perform. }
  clearbody pre. intros H.
  apply andThen_resolved in H as [[] [sa [Hnote H]]].
  injection Hnote as <-.
  apply andThen_resolved in H as [v [sb [Hrun H]]].
  destruct (Hpre {| world := world s;
                    calls := calls s ++
                      [ConsoleLog
                         ("Backporting "
                            +:+ Js.join ", " (map getReferenceLong commits)
                            +:+ " to " +:+ version)] |})
    as [trB [EB FB]].
  rewrite Hrun in EB. cbn [snd calls] in EB.
  apply withSpinner_resolved in H.
  apply andThen_resolved in H as [created [sc [Hcreate H]]].
  apply perform_inv in Hcreate as [wc [_ ->]].
  exists (ConsoleLog
            ("Backporting "
               +:+ Js.join ", " (map getReferenceLong commits)
               +:+ " to " +:+ version) :: trB).
  split; [now constructor|].
  unfold labelCalls. destruct (0 <? length labels)%nat.
  - apply andThen_resolved in H as [[] [sd [Hlabels H]]].
    apply perform_inv in Hlabels as [wd [_ ->]].
    injection H as <- <-. cbn [calls]. rewrite EB.
    rewrite <- !app_assoc. reflexivity.
  - injection H as <- <-. cbn [calls]. rewrite EB.
    rewrite <- !app_assoc. reflexivity.
Qed.

Lemma adds_weaken (P Q : Call -> Prop) {A} (p : Run A) :
  (forall c, P c -> Q c) -> adding P p -> adds Q p.
Proof.
  intros HPQ Hp s. destruct (Hp s) as [tr [E F]]. exists tr.
  split; [exact E|]. eapply Forall_impl; eauto.
Qed.

Lemma handleErrors_resolves (e : JsError) (s : Session W Call) :
  (handleErrors lib e s).1 = Resolved tt
  /\ exists reported, calls (handleErrors lib e s).2 = calls s ++ reported.
Proof.
  unfold handleErrors. destruct (decide _); simpl.
  - split; [reflexivity|]. exists []. now rewrite app_nil_r.
  - split; [reflexivity|]. now exists [ConsoleError e].
Qed.

Lemma adds_versionTask (fuel : nat) (owner repoName : string)
    (commits : list Commit) (username : string) (labels : list string)
    (version : string) :
  adding (fun _ => True)
       (versionTask lib fuel owner repoName commits username labels
                    version).
Proof.
  unfold versionTask, doBackportVersion.
  apply adds_andThen; [apply adds_andThen|].
  - apply (adds_weaken notCreate); [auto|]. apply adds_withPullRequest.
  - intros cs. apply adds_andThen; [now apply adds_note|]. intros _.
    apply adds_andThen; [apply adds_andThen; [apply adds_andThen|]|].
    + apply adds_withSpinner, adds_andThen; [now apply adds_perform|].
      intros _. now apply adds_perform.
    + intros _. apply (adds_weaken notCreate); [auto|].
      apply adds_sequentially. intros commit.
      apply adds_cherrypickAndConfirm.
    + intros _. apply adds_withSpinner. now apply adds_perform.
    + intros _. apply adds_withSpinner, adds_andThen;
        [now apply adds_perform|].
      intros res. destruct (0 <? length labels)%nat;
        [|apply adds_resolve].
      apply adds_andThen; [now apply adds_perform|].
      intros _. apply adds_resolve.
  - intros res. now apply adds_note.
Qed.

(** C3: with two target branches, when the work for the first one
    fails and the work for the second one, started after the
    failure was handled, succeeds, the whole run resolves; the
    calls of the second task all follow those of the first, and
    among them is exactly one pull-request creation, for the
    second branch. *)
Theorem doBackportVersions_continues_after_failure
    (fuel : nat) (owner repoName : string) (commits : list Commit)
    (first second username : string) (labels : list string)
    (s s1 s2 : Session W Call) (e : JsError) :
  versionTask lib fuel owner repoName commits username labels first s
  = (Rejected e, s1) ->
  versionTask lib fuel owner repoName commits username labels second
              (handleErrors lib e s1).2
  = (Resolved tt, s2) ->
  doBackportVersions lib fuel owner repoName commits [first; second]
                     username labels s
  = (Resolved (Some tt), s2)
  /\ exists firstCalls reported secondCalls,
       calls s1 = calls s ++ firstCalls
       /\ calls (handleErrors lib e s1).2 = calls s1 ++ reported
       /\ calls s2 = calls s ++ firstCalls ++ reported ++ secondCalls
       /\ countCalls isCreatePullRequestCall secondCalls = 1
       /\ exists commitsWithPullRequest,
            In (CreatePullRequest owner repoName
                  (getPullRequestPayload second commitsWithPullRequest
                                         username))
               secondCalls.
Proof.
  intros Hfirst Hsecond.
  destruct (handleErrors_resolves e s1) as [Hhandled [reported Hreported]].
  split.
  - unfold doBackportVersions, sequentially. cbn [fold_left].
    unfold andThen at 1 2 3, resolve at 1, catch at 1. rewrite Hfirst.
    destruct (handleErrors lib e s1) as [r s1'] eqn:Eh.
    cbn [fst snd] in *. subst r.
    unfold resolve at 1. cbv beta iota.
    unfold andThen at 1, catch at 1. rewrite Hsecond. reflexivity.
  - destruct (adds_versionTask fuel owner repoName commits username labels
                first s) as [firstCalls [Efirst _]].
    rewrite Hfirst in Efirst. cbn [snd] in Efirst.
    exists firstCalls, reported.
    unfold versionTask in Hsecond.
    apply andThen_resolved in Hsecond as [res [sd [Hsecond Hlog]]].
    apply andThen_resolved in Hsecond as [cs [sc [Hlookup Hrun]]].
    destruct (adds_withPullRequest owner repoName commits
                (handleErrors lib e s1).2) as [lookups [Elook Flook]].
    rewrite Hlookup in Elook. cbn [snd] in Elook.
    apply doBackportVersion_resolved in Hrun as [before [Fbefore Erun]].
    injection Hlog as <-. cbn [calls].
    exists (lookups ++ before
              ++ CreatePullRequest owner repoName
                   (getPullRequestPayload second cs username)
                 :: labelCalls owner repoName res labels
              ++ [ConsoleLog ("View pull request: " +:+ html_url res
                                +:+ Js.nl)]).
    split; [exact Efirst|]. split; [exact Hreported|]. split; [|split].
    + rewrite Erun, Elook, Hreported, Efirst.
      rewrite <- !app_assoc. reflexivity.
    + rewrite !countCalls_app, countCalls_cons, countCalls_app.
      rewrite (countCalls_none _ lookups Flook).
      rewrite (countCalls_none _ before Fbefore).
      cbn [isCreatePullRequestCall].
      rewrite (countCalls_none _ (labelCalls _ _ _ _)).
      * reflexivity.
      * unfold labelCalls. destruct (0 <? length labels)%nat;
          repeat constructor.
    + exists cs. apply in_or_app. right. apply in_or_app. right.
      now left.
Qed.

(** *** Runs with one conflict *)

Lemma run_perform {A} (c : Call) (op : W -> Outcome A * W)
    (w w' : W) (tr : list Call) (r : Outcome A) :
  op w = (r, w') ->
  perform c op {| world := w; calls := tr |}
  = (r, {| world := w'; calls := tr ++ [c] |}).
Proof. intros H. unfold perform. cbn [world calls]. now rewrite H. Qed.

Lemma run_andThen {A B} (p : Run A) (f : A -> Run B)
    (s s1 : Session W Call) (a : A) :
  p s = (Resolved a, s1) -> andThen p f s = f a s1.
Proof. intros H. unfold andThen. now rewrite H. Qed.

(** One more item of [sequentially], the promise so far being
    settled. *)
Lemma run_fold {A B} (handler : A -> Run B) (items : list A)
    (p : Run (option B)) (s : Session W Call) :
  fold_left
    (fun p item =>
       andThen p (fun _ => andThen (handler item)
                                   (fun b => resolve (Some b))))
    items p s
  = match p s with
    | (Resolved v, s') =>
        fold_left
          (fun p item =>
             andThen p (fun _ => andThen (handler item)
                                         (fun b => resolve (Some b))))
          items (resolve v) s'
    | (Rejected e, s') => (Rejected e, s')
    | (Pending, s') => (Pending, s')
    end.
Proof.
  revert p s. induction items as [|item items IH]; intros p s.
  - cbn [fold_left]. unfold resolve. now destruct (p s) as [[v|e|] s'].
  - cbn [fold_left]. rewrite IH. unfold andThen at 1.
    destruct (p s) as [[v|e|] s']; try reflexivity.
    symmetry. rewrite IH. unfold andThen at 1, resolve at 1.
    reflexivity.
Qed.

Lemma run_sequentially_app {A B} (handler : A -> Run B)
    (xs ys : list A) (s s1 : Session W Call) (v : option B) :
  sequentially xs handler s = (Resolved v, s1) ->
  sequentially (xs ++ ys) handler s
  = fold_left
      (fun p item =>
         andThen p (fun _ => andThen (handler item)
                                     (fun b => resolve (Some b))))
      ys (resolve v) s1.
Proof.
  unfold sequentially. intros H. rewrite fold_left_app, run_fold.
  now rewrite H.
Qed.

Lemma run_clean_pick (fuel : nat) (owner repoName sha : string)
    (w w' : W) (tr : list Call) :
  cherrypick lib owner repoName sha w = (Resolved tt, w') ->
  cherrypickAndConfirm lib fuel owner repoName sha
                       {| world := w; calls := tr |}
  = (Resolved tt,
     {| world := w'; calls := tr ++ [Cherrypick owner repoName sha] |}).
Proof.
  intros H. unfold cherrypickAndConfirm, catch.
  rewrite withSpinner_run, (run_perform _ _ _ _ _ _ H). reflexivity.
Qed.

Lemma run_clean_picks (fuel : nat) (owner repoName : string)
    (commits : list Commit) (w w' : W) :
  picksCleanly lib owner repoName commits w w' ->
  forall (tr : list Call) (v : option unit),
  exists v',
    fold_left
      (fun p commit =>
         andThen p (fun _ =>
           andThen (cherrypickAndConfirm lib fuel owner repoName
                                         (sha commit))
                   (fun b => resolve (Some b))))
      commits (resolve v) {| world := w; calls := tr |}
    = (Resolved v',
       {| world := w';
          calls := tr ++ pickCalls owner repoName commits |}).
Proof.
  induction 1 as [w|c cs w w1 w2 Hpick _ IH]; intros tr v.
  - exists v. cbn. now rewrite app_nil_r.
  - cbn [fold_left]. rewrite run_fold.
    unfold andThen at 1, resolve at 1. cbv beta iota.
    unfold andThen at 1. rewrite (run_clean_pick _ _ _ _ _ _ _ Hpick).
    unfold resolve at 1. cbv beta iota.
    destruct (IH (tr ++ [Cherrypick owner repoName (sha c)]) (Some tt))
      as [v' Hrest].
    exists v'. rewrite Hrest. cbn [pickCalls map].
    now rewrite <- app_assoc.
Qed.

Lemma run_conflict_loop (fuel : nat) (owner repoName : string)
    (answers : list bool) (answer : bool) (w w1 w2 : W) :
  stillDirty lib owner repoName answers w w1 ->
  thenClean lib owner repoName answer w1 w2 ->
  length answers < fuel ->
  forall tr : list Call,
    confirmResolvedRecursive lib fuel owner repoName
                             {| world := w; calls := tr |}
    = (Resolved tt,
       {| world := w2;
          calls := tr ++ concat (replicate (S (length answers))
                                           (roundCalls owner repoName)) |}).
Proof.
  intros Hdirty. revert fuel.
  induction Hdirty as [w|a answers w wa wb wc Hask Hcheck _ IH];
    intros fuel [wa' [Hask' Hcheck']] Hfuel tr.
  - destruct fuel as [|fuel]; [cbn in Hfuel; lia|].
    cbn [confirmResolvedRecursive].
    rewrite (run_andThen _ _ _
               {| world := w2;
                  calls := (tr ++ [ConfirmConflictResolved])
                           ++ [IsIndexDirty owner repoName] |} false).
    + cbn. now rewrite <- app_assoc.
    + erewrite run_andThen; [|apply run_perform; exact Hask'].
      now rewrite (run_perform _ _ _ _ _ _ Hcheck').
  - destruct fuel as [|fuel]; [cbn in Hfuel; lia|].
    cbn [confirmResolvedRecursive].
    rewrite (run_andThen _ _ _
               {| world := wb;
                  calls := (tr ++ [ConfirmConflictResolved])
                           ++ [IsIndexDirty owner repoName] |} true).
    + rewrite IH; [|now exists wa'|cbn in Hfuel; lia].
      cbn [length replicate concat roundCalls].
      now rewrite <- !app_assoc.
    + erewrite run_andThen; [|apply run_perform; exact Hask].
      now rewrite (run_perform _ _ _ _ _ _ Hcheck).
Qed.

Lemma run_conflict_pick (fuel : nat) (owner repoName sha : string)
    (e : JsError) (w w' : W) (tr : list Call) :
  cherrypick lib owner repoName sha w = (Rejected e, w') ->
  isCherrypickConflict e = inr true ->
  cherrypickAndConfirm lib fuel owner repoName sha
                       {| world := w; calls := tr |}
  = confirmResolvedRecursive lib fuel owner repoName
      {| world := w'; calls := tr ++ [Cherrypick owner repoName sha] |}.
Proof.
  intros H Hconflict. unfold cherrypickAndConfirm, catch.
  rewrite withSpinner_run, (run_perform _ _ _ _ _ _ H).
  now rewrite Hconflict.
Qed.

Lemma run_picking_phase (fuel : nat) (owner repoName : string)
    (pre : list Commit) (c : Commit) (post : list Commit)
    (answers : list bool) (answer : bool) (e : JsError)
    (w2 w3 w4 w5 w6 w7 : W) (tr : list Call) :
  picksCleanly lib owner repoName pre w2 w3 ->
  cherrypick lib owner repoName (sha c) w3 = (Rejected e, w4) ->
  isCherrypickConflict e = inr true ->
  stillDirty lib owner repoName answers w4 w5 ->
  thenClean lib owner repoName answer w5 w6 ->
  picksCleanly lib owner repoName post w6 w7 ->
  length answers < fuel ->
  exists v,
    sequentially (pre ++ c :: post)
      (fun commit =>
         cherrypickAndConfirm lib fuel owner repoName (sha commit))
      {| world := w2; calls := tr |}
    = (Resolved v,
       {| world := w7;
          calls := tr ++ pickCalls owner repoName pre
                   ++ [Cherrypick owner repoName (sha c)]
                   ++ concat (replicate (S (length answers))
                                        (roundCalls owner repoName))
                   ++ pickCalls owner repoName post |}).
Proof.
  intros Hpre Hconflict Hcmd Hdirty Hclean Hpost Hfuel.
  destruct (run_clean_picks fuel owner repoName pre w2 w3 Hpre tr None)
    as [v1 Hrun1].
  rewrite (run_sequentially_app _ pre (c :: post) _ _ v1 Hrun1).
  cbn [fold_left]. rewrite run_fold.
  unfold andThen at 1, resolve at 1. cbv beta iota.
  unfold andThen at 1.
  rewrite (run_conflict_pick _ _ _ _ e _ w4 _ Hconflict Hcmd).
  rewrite (run_conflict_loop fuel owner repoName answers answer
             w4 w5 w6 Hdirty Hclean Hfuel).
  unfold resolve at 1. cbv beta iota.
  destruct (run_clean_picks fuel owner repoName post w6 w7 Hpost
              (((tr ++ pickCalls owner repoName pre)
                  ++ [Cherrypick owner repoName (sha c)])
                 ++ concat (replicate (S (length answers))
                                      (roundCalls owner repoName)))
              (Some tt))
    as [v Hrun2].
  exists v. rewrite Hrun2. now rewrite <- !app_assoc.
Qed.

(** A task with one conflict runs to the end and makes exactly the
    calls of [conflictRunCalls]. *)
Lemma run_conflict_task (fuel : nat)
    (owner repoName version username : string) (labels : list string)
    (pre : list Commit) (c : Commit) (post : list Commit)
    (answers : list bool) (answer : bool) (res : GithubIssue)
    (w0 wEnd : W) :
  conflictRun lib owner repoName version username labels pre c post
              answers answer res w0 wEnd ->
  length answers < fuel ->
  forall tr0 : list Call,
    doBackportVersion lib fuel owner repoName (pre ++ c :: post) version
                      username labels {| world := w0; calls := tr0 |}
    = (Resolved res,
       {| world := wEnd;
          calls := tr0 ++ conflictRunCalls owner repoName version username
                            labels pre c post (S (length answers)) res |}).
Proof.
  intros Hrun Hfuel tr0.
  destruct Hrun as [w0 w1 w2 w3 w4 w5 w6 w7 w8 w9 w10 e
                      Hreset Hbranch Hpre Hconflict Hcmd Hdirty Hclean
                      Hpost Hpush Hcreate Hlabels].
  unfold doBackportVersion.
  set (commits := pre ++ c :: post) in *.
  set (branch := getBackportBranchName version commits) in *.
  set (payload := getPullRequestPayload version commits username) in *.
  set (banner := ConsoleLog _).
  destruct (run_picking_phase fuel owner repoName pre c post answers
              answer e w2 w3 w4 w5 w6 w7
              (tr0 ++ [banner; ResetAndPullMaster owner repoName;
                       CreateAndCheckoutBranch owner repoName version
                                               branch])
              Hpre Hconflict Hcmd Hdirty Hclean Hpost Hfuel)
    as [v Hpicks].
  fold commits in Hpicks.
  rewrite (run_andThen _ _ _ {| world := w0; calls := tr0 ++ [banner] |}
                       tt) by reflexivity.
  set (picked := tr0 ++ [banner; ResetAndPullMaster owner repoName;
                         CreateAndCheckoutBranch owner repoName version
                                                 branch]) in *.
  assert (Hsetup :
            withSpinner
              (andThen
                 (perform (ResetAndPullMaster owner repoName)
                          (resetAndPullMaster lib owner repoName))
                 (fun _ =>
                    perform
                      (CreateAndCheckoutBranch owner repoName version
                                               branch)
                      (createAndCheckoutBranch lib owner repoName version
                                               branch)))
              "Pulling latest changes" EmptyString
              {| world := w0; calls := tr0 ++ [banner] |}
            = (Resolved tt, {| world := w2; calls := picked |})).
  { rewrite withSpinner_run.
    erewrite run_andThen; [|apply run_perform; exact Hreset].
    rewrite (run_perform _ _ _ _ _ _ Hbranch).
    subst picked. now rewrite <- !app_assoc. }
  set (afterPicks := picked ++ pickCalls owner repoName pre
                     ++ [Cherrypick owner repoName (sha c)]
                     ++ concat (replicate (S (length answers))
                                          (roundCalls owner repoName))
                     ++ pickCalls owner repoName post) in *.
  rewrite (run_andThen _ _ _
             {| world := w8;
                calls := afterPicks
                         ++ [Push owner repoName username branch] |} tt).
  2:{ rewrite (run_andThen _ _ _
                 {| world := w7; calls := afterPicks |} v).
      - rewrite withSpinner_run. now apply run_perform.
      - rewrite (run_andThen _ _ _ _ _ Hsetup). exact Hpicks. }
  rewrite withSpinner_run.
  erewrite run_andThen; [|apply run_perform; exact Hcreate].
  unfold conflictRunCalls, labelCalls.
  fold commits. fold branch. fold payload. fold banner.
  destruct labels as [|label labels].
  - cbn in Hlabels. subst w10. cbn [length Nat.ltb Nat.leb].
    unfold resolve. f_equal. f_equal.
    subst afterPicks picked. rewrite <- !app_assoc. reflexivity.
  - cbn in Hlabels. cbn [length Nat.ltb Nat.leb].
    erewrite run_andThen; [|apply run_perform; exact Hlabels].
    unfold resolve. f_equal. f_equal.
    subst afterPicks picked. rewrite <- !app_assoc. reflexivity.
Qed.

(** C5: in a task where one cherry-pick stops on a conflict, the
    user confirms [n] times with the index still dirty and once
    more with the index clean, and every other step succeeds, the
    loop prompts exactly [n + 1] times and the task resolves with
    the created pull request, after exactly one push, one
    pull-request creation and, when labels are configured, one
    labels call (none otherwise). *)
Theorem doBackportVersion_resumes_after_conflict
    (n fuel : nat) (owner repoName version username : string)
    (labels : list string) (pre : list Commit) (c : Commit)
    (post : list Commit) (res : GithubIssue) (w0 wEnd : W)
    (tr0 : list Call) :
  conflictRun lib owner repoName version username labels pre c post
              (replicate n true) true res w0 wEnd ->
  n < fuel ->
  exists tr,
    doBackportVersion lib fuel owner repoName (pre ++ c :: post) version
                      username labels {| world := w0; calls := tr0 |}
    = (Resolved res, {| world := wEnd; calls := tr0 ++ tr |})
    /\ countCalls isConfirmCall tr = S n
    /\ countCalls isPushCall tr = 1
    /\ countCalls isCreatePullRequestCall tr = 1
    /\ countCalls isAddLabelsCall tr
       = match labels with [] => 0 | _ => 1 end.
Proof.
  intros Hrun Hfuel.
  exists (conflictRunCalls owner repoName version username labels
                           pre c post (S n) res).
  split.
  - rewrite (run_conflict_task fuel owner repoName version username labels
               pre c post (replicate n true) true res w0 wEnd Hrun);
      rewrite length_replicate; [reflexivity | exact Hfuel].
  - apply conflictRunCalls_counts.
Qed.

(** C4: in a task where one cherry-pick stops on a conflict and
    the user then declines, the answer is not looked at: with the
    index clean and every other step succeeding, the task does not
    fail but resolves, after one push and one pull-request
    creation. *)
Theorem doBackportVersion_ignores_decline
    (fuel : nat) (owner repoName version username : string)
    (labels : list string) (pre : list Commit) (c : Commit)
    (post : list Commit) (res : GithubIssue) (w0 wEnd : W)
    (tr0 : list Call) :
  conflictRun lib owner repoName version username labels pre c post
              [] false res w0 wEnd ->
  0 < fuel ->
  exists tr,
    doBackportVersion lib fuel owner repoName (pre ++ c :: post) version
                      username labels {| world := w0; calls := tr0 |}
    = (Resolved res, {| world := wEnd; calls := tr0 ++ tr |})
    /\ countCalls isConfirmCall tr = 1
    /\ countCalls isPushCall tr = 1
    /\ countCalls isCreatePullRequestCall tr = 1.
Proof.
  intros Hrun Hfuel.
  exists (conflictRunCalls owner repoName version username labels
                           pre c post 1 res).
  split.
  - exact (run_conflict_task fuel owner repoName version username labels
             pre c post [] false res w0 wEnd Hrun Hfuel tr0).
  - destruct (conflictRunCalls_counts owner repoName version username
                labels pre c post 1 res) as [H1 [H2 [H3 _]]].
    auto.
Qed.

End Facts.

(** C5 on the collaborators of the tests: two confirmations with a
    dirty index, then a clean one. *)
Lemma doBackportVersion_resumes_after_conflict_witness :
  exists tr,
    doBackportVersion (Demo.libs "mySha" "none" true) 3 "elastic" "kibana"
                      [Demo.plainCommit] "6.x" "sqren" ["backport"]
                      (Demo.start 2)
    = (Resolved Demo.createdPullRequest, {| world := 0; calls := tr |})
    /\ countCalls isConfirmCall tr = 3
    /\ countCalls isCreatePullRequestCall tr = 1
    /\ countCalls isAddLabelsCall tr = 1.
Proof.
  destruct (doBackportVersion_resumes_after_conflict
              (Demo.libs "mySha" "none" true) 2 3 "elastic" "kibana" "6.x"
              "sqren" ["backport"] [] Demo.plainCommit []
              Demo.createdPullRequest 2 0 [])
    as [tr [Hrun [Hconfirm [_ [Hcreate Hlabels]]]]].
  - eapply (conflict_run _ _ _ _ _ _ _ _ _ _ _ _ 2 2 2 2 2 0 0 0 0 0 0);
      try reflexivity.
    + constructor.
    + eapply dirty_cons; [reflexivity | reflexivity |].
      eapply dirty_cons; [reflexivity | reflexivity |].
      constructor.
    + exists 0. split; reflexivity.
    + constructor.
  - lia.
  - exists tr. auto.
Defined.

(** C4 on the collaborators of the tests: the prompt answers no. *)
Lemma doBackportVersion_ignores_decline_witness :
  exists tr,
    doBackportVersion (Demo.libs "mySha" "none" false) 1 "elastic" "kibana"
                      [Demo.plainCommit] "6.x" "sqren" ["backport"]
                      (Demo.start 0)
    = (Resolved Demo.createdPullRequest, {| world := 0; calls := tr |})
    /\ countCalls isCreatePullRequestCall tr = 1.
Proof.
  destruct (doBackportVersion_ignores_decline
              (Demo.libs "mySha" "none" false) 1 "elastic" "kibana" "6.x"
              "sqren" ["backport"] [] Demo.plainCommit []
              Demo.createdPullRequest 0 0 [])
    as [tr [Hrun [_ [_ Hcreate]]]].
  - eapply (conflict_run _ _ _ _ _ _ _ _ _ _ _ _ 0 0 0 0 0 0 0 0 0 0 0);
      try reflexivity.
    + constructor.
    + constructor.
    + exists 0. split; reflexivity.
    + constructor.
  - lia.
  - exists tr. auto.
Defined.

(** C3 on the collaborators of the tests: [6.x] cannot be checked
    out, [6.1] can. *)
Lemma doBackportVersions_continues_after_failure_witness :
  exists s2,
    doBackportVersions (Demo.libs "none" "6.x" true) 1 "elastic" "kibana"
                       [Demo.plainCommit] ["6.x"; "6.1"] "sqren"
                       ["backport"] (Demo.start 0)
    = (Resolved (Some tt), s2)
    /\ countCalls isCreatePullRequestCall (calls s2) = 1.
Proof.
  pose (lib := Demo.libs "none" "6.x" true).
  pose (run1 := versionTask lib 1 "elastic" "kibana" [Demo.plainCommit]
                            "sqren" ["backport"] "6.x" (Demo.start 0)).
  pose (run2 := versionTask lib 1 "elastic" "kibana" [Demo.plainCommit]
                            "sqren" ["backport"] "6.1"
                            (handleErrors lib (Demo.invalidBranchError "6.x")
                                          run1.2).2).
  destruct (doBackportVersions_continues_after_failure
              lib 1 "elastic" "kibana" [Demo.plainCommit] "6.x" "6.1"
              "sqren" ["backport"] (Demo.start 0) run1.2 run2.2
              (Demo.invalidBranchError "6.x"))
    as [Hrun _].
  - vm_compute. reflexivity.
  - vm_compute. reflexivity.
  - exists run2.2. split; [exact Hrun|]. vm_compute. reflexivity.
Defined.

End CliFacts.

(** ** More on the pipeline *)
Module PipelineFacts.
Import Steps Cli Async Runs Traces.

Section Facts.
Context {W : Type} (lib : Libs W).

Abbreviation Job := (Promise (Session W Call)).

(** X1: [sequentially] stops at the first rejection: when the handlers
    of the items before [x] resolve and the handler of [x] rejects,
    the whole is rejected with that error in the state the failing
    handler left, so no handler of a later item runs. *)
Theorem sequentially_stops_at_rejection {A B} (handler : A -> Job B)
    (pre : list A) (x : A) (post : list A) (s s1 s2 : Session W Call)
    (v : option B) (e : JsError) :
  sequentially pre handler s = (Resolved v, s1) ->
  handler x s1 = (Rejected e, s2) ->
  sequentially (pre ++ x :: post) handler s = (Rejected e, s2).
Proof.
  intros Hpre Hx.
  rewrite (CliFacts.run_sequentially_app handler pre (x :: post) s s1 v Hpre).
  cbn [fold_left]. rewrite CliFacts.run_fold.
  unfold andThen at 1, resolve at 1. cbv beta iota.
  unfold andThen at 1. rewrite Hx. reflexivity.
Qed.



(** X3: a cherry-pick failure that is no conflict is rethrown
    unchanged, without any prompt. *)
Theorem cherrypickAndConfirm_rethrows_other_failures
    (fuel : nat) (owner repoName sha : string) (e : JsError) (w w' : W)
    (tr : list Call) :
  cherrypick lib owner repoName sha w = (Rejected e, w') ->
  isCherrypickConflict e = inr false ->
  cherrypickAndConfirm lib fuel owner repoName sha
                       {| world := w; calls := tr |}
  = (Rejected e,
     {| world := w'; calls := tr ++ [Cherrypick owner repoName sha] |}).
Proof.
  intros Hpick Hother. unfold cherrypickAndConfirm, catch.
  rewrite CliFacts.withSpinner_run, (CliFacts.run_perform _ _ _ _ _ _ Hpick).
  now rewrite Hother.
Qed.

(** X4: a cherry-pick failure whose error has no [cmd] is not
    rethrown: the test for a conflict throws, and the task sees a
    [TypeError] in place of the original error. *)
Theorem cherrypickAndConfirm_masks_error_without_cmd
    (fuel : nat) (owner repoName sha : string) (e : JsError) (w w' : W)
    (tr : list Call) :
  cherrypick lib owner repoName sha w = (Rejected e, w') ->
  errCmd e = None ->
  exists thrown,
    cherrypickAndConfirm lib fuel owner repoName sha
                         {| world := w; calls := tr |}
    = (Rejected thrown,
       {| world := w'; calls := tr ++ [Cherrypick owner repoName sha] |})
    /\ errClass thrown = TypeError
    /\ errCmd thrown = None.
Proof.
  intros Hpick Hcmd.
  exists (newTypeError "Cannot read property 'includes' of undefined").
  split; [|split; reflexivity].
  unfold cherrypickAndConfirm, catch.
  rewrite CliFacts.withSpinner_run, (CliFacts.run_perform _ _ _ _ _ _ Hpick).
  unfold isCherrypickConflict. now rewrite Hcmd.
Qed.

End Facts.

Lemma sequentially_stops_at_rejection_witness :
  sequentially ["a"; "mySha"; "b"]
    (cherrypickAndConfirm
       (Scenarios.failing "mySha" Scenarios.diskFull None) 1
       "elastic" "kibana")
    Scenarios.begin
  = (Rejected Scenarios.diskFull,
     {| world := tt;
        calls := [Cherrypick "elastic" "kibana" "a";
                  Cherrypick "elastic" "kibana" "mySha"] |}).
Proof.
  apply (sequentially_stops_at_rejection
           (cherrypickAndConfirm
              (Scenarios.failing "mySha" Scenarios.diskFull None) 1
              "elastic" "kibana")
           ["a"] "mySha" ["b"] Scenarios.begin
           {| world := tt; calls := [Cherrypick "elastic" "kibana" "a"] |}
           _ (Some tt)); reflexivity.
Defined.

Lemma cherrypickAndConfirm_rethrows_other_failures_witness :
  cherrypickAndConfirm (Scenarios.failing "mySha" Scenarios.diskFull None) 1
                       "elastic" "kibana" "mySha" Scenarios.begin
  = (Rejected Scenarios.diskFull,
     {| world := tt; calls := [Cherrypick "elastic" "kibana" "mySha"] |}).
Proof.
  apply (cherrypickAndConfirm_rethrows_other_failures
           (Scenarios.failing "mySha" Scenarios.diskFull None) 1
           "elastic" "kibana" "mySha" Scenarios.diskFull tt tt []);
    reflexivity.
Defined.

Lemma cherrypickAndConfirm_masks_error_without_cmd_witness :
  exists thrown,
    cherrypickAndConfirm (Scenarios.failing "mySha" Scenarios.bareError None)
                         1 "elastic" "kibana" "mySha" Scenarios.begin
    = (Rejected thrown,
       {| world := tt; calls := [Cherrypick "elastic" "kibana" "mySha"] |})
    /\ errClass thrown = TypeError
    /\ errCmd thrown = None.
Proof.
  apply (cherrypickAndConfirm_masks_error_without_cmd
           (Scenarios.failing "mySha" Scenarios.bareError None) 1
           "elastic" "kibana" "mySha" Scenarios.bareError tt tt []);
    reflexivity.
Defined.

Section Tasks.
Context {W : Type} (lib : Libs W).

Lemma run_rejected {A B} (p : Promise (Session W Call) A)
    (f : A -> Promise (Session W Call) B) (s s1 : Session W Call)
    (e : JsError) :
  p s = (Rejected e, s1) -> andThen p f s = (Rejected e, s1).
Proof. intros H. unfold andThen. now rewrite H. Qed.

Lemma run_pending {A B} (p : Promise (Session W Call) A)
    (f : A -> Promise (Session W Call) B) (s s1 : Session W Call) :
  p s = (Pending, s1) -> andThen p f s = (Pending, s1).
Proof. intros H. unfold andThen. now rewrite H. Qed.

(** The two commands of the branch setup, the second one ending as
    [r]. *)
Lemma run_branch_setup (owner repoName version branch : string)
    (text errorText : string) (w0 w1 w2 : W) (tr : list Call)
    (r : Outcome unit) :
  resetAndPullMaster lib owner repoName w0 = (Resolved tt, w1) ->
  createAndCheckoutBranch lib owner repoName version branch w1 = (r, w2) ->
  withSpinner
    (andThen
       (perform (ResetAndPullMaster owner repoName)
                (resetAndPullMaster lib owner repoName))
       (fun _ =>
          perform (CreateAndCheckoutBranch owner repoName version branch)
                  (createAndCheckoutBranch lib owner repoName version branch)))
    text errorText {| world := w0; calls := tr |}
  = (r, {| world := w2;
           calls := tr ++ [ResetAndPullMaster owner repoName;
                           CreateAndCheckoutBranch owner repoName version
                                                   branch] |}).
Proof.
  intros Hreset Hbranch. rewrite CliFacts.withSpinner_run.
  erewrite CliFacts.run_andThen; [|apply CliFacts.run_perform; exact Hreset].
  rewrite (CliFacts.run_perform _ _ _ _ _ _ Hbranch).
  now rewrite <- app_assoc.
Qed.

(** X5: when the checkout of the target branch fails, the task is
    rejected with that error after the two setup commands: nothing is
    cherry-picked, pushed or created. *)
Theorem doBackportVersion_stops_at_branch_setup
    (fuel : nat) (owner repoName version username : string)
    (labels : list string) (commits : list Commit) (e : JsError)
    (w0 w1 w2 : W) (tr : list Call) :
  resetAndPullMaster lib owner repoName w0 = (Resolved tt, w1) ->
  createAndCheckoutBranch lib owner repoName version
    (getBackportBranchName version commits) w1
  = (Rejected e, w2) ->
  doBackportVersion lib fuel owner repoName commits version username labels
                    {| world := w0; calls := tr |}
  = (Rejected e,
     {| world := w2;
        calls := tr ++ [banner commits version;
                        ResetAndPullMaster owner repoName;
                        CreateAndCheckoutBranch owner repoName version
                          (getBackportBranchName version commits)] |}).
Proof.
  intros Hreset Hbranch. unfold doBackportVersion.
  rewrite (CliFacts.run_andThen _ _ _
             {| world := w0; calls := tr ++ [banner commits version] |} tt)
    by reflexivity.
  do 3 apply run_rejected.
  rewrite (run_branch_setup _ _ _ _ _ _ _ _ _ _ _ Hreset Hbranch).
  now rewrite <- app_assoc.
Qed.


(** The steps of a task up to and including the push, when every
    one of them succeeds. *)
Lemma run_until_push
    (fuel : nat) (owner repoName version username : string)
    (commits : list Commit) (w0 w1 w2 w3 w4 : W) (tr : list Call) :
  resetAndPullMaster lib owner repoName w0 = (Resolved tt, w1) ->
  createAndCheckoutBranch lib owner repoName version
    (getBackportBranchName version commits) w1
  = (Resolved tt, w2) ->
  picksCleanly lib owner repoName commits w2 w3 ->
  push lib owner repoName username
       (getBackportBranchName version commits) w3
  = (Resolved tt, w4) ->
  andThen
    (andThen
       (withSpinner
          (andThen
             (perform (ResetAndPullMaster owner repoName)
                      (resetAndPullMaster lib owner repoName))
             (fun _ =>
                perform
                  (CreateAndCheckoutBranch owner repoName version
                     (getBackportBranchName version commits))
                  (createAndCheckoutBranch lib owner repoName version
                     (getBackportBranchName version commits))))
          "Pulling latest changes" EmptyString)
       (fun _ =>
          sequentially commits
            (fun commit =>
               cherrypickAndConfirm lib fuel owner repoName (sha commit))))
    (fun _ =>
       withSpinner
         (perform (Push owner repoName username
                        (getBackportBranchName version commits))
                  (push lib owner repoName username
                        (getBackportBranchName version commits)))
         ("Pushing branch " +:+ username +:+ ":"
            +:+ getBackportBranchName version commits)
         EmptyString)
    {| world := w0; calls := tr |}
  = (Resolved tt,
     {| world := w4;
        calls := tr ++ [ResetAndPullMaster owner repoName;
                        CreateAndCheckoutBranch owner repoName version
                          (getBackportBranchName version commits)]
                 ++ pickCalls owner repoName commits
                 ++ [Push owner repoName username
                          (getBackportBranchName version commits)] |}).
Proof.
  intros Hreset Hbranch Hpicks Hpush.
  destruct (CliFacts.run_clean_picks lib fuel owner repoName commits w2 w3
              Hpicks
              (tr ++ [ResetAndPullMaster owner repoName;
                      CreateAndCheckoutBranch owner repoName version
                        (getBackportBranchName version commits)])
              None) as [v Hrun].
  erewrite CliFacts.run_andThen.
  2:{ erewrite CliFacts.run_andThen;
        [|exact (run_branch_setup _ _ _ _ _ _ _ _ _ _ _ Hreset Hbranch)].
      exact Hrun. }
  rewrite CliFacts.withSpinner_run.
  rewrite (CliFacts.run_perform _ _ _ _ _ _ Hpush).
  now rewrite <- !app_assoc.
Qed.

(** X27: a task in which every step succeeds resolves with the
    created pull request after exactly these calls, in this order: the
    banner, the two setup commands, one cherry-pick per commit, the
    push, the creation of the pull request and, when labels are
    configured, the labels call.  No prompt is shown.  This holds for
    any list of commits, the empty one included. *)
Theorem doBackportVersion_clean_run
    (fuel : nat) (owner repoName version username : string)
    (labels : list string) (commits : list Commit) (res : GithubIssue)
    (w0 w1 w2 w3 w4 w5 w6 : W) (tr : list Call) :
  resetAndPullMaster lib owner repoName w0 = (Resolved tt, w1) ->
  createAndCheckoutBranch lib owner repoName version
    (getBackportBranchName version commits) w1
  = (Resolved tt, w2) ->
  picksCleanly lib owner repoName commits w2 w3 ->
  push lib owner repoName username
       (getBackportBranchName version commits) w3
  = (Resolved tt, w4) ->
  createPullRequest lib owner repoName
    (getPullRequestPayload version commits username) w4
  = (Resolved res, w5) ->
  labelsApplied lib owner repoName (number res) labels w5 w6 ->
  doBackportVersion lib fuel owner repoName commits version username labels
                    {| world := w0; calls := tr |}
  = (Resolved res,
     {| world := w6;
        calls := tr ++ [banner commits version;
                        ResetAndPullMaster owner repoName;
                        CreateAndCheckoutBranch owner repoName version
                          (getBackportBranchName version commits)]
                 ++ pickCalls owner repoName commits
                 ++ [Push owner repoName username
                          (getBackportBranchName version commits);
                     CreatePullRequest owner repoName
                       (getPullRequestPayload version commits username)]
                 ++ labelCalls owner repoName res labels |}).
Proof.
  intros Hreset Hbranch Hpicks Hpush Hcreate Hlabels.
  unfold doBackportVersion.
  rewrite (CliFacts.run_andThen _ _ _
             {| world := w0; calls := tr ++ [banner commits version] |} tt)
    by reflexivity.
  erewrite CliFacts.run_andThen;
    [|exact (run_until_push fuel _ _ _ _ _ _ _ _ _ _ _
               Hreset Hbranch Hpicks Hpush)].
  rewrite CliFacts.withSpinner_run.
  erewrite CliFacts.run_andThen; [|apply CliFacts.run_perform; exact Hcreate].
  unfold labelCalls.
  destruct labels as [|label labels]; cbn in Hlabels;
    cbn [length Nat.ltb Nat.leb].
  - subst w6. unfold resolve. f_equal. f_equal.
    rewrite <- !app_assoc. reflexivity.
  - erewrite CliFacts.run_andThen;
      [|apply CliFacts.run_perform; exact Hlabels].
    unfold resolve. f_equal. f_equal.
    rewrite <- !app_assoc. reflexivity.
Qed.

(** X28: when the labels call fails, the task is rejected with its
    error although the branch has been pushed and the pull request has
    been created: the created pull request is not returned. *)
Theorem doBackportVersion_rejected_after_creation
    (fuel : nat) (owner repoName version username : string)
    (labels : list string) (commits : list Commit) (res : GithubIssue)
    (e : JsError) (w0 w1 w2 w3 w4 w5 w6 : W) (tr : list Call) :
  resetAndPullMaster lib owner repoName w0 = (Resolved tt, w1) ->
  createAndCheckoutBranch lib owner repoName version
    (getBackportBranchName version commits) w1
  = (Resolved tt, w2) ->
  picksCleanly lib owner repoName commits w2 w3 ->
  push lib owner repoName username
       (getBackportBranchName version commits) w3
  = (Resolved tt, w4) ->
  createPullRequest lib owner repoName
    (getPullRequestPayload version commits username) w4
  = (Resolved res, w5) ->
  labels <> [] ->
  addLabels lib owner repoName (number res) labels w5 = (Rejected e, w6) ->
  doBackportVersion lib fuel owner repoName commits version username labels
                    {| world := w0; calls := tr |}
  = (Rejected e,
     {| world := w6;
        calls := tr ++ [banner commits version;
                        ResetAndPullMaster owner repoName;
                        CreateAndCheckoutBranch owner repoName version
                          (getBackportBranchName version commits)]
                 ++ pickCalls owner repoName commits
                 ++ [Push owner repoName username
                          (getBackportBranchName version commits);
                     CreatePullRequest owner repoName
                       (getPullRequestPayload version commits username);
                     AddLabels owner repoName (number res) labels] |}).
Proof.
  intros Hreset Hbranch Hpicks Hpush Hcreate Hsome Hlabels.
  unfold doBackportVersion.
  rewrite (CliFacts.run_andThen _ _ _
             {| world := w0; calls := tr ++ [banner commits version] |} tt)
    by reflexivity.
  erewrite CliFacts.run_andThen;
    [|exact (run_until_push fuel _ _ _ _ _ _ _ _ _ _ _
               Hreset Hbranch Hpicks Hpush)].
  rewrite CliFacts.withSpinner_run.
  erewrite CliFacts.run_andThen; [|apply CliFacts.run_perform; exact Hcreate].
  destruct labels as [|label labels]; [contradiction|].
  cbn [length Nat.ltb Nat.leb].
  erewrite run_rejected; [|apply CliFacts.run_perform; exact Hlabels].
  f_equal. f_equal. rewrite <- !app_assoc. reflexivity.
Qed.

End Tasks.

Section Order.
Context {W : Type} (lib : Libs W).

Lemma local_confirmResolvedRecursive (fuel : nat) (owner repoName : string) :
  adds isLocalCall (confirmResolvedRecursive lib fuel owner repoName).
Proof.
  induction fuel as [|fuel IH]; cbn [confirmResolvedRecursive].
  - intros s. exists []. cbn. now rewrite app_nil_r.
  - apply CliFacts.adds_andThen.
    + apply CliFacts.adds_andThen.
      * apply CliFacts.adds_perform. now repeat split.
      * intros _. apply CliFacts.adds_perform. now repeat split.
    + intros [|]; [exact IH | apply CliFacts.adds_resolve].
Qed.

Lemma local_picks (fuel : nat) (owner repoName : string)
    (commits : list Commit) :
  adds isLocalCall
       (sequentially commits
          (fun commit =>
             cherrypickAndConfirm lib fuel owner repoName (sha commit))).
Proof.
  apply CliFacts.adds_sequentially. intros commit.
  unfold cherrypickAndConfirm. apply CliFacts.adds_catch.
  - apply CliFacts.adds_withSpinner, CliFacts.adds_perform.
    now repeat split.
  - intros e. destruct (isCherrypickConflict e) as [typeError|[|]].
    + apply CliFacts.adds_reject.
    + apply local_confirmResolvedRecursive.
    + apply CliFacts.adds_reject.
Qed.

(** X7: in every run of a task, whatever its outcome, the calls that
    publish come last and in order: the push, made at most once, then
    the creation of the pull request, made only after the push, then
    the labels call, made only after the creation and only when labels
    are configured. *)
Theorem doBackportVersion_publishes_in_order
    (fuel : nat) (owner repoName : string) (commits : list Commit)
    (version username : string) (labels : list string)
    (s : Session W Call) :
  let branch := getBackportBranchName version commits in
  let payload := getPullRequestPayload version commits username in
  exists before published,
    calls (doBackportVersion lib fuel owner repoName commits version
                             username labels s).2
    = calls s ++ before ++ published
    /\ Forall isLocalCall before
    /\ (published = []
        \/ published = [Push owner repoName username branch]
        \/ published = [Push owner repoName username branch;
                        CreatePullRequest owner repoName payload]
        \/ exists number,
             labels <> []
             /\ published = [Push owner repoName username branch;
                             CreatePullRequest owner repoName payload;
                             AddLabels owner repoName number labels]).
Proof.
  cbv zeta. unfold doBackportVersion.
  set (branch := getBackportBranchName version commits).
  set (payload := getPullRequestPayload version commits username).
  set (localPhase := andThen (withSpinner _ _ _) _).
  set (createPhase := fun _ : unit => withSpinner _ _ _).
  assert (Hlocal : adds isLocalCall localPhase).
  { subst localPhase. apply CliFacts.adds_andThen.
    - apply CliFacts.adds_withSpinner, CliFacts.adds_andThen.
      + apply CliFacts.adds_perform. now repeat split.
      + intros _. apply CliFacts.adds_perform. now repeat split.
    - intros _. apply local_picks. }
  assert (Hcreate :
            forall s1 : Session W Call,
            exists after,
              calls (createPhase tt s1).2
              = calls s1 ++ CreatePullRequest owner repoName payload :: after
              /\ (after = []
                  \/ exists number,
                       labels <> []
                       /\ after = [AddLabels owner repoName number labels])).
  { intros s1. subst createPhase. cbv beta.
    rewrite CliFacts.withSpinner_run. unfold andThen at 1, perform at 1.
    destruct (createPullRequest lib owner repoName payload (world s1))
      as [[res|e|] w2]; cbv beta iota.
    - destruct labels as [|label labels']; cbn [length Nat.ltb Nat.leb].
      + exists []. split; [reflexivity | now left].
      + unfold andThen, perform, resolve. cbn [world calls].
        destruct (addLabels lib owner repoName (number res)
                            (label :: labels') w2) as [[[]|e|] w3];
          cbv beta iota; cbn [snd calls];
          (exists [AddLabels owner repoName (number res) (label :: labels')];
           split; [now rewrite <- app_assoc|];
           right; exists (number res); split; [discriminate | reflexivity]).
    - exists []. split; [reflexivity | now left].
    - exists []. split; [reflexivity | now left]. }
  clearbody localPhase createPhase.
  rewrite (CliFacts.run_andThen _ _ _
             {| world := world s; calls := calls s ++ [banner commits version] |}
             tt) by reflexivity.
  destruct (Hlocal {| world := world s;
                      calls := calls s ++ [banner commits version] |})
    as [tr1 [E1 F1]].
  cbn [calls] in E1.
  assert (Fbefore : Forall isLocalCall (banner commits version :: tr1)).
  { constructor; [now repeat split | exact F1]. }
  unfold andThen at 1 2.
  destruct (localPhase _) as [[v|e|] s1]; cbn [snd] in E1; cbv beta iota.
  - rewrite CliFacts.withSpinner_run. unfold perform at 1.
    destruct (push lib owner repoName username branch (world s1))
      as [[[]|e|] w2]; cbv beta iota.
    + match goal with
      | |- context [createPhase tt ?s2] =>
          destruct (Hcreate s2) as [after [E2 Hafter]];
          destruct (createPhase tt s2) as [r s3]
      end.
      cbn [snd calls] in *.
      exists (banner commits version :: tr1),
             (Push owner repoName username branch
                :: CreatePullRequest owner repoName payload :: after).
      split; [|split; [exact Fbefore|]].
      * rewrite E2, E1. rewrite <- !app_assoc. reflexivity.
      * destruct Hafter as [->|[number [Hne ->]]].
        -- right. right. now left.
        -- right. right. right. now exists number.
    + exists (banner commits version :: tr1),
             [Push owner repoName username branch].
      cbn [snd calls]. split; [|split; [exact Fbefore|]].
      * rewrite E1. rewrite <- !app_assoc. reflexivity.
      * right. now left.
    + exists (banner commits version :: tr1),
             [Push owner repoName username branch].
      cbn [snd calls]. split; [|split; [exact Fbefore|]].
      * rewrite E1. rewrite <- !app_assoc. reflexivity.
      * right. now left.
  - exists (banner commits version :: tr1), []. cbn [snd].
    split; [|split; [exact Fbefore | now left]].
    rewrite E1, app_nil_r. rewrite <- !app_assoc. reflexivity.
  - exists (banner commits version :: tr1), []. cbn [snd].
    split; [|split; [exact Fbefore | now left]].
    rewrite E1, app_nil_r. rewrite <- !app_assoc. reflexivity.
Qed.

(** X8: the conflict loop has no bound of its own.  From a world in
    which every prompt is answered and every index check finds the
    index dirty, the loop has not settled after any number [n] of
    prompts. *)
Theorem confirmResolvedRecursive_never_settles_while_dirty
    (stays : W -> Prop) (owner repoName : string) :
  (forall w,
     stays w ->
     exists answer w1 w2,
       confirmConflictResolved lib w = (Resolved answer, w1)
       /\ isIndexDirty lib owner repoName w1 = (Resolved true, w2)
       /\ stays w2) ->
  forall (n : nat) (w : W) (tr : list Call),
    stays w ->
    exists w',
      confirmResolvedRecursive lib n owner repoName
                               {| world := w; calls := tr |}
      = (Pending,
         {| world := w';
            calls := tr ++ concat (replicate n (roundCalls owner repoName)) |}).
Proof.
  intros Hstays n. induction n as [|n IH]; intros w tr Hw.
  - exists w. cbn. now rewrite app_nil_r.
  - destruct (Hstays w Hw) as [answer [w1 [w2 [Hask [Hdirty Hw2]]]]].
    destruct (IH w2 ((tr ++ [ConfirmConflictResolved])
                       ++ [IsIndexDirty owner repoName]) Hw2)
      as [w' Hrest].
    exists w'. cbn [confirmResolvedRecursive].
    rewrite (CliFacts.run_andThen _ _ _
               {| world := w2;
                  calls := (tr ++ [ConfirmConflictResolved])
                           ++ [IsIndexDirty owner repoName] |} true).
    + rewrite Hrest. cbn [replicate concat roundCalls].
      now rewrite <- !app_assoc.
    + erewrite CliFacts.run_andThen;
        [|apply CliFacts.run_perform; exact Hask].
      now rewrite (CliFacts.run_perform _ _ _ _ _ _ Hdirty).
Qed.

(** X9: when the prompt itself fails after a conflict (the user
    interrupts it), the task is rejected with the prompt's error: the
    index is not checked, no further commit is picked and nothing is
    pushed or created. *)
Theorem doBackportVersion_stops_at_failed_prompt
    (fuel : nat) (owner repoName version username : string)
    (labels : list string) (pre : list Commit) (c : Commit)
    (post : list Commit) (conflict e : JsError) (w0 w1 w2 w3 w4 w5 : W)
    (tr : list Call) :
  resetAndPullMaster lib owner repoName w0 = (Resolved tt, w1) ->
  createAndCheckoutBranch lib owner repoName version
    (getBackportBranchName version (pre ++ c :: post)) w1
  = (Resolved tt, w2) ->
  picksCleanly lib owner repoName pre w2 w3 ->
  cherrypick lib owner repoName (sha c) w3 = (Rejected conflict, w4) ->
  isCherrypickConflict conflict = inr true ->
  confirmConflictResolved lib w4 = (Rejected e, w5) ->
  0 < fuel ->
  doBackportVersion lib fuel owner repoName (pre ++ c :: post) version
                    username labels {| world := w0; calls := tr |}
  = (Rejected e,
     {| world := w5;
        calls := tr ++ [banner (pre ++ c :: post) version;
                        ResetAndPullMaster owner repoName;
                        CreateAndCheckoutBranch owner repoName version
                          (getBackportBranchName version (pre ++ c :: post))]
                 ++ pickCalls owner repoName pre
                 ++ [Cherrypick owner repoName (sha c);
                     ConfirmConflictResolved] |}).
Proof.
  intros Hreset Hbranch Hpre Hpick Hconflict Hprompt Hfuel.
  destruct fuel as [|fuel]; [lia|].
  unfold doBackportVersion.
  set (commits := pre ++ c :: post) in *.
  rewrite (CliFacts.run_andThen _ _ _
             {| world := w0; calls := tr ++ [banner commits version] |} tt)
    by reflexivity.
  do 2 apply run_rejected.
  erewrite CliFacts.run_andThen;
    [|exact (run_branch_setup lib _ _ _ _ _ _ _ _ _ _ _ Hreset Hbranch)].
  destruct (CliFacts.run_clean_picks lib (S fuel) owner repoName pre w2 w3
              Hpre
              ((tr ++ [banner commits version])
                 ++ [ResetAndPullMaster owner repoName;
                     CreateAndCheckoutBranch owner repoName version
                       (getBackportBranchName version commits)])
              None) as [v Hrun].
  subst commits.
  rewrite (CliFacts.run_sequentially_app _ pre (c :: post) _ _ v Hrun).
  cbn [fold_left]. rewrite CliFacts.run_fold.
  unfold andThen at 1, resolve at 1. cbv beta iota.
  unfold andThen at 1.
  rewrite (CliFacts.run_conflict_pick lib _ _ _ _ conflict _ w4 _
             Hpick Hconflict).
  cbn [confirmResolvedRecursive].
  rewrite (run_rejected _ _ _
             {| world := w5;
                calls := ((((tr ++ [banner (pre ++ c :: post) version])
                              ++ [ResetAndPullMaster owner repoName;
                                  CreateAndCheckoutBranch owner repoName
                                    version
                                    (getBackportBranchName version
                                       (pre ++ c :: post))])
                             ++ pickCalls owner repoName pre)
                            ++ [Cherrypick owner repoName (sha c)])
                         ++ [ConfirmConflictResolved] |} e).
  - now rewrite <- !app_assoc.
  - apply run_rejected. now apply CliFacts.run_perform.
Qed.

(** X10: [withPullRequest] looks up every commit once, in order,
    whether or not a lookup fails; when it resolves, the commits it
    yields are the given ones, in order, with the same revision ids
    and messages. *)
Theorem withPullRequest_looks_up_every_commit
    (owner repoName : string) (commits : list Commit) (s : Session W Call) :
  calls (withPullRequest lib owner repoName commits s).2
  = calls s
    ++ map (fun commit => GetPullRequestByCommit owner repoName (sha commit))
           commits
  /\ forall found,
       (withPullRequest lib owner repoName commits s).1 = Resolved found ->
       map sha found = map sha commits
       /\ map message found = map message commits.
Proof.
  unfold withPullRequest.
  set (lookup := fun commit : Commit => andThen _ _).
  assert (Hlookup :
            forall commit s0,
            exists r w1,
              lookup commit s0
              = (r, {| world := w1;
                       calls := calls s0
                                ++ [GetPullRequestByCommit owner repoName
                                                           (sha commit)] |})
              /\ forall found,
                   r = Resolved found ->
                   sha found = sha commit /\ message found = message commit).
  { intros commit s0. subst lookup. cbv beta.
    unfold andThen, perform, resolve.
    destruct (getPullRequestByCommit lib owner repoName (sha commit)
                                     (world s0)) as [[pr|e|] w1];
      eexists _, w1; (split; [reflexivity|]); intros found [= <-].
    now split. }
  clearbody lookup. revert s.
  induction commits as [|commit commits IH]; intros s.
  - cbn. rewrite app_nil_r. split; [reflexivity|].
    now intros found [= <-].
  - cbn [map promiseAll].
    destruct (Hlookup commit s) as [r [w1 [-> Hr]]].
    match goal with
    | |- context [promiseAll ?ps ?s1] =>
        destruct (IH s1) as [Hcalls Hfound];
        destruct (promiseAll ps s1) as [rs s2]
    end.
    cbn [fst snd calls] in *. rewrite Hcalls, <- app_assoc.
    split; [reflexivity|]. intros found Hres.
    destruct r as [one|e|], rs as [l|e'|]; cbn in Hres; try discriminate.
    injection Hres as <-.
    destruct (Hfound l eq_refl) as [Hsha Hmsg].
    destruct (Hr one eq_refl) as [Hsha1 Hmsg1].
    cbn. now rewrite Hsha, Hmsg, Hsha1, Hmsg1.
Qed.

End Order.

Lemma doBackportVersion_stops_at_branch_setup_witness :
  doBackportVersion (Demo.libs "none" "6.x" true) 1 "elastic" "kibana"
                    [Demo.commit1000] "6.x" "sqren" ["backport"]
                    (Demo.start 0)
  = (Rejected (Demo.invalidBranchError "6.x"),
     {| world := 0;
        calls := [banner [Demo.commit1000] "6.x";
                  ResetAndPullMaster "elastic" "kibana";
                  CreateAndCheckoutBranch "elastic" "kibana" "6.x"
                                          "backport/6.x/pr-1000"] |}).
Proof.
  apply (doBackportVersion_stops_at_branch_setup
           (Demo.libs "none" "6.x" true) 1 "elastic" "kibana" "6.x" "sqren"
           ["backport"] [Demo.commit1000] (Demo.invalidBranchError "6.x")
           0 0 0 []); reflexivity.
Defined.

Lemma doBackportVersion_clean_run_witness :
  doBackportVersion (Scenarios.failing "none" Scenarios.diskFull None) 0
                    "elastic" "kibana" [] "6.x" "sqren" ["backport"]
                    Scenarios.begin
  = (Resolved Demo.createdPullRequest,
     {| world := tt;
        calls := [banner [] "6.x";
                  ResetAndPullMaster "elastic" "kibana";
                  CreateAndCheckoutBranch "elastic" "kibana" "6.x"
                                          "backport/6.x/";
                  Push "elastic" "kibana" "sqren" "backport/6.x/";
                  CreatePullRequest "elastic" "kibana"
                    (getPullRequestPayload "6.x" [] "sqren");
                  AddLabels "elastic" "kibana"
                            (number Demo.createdPullRequest)
                            ["backport"]] |})
  /\ doBackportVersion (Scenarios.failing "none" Scenarios.diskFull None) 0
                       "elastic" "kibana"
                       [Demo.plainCommit; Scenarios.otherCommit]
                       "6.x" "sqren" [] Scenarios.begin
     = (Resolved Demo.createdPullRequest,
        {| world := tt;
           calls := [banner [Demo.plainCommit; Scenarios.otherCommit] "6.x";
                     ResetAndPullMaster "elastic" "kibana";
                     CreateAndCheckoutBranch "elastic" "kibana" "6.x"
                       "backport/6.x/commit-mySha_commit-mySha2";
                     Cherrypick "elastic" "kibana" "mySha";
                     Cherrypick "elastic" "kibana" "mySha2";
                     Push "elastic" "kibana" "sqren"
                          "backport/6.x/commit-mySha_commit-mySha2";
                     CreatePullRequest "elastic" "kibana"
                       (getPullRequestPayload
                          "6.x" [Demo.plainCommit; Scenarios.otherCommit]
                          "sqren")] |}).
Proof.
  split.
  - apply (doBackportVersion_clean_run
             (Scenarios.failing "none" Scenarios.diskFull None) 0
             "elastic" "kibana" "6.x" "sqren" ["backport"] []
             Demo.createdPullRequest tt tt tt tt tt tt tt []);
      try reflexivity.
    constructor.
  - apply (doBackportVersion_clean_run
             (Scenarios.failing "none" Scenarios.diskFull None) 0
             "elastic" "kibana" "6.x" "sqren" []
             [Demo.plainCommit; Scenarios.otherCommit]
             Demo.createdPullRequest tt tt tt tt tt tt tt []);
      try reflexivity.
    eapply picks_cons; [reflexivity|].
    eapply picks_cons; [reflexivity | constructor].
Defined.

Lemma doBackportVersion_rejected_after_creation_witness :
  doBackportVersion (Scenarios.labelsFail Scenarios.diskFull) 1
                    "elastic" "kibana" [Demo.plainCommit] "6.x" "sqren"
                    ["backport"] Scenarios.begin
  = (Rejected Scenarios.diskFull,
     {| world := tt;
        calls := [banner [Demo.plainCommit] "6.x";
                  ResetAndPullMaster "elastic" "kibana";
                  CreateAndCheckoutBranch "elastic" "kibana" "6.x"
                                          "backport/6.x/commit-mySha";
                  Cherrypick "elastic" "kibana" "mySha";
                  Push "elastic" "kibana" "sqren"
                       "backport/6.x/commit-mySha";
                  CreatePullRequest "elastic" "kibana"
                    (getPullRequestPayload "6.x" [Demo.plainCommit] "sqren");
                  AddLabels "elastic" "kibana"
                            (number Demo.createdPullRequest)
                            ["backport"]] |}).
Proof.
  apply (doBackportVersion_rejected_after_creation
           (Scenarios.labelsFail Scenarios.diskFull) 1
           "elastic" "kibana" "6.x" "sqren" ["backport"]
           [Demo.plainCommit] Demo.createdPullRequest Scenarios.diskFull
           tt tt tt tt tt tt tt []);
    try reflexivity; [|discriminate].
  eapply picks_cons; [reflexivity | constructor].
Defined.


Lemma confirmResolvedRecursive_never_settles_while_dirty_witness :
  exists w',
    confirmResolvedRecursive Scenarios.stuck 3 "elastic" "kibana"
                             Scenarios.begin
    = (Pending,
       {| world := w';
          calls := concat (replicate 3 (roundCalls "elastic" "kibana")) |}).
Proof.
  apply (confirmResolvedRecursive_never_settles_while_dirty
           Scenarios.stuck (fun _ => True) "elastic" "kibana"
           (fun w _ => ex_intro _ true
                         (ex_intro _ w
                            (ex_intro _ w (conj eq_refl (conj eq_refl I)))))
           3 tt [] I).
Defined.

Lemma doBackportVersion_stops_at_failed_prompt_witness :
  doBackportVersion
    (Scenarios.failing "mySha" (Demo.conflictError "mySha")
                       (Some Scenarios.bareError))
    1 "elastic" "kibana" [Demo.plainCommit] "6.x" "sqren" ["backport"]
    Scenarios.begin
  = (Rejected Scenarios.bareError,
     {| world := tt;
        calls := [banner [Demo.plainCommit] "6.x";
                  ResetAndPullMaster "elastic" "kibana";
                  CreateAndCheckoutBranch "elastic" "kibana" "6.x"
                                          "backport/6.x/commit-mySha";
                  Cherrypick "elastic" "kibana" "mySha";
                  ConfirmConflictResolved] |}).
Proof.
  apply (doBackportVersion_stops_at_failed_prompt
           (Scenarios.failing "mySha" (Demo.conflictError "mySha")
                              (Some Scenarios.bareError))
           1 "elastic" "kibana" "6.x" "sqren" ["backport"]
           [] Demo.plainCommit [] (Demo.conflictError "mySha")
           Scenarios.bareError tt tt tt tt tt tt []);
    try reflexivity; [constructor | lia].
Defined.

End PipelineFacts.

(** ** More on branch names, payloads and [parseUpstream] *)
Module StepsMoreFacts.
Import Steps StepsMore.

Lemma length_append (a b : string) :
  String.length (a +:+ b) = String.length a + String.length b.
Proof.
  induction a as [|c a IH]; [reflexivity|].
  change (S (String.length (a +:+ b)) = S (String.length a + String.length b)).
  now rewrite IH.
Qed.

(** X11: the title of the payload is [[<version>] ] followed by at
    most 200 characters of commit messages, however many commits
    there are and however long their messages. *)
Theorem getPullRequestPayload_title_bound
    (version : string) (commits : list Commit) (username : string) :
  exists messages,
    title (getPullRequestPayload version commits username)
    = "[" +:+ version +:+ "] " +:+ messages
    /\ String.length messages <= 200
    /\ String.length (title (getPullRequestPayload version commits username))
       <= String.length version + 203.
Proof.
  exists (Js.slice0 200 (Js.join " | " (map message commits))).
  pose proof (JsFacts.slice0_length 200
                (Js.join " | " (map message commits))) as Hlen.
  split; [reflexivity|]. split; [exact Hlen|].
  cbn [getPullRequestPayload title].
  change ("[" +:+ version +:+ "] "
            +:+ Js.slice0 200 (Js.join " | " (map message commits)))
    with (String "[" (version +:+ "] "
            +:+ Js.slice0 200 (Js.join " | " (map message commits)))).
  cbn [String.length]. rewrite length_append.
  change ("] " +:+ Js.slice0 200 (Js.join " | " (map message commits)))
    with (String "]" (String " "
            (Js.slice0 200 (Js.join " | " (map message commits))))).
  cbn [String.length]. lia.
Qed.

Lemma replace_absent (s pat rep : string) :
  Js.includes s pat = false -> Js.replace s pat rep = s.
Proof.
  induction s as [|c s IH]; cbn [Js.includes Js.replace];
    intros [Hhere Hlater]%orb_false_iff; rewrite Hhere; [reflexivity|].
  now rewrite IH.
Qed.

(** X12: when no commit message holds its own reference in
    parentheses, the body lists every commit as
    [ - <message> (<reference>)], one per line, below the header. *)
Theorem getPullRequestPayload_body_plain
    (version : string) (commits : list Commit) (username : string) :
  Forall (fun commit =>
            Js.includes (message commit)
                        ("(" +:+ getReferenceLong commit +:+ ")") = false)
         commits ->
  body (getPullRequestPayload version commits username)
  = "Backports the following commits to " +:+ version +:+ ":" +:+ Js.nl
      +:+ Js.join Js.nl
            (map (fun commit =>
                    " - " +:+ message commit +:+ " ("
                          +:+ getReferenceLong commit +:+ ")")
                 commits).
Proof.
  intros Hplain. cbn [getPullRequestPayload body].
  match goal with
  | |- context [Js.join Js.nl (map ?line commits)] =>
      assert (Hlines :
                map line commits
                = map (fun commit =>
                         " - " +:+ message commit +:+ " ("
                               +:+ getReferenceLong commit +:+ ")")
                      commits)
  end.
  { induction Hplain as [|commit commits Hc _ IH]; [reflexivity|].
    cbn [map]. rewrite IH. f_equal. now rewrite replace_absent. }
  now rewrite Hlines.
Qed.

Lemma ofPositive_inj (p q : positive) :
  Js.ofPositive p = Js.ofPositive q -> p = q.
Proof.
  unfold Js.ofPositive. intros H.
  apply DecimalPos.Unsigned.to_uint_inj.
  pose proof (NilEmpty.usu (Pos.to_uint p)) as Hp.
  pose proof (NilEmpty.usu (Pos.to_uint q)) as Hq.
  rewrite H in Hp. rewrite Hp in Hq. now injection Hq.
Qed.

(** X13: short references tell commits apart: two commits with the
    same short reference have the same pull-request number, or both
    have none and their revision ids agree on the first 7
    characters. *)
Theorem getReferenceShort_distinguishes (c1 c2 : Commit) :
  getReferenceShort c1 = getReferenceShort c2 ->
  pullRequest c1 = pullRequest c2
  /\ (pullRequest c1 = None ->
      Js.slice0 7 (sha c1) = Js.slice0 7 (sha c2)).
Proof.
  unfold getReferenceShort, getReference.
  destruct (pullRequest c1) as [p|], (pullRequest c2) as [q|]; cbn.
  - intros [= H]. apply ofPositive_inj in H as ->. now split.
  - discriminate.
  - discriminate.
  - intros [= H]. now split.
Qed.

Lemma split_without (sep : ascii) (s : string) :
  ~ Js.occurs sep s -> JsText.split sep s = [s].
Proof.
  induction s as [|c s IH]; [reflexivity|].
  cbn [Js.occurs JsText.split]. intros Hno.
  destruct (Ascii.eqb c sep) eqn:E.
  - apply Ascii.eqb_eq in E. subst. tauto.
  - rewrite IH; [reflexivity | tauto].
Qed.

Lemma split_first (sep : ascii) (first others : string) :
  ~ Js.occurs sep first ->
  JsText.split sep (first +:+ String sep others)
  = first :: JsText.split sep others.
Proof.
  induction first as [|c first IH].
  - intros _. change (JsText.split sep (String sep others)
                      = EmptyString :: JsText.split sep others).
    cbn [JsText.split]. now rewrite Ascii.eqb_refl.
  - cbn [Js.occurs]. intros Hno.
    change (JsText.split sep (String c (first +:+ String sep others))
            = String c first :: JsText.split sep others).
    cbn [JsText.split]. destruct (Ascii.eqb c sep) eqn:E.
    + apply Ascii.eqb_eq in E. subst. tauto.
    + rewrite IH; [reflexivity | tauto].
Qed.

Lemma split_cons (sep : ascii) (s : string) :
  exists piece pieces, JsText.split sep s = piece :: pieces.
Proof.
  induction s as [|c s [piece [pieces IH]]]; cbn [JsText.split].
  - now eexists _, _.
  - destruct (Ascii.eqb c sep); [now eexists _, _|].
    rewrite IH. now eexists _, _.
Qed.

(** X14: [parseUpstream] reads [<owner>/<repoName>] back into its two
    parts when the owner holds no slash: the repository name is what
    lies between the first slash and the next one, so whatever follows
    a second slash is dropped; an upstream without any slash has an
    owner and no repository name. *)
Theorem parseUpstream_round_trip (ownerName repo : string) :
  ~ Js.occurs "/" ownerName ->
  ~ Js.occurs "/" repo ->
  parseUpstream (ownerName +:+ "/" +:+ repo)
  = {| owner := Some ownerName; repoName := Some repo |}
  /\ (forall more,
        parseUpstream (ownerName +:+ "/" +:+ repo +:+ "/" +:+ more)
        = {| owner := Some ownerName; repoName := Some repo |})
  /\ parseUpstream ownerName
     = {| owner := Some ownerName; repoName := None |}.
Proof.
  intros Howner Hrepo. unfold parseUpstream. split; [|split].
  - change (ownerName +:+ "/" +:+ repo)
      with (ownerName +:+ String "/" repo).
    rewrite (split_first "/" ownerName repo Howner).
    now rewrite (split_without "/" repo Hrepo).
  - intros more.
    change (ownerName +:+ "/" +:+ repo +:+ "/" +:+ more)
      with (ownerName +:+ String "/" (repo +:+ String "/" more)).
    rewrite (split_first "/" ownerName _ Howner).
    now rewrite (split_first "/" repo more Hrepo).
  - now rewrite (split_without "/" ownerName Howner).
Qed.

Lemma getPullRequestPayload_body_plain_witness :
  body (getPullRequestPayload "6.x" [Demo.plainCommit; Scenarios.otherCommit]
                              "sqren")
  = "Backports the following commits to 6.x:" +:+ Js.nl
      +:+ " - myCommitMessage (mySha)" +:+ Js.nl
      +:+ " - myOtherCommitMessage (mySha2)".
Proof.
  rewrite (getPullRequestPayload_body_plain
             "6.x" [Demo.plainCommit; Scenarios.otherCommit] "sqren").
  - reflexivity.
  - repeat constructor.
Defined.

Lemma getReferenceShort_distinguishes_witness :
  pullRequest Demo.commit1000
  = pullRequest {| sha := "anotherSha"; message := "picked by hand";
                   pullRequest := Some 1000%positive |}.
Proof.
  exact (proj1 (getReferenceShort_distinguishes
                  Demo.commit1000
                  {| sha := "anotherSha"; message := "picked by hand";
                     pullRequest := Some 1000%positive |}
                  eq_refl)).
Defined.

Lemma parseUpstream_round_trip_witness :
  parseUpstream "elastic/kibana"
  = {| owner := Some "elastic"; repoName := Some "kibana" |}.
Proof.
  refine (proj1 (parseUpstream_round_trip "elastic" "kibana" _ _));
    cbn; intuition discriminate.
Defined.

End StepsMoreFacts.

(** ** More on commit resolution *)
Module ResolverMoreFacts.
Import Resolver ResolverFacts Async.

Lemma digitsThenClose_blocked (x r : string) :
  digitsThenClose x = None -> digitsThenClose (x +:+ String "(" r) = None.
Proof.
  induction x as [|c x IH]; [reflexivity|].
  change (digitsThenClose (String c x) = None ->
          digitsThenClose (String c (x +:+ String "(" r)) = None).
  cbn [digitsThenClose]. destruct (Js.isDigit c).
  - destruct (digitsThenClose x); [discriminate|].
    intros _. now rewrite IH.
  - now destruct (Ascii.eqb c ")").
Qed.

Lemma digitsThenClose_closed (x y : string) :
  digitsThenClose x = Some EmptyString ->
  digitsThenClose (x +:+ y) = Some EmptyString.
Proof.
  destruct x as [|c x]; [discriminate|].
  change (digitsThenClose (String c x) = Some EmptyString ->
          digitsThenClose (String c (x +:+ y)) = Some EmptyString).
  cbn [digitsThenClose]. destruct (Js.isDigit c).
  - destruct (digitsThenClose x); discriminate.
  - now destruct (Ascii.eqb c ")").
Qed.

Lemma matchAt_other_start (c : ascii) (s : string) :
  Ascii.eqb c "(" = false -> matchAt (String c s) = None.
Proof.
  destruct c as [[] [] [] [] [] [] [] []]; intros H; try reflexivity.
  discriminate.
Qed.

Lemma matchAt_other_second (c : ascii) (s : string) :
  Ascii.eqb c "#" = false -> matchAt (String "(" (String c s)) = None.
Proof.
  destruct c as [[] [] [] [] [] [] [] []]; intros H; try reflexivity.
  discriminate.
Qed.

(** Text without a match gets none by being followed by [(#]. *)
Lemma matchAt_blocked (c : ascii) (x r : string) :
  matchAt (String c x) = None ->
  matchAt (String c (x +:+ String "(" (String "#" r))) = None.
Proof.
  destruct (Ascii.eqb c "(") eqn:E1;
    [apply Ascii.eqb_eq in E1 as -> | intros _; now apply matchAt_other_start].
  destruct x as [|c2 x]; [intros _; reflexivity|].
  change (matchAt (String "(" (String c2 x)) = None ->
          matchAt (String "(" (String c2 (x +:+ String "(" (String "#" r))))
          = None).
  destruct (Ascii.eqb c2 "#") eqn:E2;
    [apply Ascii.eqb_eq in E2 as ->
    | intros _; now apply matchAt_other_second].
  cbn [matchAt].
  destruct (digitsThenClose x) as [[|d ds]|] eqn:E; try discriminate;
    intros _.
  - now rewrite (digitsThenClose_closed x _ E).
  - now rewrite (digitsThenClose_blocked x _ E).
Qed.

Lemma regexSearch_leftmost (pre ds post : string) :
  regexSearch pre = None ->
  allDigits ds = true -> ds <> EmptyString ->
  regexSearch (pre +:+ "(#" +:+ ds +:+ ")" +:+ post) = Some ds.
Proof.
  intros Hpre Hds Hne. induction pre as [|c pre IH].
  - apply regexSearch_here.
    change (matchAt ("(#" +:+ ds +:+ ")" +:+ post) = Some ds).
    now apply matchAt_app.
  - rewrite regexSearch_cons in Hpre.
    destruct (matchAt (String c pre)) eqn:E; [discriminate|].
    change (regexSearch
              (String c (pre +:+ String "(" (String "#" (ds +:+ ")" +:+ post))))
            = Some ds).
    rewrite regexSearch_cons, (matchAt_blocked c pre _ E).
    now apply IH.
Qed.

Lemma parse_from (d : Decimal.uint) (acc : positive) :
  fold_left (fun acc c => (acc * 10 + Js.digitValue c)%N)
            (list_ascii_of_string (NilEmpty.string_of_uint d)) (Npos acc)
  = Npos (Pos.of_uint_acc d acc).
Proof.
  revert acc. induction d as [|d IH|d IH|d IH|d IH|d IH|d IH|d IH|d IH|d IH|d IH];
    intros acc; [reflexivity|..];
    cbn [NilEmpty.string_of_uint list_ascii_of_string fold_left
         Pos.of_uint_acc];
    rewrite <- IH; f_equal; vm_compute (Js.digitValue _); lia.
Qed.

Lemma parse_numeral (d : Decimal.uint) :
  Js.parseDigits (NilEmpty.string_of_uint d) = Pos.of_uint d.
Proof.
  unfold Js.parseDigits.
  induction d as [|d IH|d IH|d IH|d IH|d IH|d IH|d IH|d IH|d IH|d IH];
    [reflexivity|exact IH|..];
    cbn [NilEmpty.string_of_uint list_ascii_of_string fold_left Pos.of_uint];
    vm_compute (0 * 10 + Js.digitValue _)%N; apply parse_from.
Qed.

Lemma numeral_digits (d : Decimal.uint) :
  allDigits (NilEmpty.string_of_uint d) = true.
Proof. induction d; cbn [NilEmpty.string_of_uint allDigits]; auto. Qed.

Lemma ofN_numeral (n : N) :
  JsText.ofN n = NilEmpty.string_of_uint (N.to_uint n)
  /\ JsText.ofN n <> EmptyString.
Proof.
  unfold JsText.ofN, NilZero.string_of_uint.
  destruct n as [|p]; [split; [reflexivity | discriminate]|].
  cbn [N.to_uint]. pose proof (DecimalPos.Unsigned.to_uint_nonnil p) as Hnil.
  destruct (Pos.to_uint p); [now elim Hnil|..];
    (split; [reflexivity | discriminate]).
Qed.

Section Facts.
Context {BLM X TargetPR W : Type}.
Context (imports : Imports BLM X TargetPR W).

(** X15: a message that carries [(#<n>)], for a number [n] in decimal
    that is at most [2^53], after text that holds no such pattern
    itself, gives back the number [n], whatever follows.  The bound
    is where [parseInt] stops being exact: the numbers of this model
    are exact throughout, those of the code are doubles. *)
Theorem getPullNumberFromMessage_reads_back (n : N) (pre post : string) :
  (n <= JsText.maxExact)%N ->
  getPullNumberFromMessage pre = None ->
  getPullNumberFromMessage (pre +:+ "(#" +:+ JsText.ofN n +:+ ")" +:+ post)
  = Some n.
Proof.
  unfold getPullNumberFromMessage. intros _ Hpre.
  destruct (regexSearch pre) eqn:E; [discriminate|].
  destruct (ofN_numeral n) as [Hnum Hne].
  rewrite (regexSearch_leftmost pre (JsText.ofN n) post E).
  - rewrite Hnum, parse_numeral.
    now rewrite <- (DecimalN.Unsigned.of_to n) at 2.
  - rewrite Hnum. apply numeral_digits.
  - exact Hne.
Qed.

(** X16: when the query returns history entries, the operation
    resolves with one commit per entry, in the order of the entries;
    every commit keeps the revision id and the message of its entry
    and carries the source branch of the options. *)
Theorem fetchCommitsByAuthor_one_commit_per_entry
    (options : BackportOptions BLM) (authorId : option string)
    (edge : HistoryEdge X) (edges : list (HistoryEdge X)) (w w1 w2 : W) :
  fetchAuthorId imports options w = (Resolved authorId, w1) ->
  apiRequestV4 imports (githubApiBaseUrlV4 options) (accessToken options)
    {| q_repoOwner := repoOwner options;
       q_repoName := repoName options;
       q_sourceBranch := sourceBranch options;
       q_maxNumber := maxNumber options;
       q_authorId := authorId;
       q_historyPath := truthy (path options) |} w1
  = (Resolved {| repository_ref := Some (edge :: edges) |}, w2) ->
  exists commits,
    fetchCommitsByAuthor imports options w = (Resolved commits, w2)
    /\ length commits = S (length edges)
    /\ map sha commits = map oid (edge :: edges)
    /\ map originalMessage commits = map node_message (edge :: edges)
    /\ Forall (fun commit => sourceBranch_ commit = sourceBranch options)
              commits.
Proof.
  intros Hauthor Hquery.
  exists (map (commitOfEdge imports options) (edge :: edges)).
  split; [|split; [|split; [|split]]].
  - unfold fetchCommitsByAuthor, andThen. rewrite Hauthor, Hquery.
    reflexivity.
  - now rewrite length_map.
  - rewrite map_map. apply map_ext. intros entry. unfold commitOfEdge.
    now destruct (negb _); [|destruct (head _)].
  - rewrite map_map. apply map_ext. intros entry. unfold commitOfEdge.
    now destruct (negb _); [|destruct (head _)].
  - apply Forall_map, Forall_forall. intros entry _. unfold commitOfEdge.
    now destruct (negb _); [|destruct (head _)].
Qed.

(** X17: when the source branch does not exist upstream (the query
    answers with a null ref), the operation fails with a handled
    error that names the branch and points to [--source-branch]. *)
Theorem fetchCommitsByAuthor_missing_source_branch
    (options : BackportOptions BLM) (authorId : option string)
    (w w1 w2 : W) :
  fetchAuthorId imports options w = (Resolved authorId, w1) ->
  apiRequestV4 imports (githubApiBaseUrlV4 options) (accessToken options)
    {| q_repoOwner := repoOwner options;
       q_repoName := repoName options;
       q_sourceBranch := sourceBranch options;
       q_maxNumber := maxNumber options;
       q_authorId := authorId;
       q_historyPath := truthy (path options) |} w1
  = (Resolved {| repository_ref := None |}, w2) ->
  exists text,
    fetchCommitsByAuthor imports options w
    = (Rejected (newHandledError text), w2)
    /\ Js.includes text (Js.dq +:+ sourceBranch options +:+ Js.dq) = true
    /\ Js.includes text "--source-branch <your-branch>" = true.
Proof.
  intros Hauthor Hquery. eexists. split; [|split].
  - unfold fetchCommitsByAuthor, andThen. rewrite Hauthor, Hquery.
    reflexivity.
  - eapply (JsFacts.includes_piece _ "The upstream branch ").
    rewrite !JsFacts.append_assoc. reflexivity.
  - do 5 apply JsFacts.includes_skip. reflexivity.
Qed.

End Facts.

Lemma getPullNumberFromMessage_reads_back_witness :
  getPullNumberFromMessage "Fix the (flaky) build (#4711)" = Some 4711%N.
Proof.
  apply (getPullNumberFromMessage_reads_back
           4711 "Fix the (flaky) build " EmptyString);
    [vm_compute; discriminate | reflexivity].
Defined.

Lemma fetchCommitsByAuthor_one_commit_per_entry_witness :
  exists commits,
    fetchCommitsByAuthor Demo.resolverImports (Demo.options false)
                         {| repository_ref := Some [Demo.revertEdge] |}
    = (Resolved commits, {| repository_ref := Some [Demo.revertEdge] |})
    /\ map sha commits = ["mySha"].
Proof.
  destruct (fetchCommitsByAuthor_one_commit_per_entry
              Demo.resolverImports (Demo.options false) (Some "sqren")
              Demo.revertEdge []
              {| repository_ref := Some [Demo.revertEdge] |}
              {| repository_ref := Some [Demo.revertEdge] |}
              {| repository_ref := Some [Demo.revertEdge] |}
              eq_refl eq_refl)
    as [commits [Hrun [_ [Hsha _]]]].
  exists commits. split; [exact Hrun | exact Hsha].
Defined.

Lemma fetchCommitsByAuthor_missing_source_branch_witness :
  exists text,
    fetchCommitsByAuthor Demo.resolverImports (Demo.options false)
                         {| repository_ref := None |}
    = (Rejected (newHandledError text), {| repository_ref := None |})
    /\ Js.includes text (Js.dq +:+ "master" +:+ Js.dq) = true.
Proof.
  destruct (fetchCommitsByAuthor_missing_source_branch
              Demo.resolverImports (Demo.options false) (Some "sqren")
              {| repository_ref := None |} {| repository_ref := None |}
              {| repository_ref := None |} eq_refl eq_refl)
    as [text [Hrun [Hname _]]].
  exists text. split; [exact Hrun | exact Hname].
Defined.

End ResolverMoreFacts.

(** ** Recorded calls of any session *)
Module TraceFacts.
Import Async Traces.

Section Facts.
Context {W C : Type}.

Abbreviation Step := (Promise (Session W C)).

Lemma settled_andThen {A B} (p : Step A) (f : A -> Step B)
    (s s' : Session W C) (b : B) :
  andThen p f s = (Resolved b, s') ->
  exists a s1, p s = (Resolved a, s1) /\ f a s1 = (Resolved b, s').
Proof.
  unfold andThen. destruct (p s) as [[a|e|] s1]; try discriminate.
  intros H. now exists a, s1.
Qed.

Lemma settled_catch {A} (p : Step A) (h : JsError -> Step A)
    (s s' : Session W C) (a : A) :
  catch p h s = (Resolved a, s') ->
  p s = (Resolved a, s')
  \/ exists e s1, p s = (Rejected e, s1) /\ h e s1 = (Resolved a, s').
Proof.
  unfold catch. destruct (p s) as [[a0|e|] s1]; try discriminate.
  - now left.
  - intros H. right. now exists e, s1.
Qed.

Lemma run_andThen_any {A B} (p : Step A) (f : A -> Step B)
    (s s1 : Session W C) (a : A) :
  p s = (Resolved a, s1) -> andThen p f s = f a s1.
Proof. intros H. unfold andThen. now rewrite H. Qed.

Lemma appendsOnly_resolve (P : C -> Prop) {A} (a : A) :
  appendsOnly P (resolve a : Step A).
Proof. intros s. exists []. cbn. now rewrite app_nil_r. Qed.

Lemma appendsOnly_reject (P : C -> Prop) {A} (e : JsError) :
  appendsOnly P (reject e : Step A).
Proof. intros s. exists []. cbn. now rewrite app_nil_r. Qed.

Lemma appendsOnly_perform (P : C -> Prop) {A} (c : C)
    (op : W -> Outcome A * W) :
  P c -> appendsOnly P (perform c op).
Proof.
  intros Hc s. exists [c]. unfold perform.
  destruct (op (world s)) as [r w]. cbn. auto.
Qed.

Lemma appendsOnly_andThen (P : C -> Prop) {A B} (p : Step A)
    (f : A -> Step B) :
  appendsOnly P p -> (forall a, appendsOnly P (f a)) ->
  appendsOnly P (andThen p f).
Proof.
  intros Hp Hf s. unfold andThen.
  destruct (Hp s) as [tr1 [E1 F1]].
  destruct (p s) as [[a|e|] s1]; cbn in *; try (now exists tr1).
  destruct (Hf a s1) as [tr2 [E2 F2]].
  exists (tr1 ++ tr2). rewrite E2, E1, app_assoc. split; [reflexivity|].
  now apply Forall_app.
Qed.

Lemma appendsOnly_catch (P : C -> Prop) {A} (p : Step A)
    (h : JsError -> Step A) :
  appendsOnly P p -> (forall e, appendsOnly P (h e)) ->
  appendsOnly P (catch p h).
Proof.
  intros Hp Hh s. unfold catch.
  destruct (Hp s) as [tr1 [E1 F1]].
  destruct (p s) as [[a|e|] s1]; cbn in *; try (now exists tr1).
  destruct (Hh e s1) as [tr2 [E2 F2]].
  exists (tr1 ++ tr2). rewrite E2, E1, app_assoc. split; [reflexivity|].
  now apply Forall_app.
Qed.

End Facts.
End TraceFacts.

(** ** More on the git service and repository setup *)
Module GitMoreFacts.
Import Git GitMore Async Traces TraceFacts.

Lemma toLowerCase_app (a b : string) :
  Js.toLowerCase (a +:+ b) = Js.toLowerCase a +:+ Js.toLowerCase b.
Proof.
  induction a as [|c a IH]; [reflexivity|].
  change (String (Js.lowerChar c) (Js.toLowerCase (a +:+ b))
          = String (Js.lowerChar c) (Js.toLowerCase a +:+ Js.toLowerCase b)).
  now rewrite IH.
Qed.

Lemma uniqFrom_spec (seen items : list string) :
  NoDup (JsText.uniqFrom seen items)
  /\ forall x, x ∈ JsText.uniqFrom seen items <-> x ∈ items /\ x ∉ seen.
Proof.
  revert seen. induction items as [|item items IH]; intros seen.
  - split; [constructor|]. intros x. cbn. rewrite elem_of_nil. tauto.
  - cbn [JsText.uniqFrom]. case_bool_decide as Hseen.
    + destruct (IH seen) as [Hnd Hin]. split; [exact Hnd|].
      intros x. rewrite Hin, elem_of_cons. split; [tauto|].
      intros [[->|Hx] Hout]; [contradiction | tauto].
    + destruct (IH (item :: seen)) as [Hnd Hin]. split.
      * constructor; [|exact Hnd]. rewrite Hin, elem_of_cons. tauto.
      * intros x. rewrite !elem_of_cons, Hin, elem_of_cons.
        destruct (decide (x = item)) as [->|Hne]; tauto.
Qed.

Lemma indexOf_first (c : ascii) (a b : string) :
  ~ Js.occurs c a ->
  JsText.indexOf c (a +:+ String c b) = Some (String.length a).
Proof.
  induction a as [|d a IH]; cbn [Js.occurs]; intros Hno.
  - change (JsText.indexOf c (String c b) = Some 0).
    cbn [JsText.indexOf]. now rewrite Ascii.eqb_refl.
  - change (JsText.indexOf c (String d (a +:+ String c b))
            = Some (S (String.length a))).
    cbn [JsText.indexOf]. destruct (Ascii.eqb d c) eqn:E.
    + apply Ascii.eqb_eq in E. subst. tauto.
    + rewrite IH; [reflexivity | tauto].
Qed.

Lemma indexOf_absent (c : ascii) (s : string) :
  ~ Js.occurs c s -> JsText.indexOf c s = None.
Proof.
  induction s as [|d s IH]; cbn [Js.occurs JsText.indexOf];
    [reflexivity|]. intros Hno.
  destruct (Ascii.eqb d c) eqn:E.
  - apply Ascii.eqb_eq in E. subst. tauto.
  - rewrite IH; [reflexivity | tauto].
Qed.

Lemma occurs_app (c : ascii) (a b : string) :
  Js.occurs c (a +:+ b) -> Js.occurs c a \/ Js.occurs c b.
Proof.
  induction a as [|d a IH]; [now right|].
  change (Js.occurs c (String d (a +:+ b)) ->
          Js.occurs c (String d a) \/ Js.occurs c b).
  cbn [Js.occurs]. intros [->|H]; [now left; left|].
  destruct (IH H); tauto.
Qed.

Lemma slice0_prefix (a b : string) :
  Js.slice0 (String.length a) (a +:+ b) = a.
Proof.
  unfold Js.slice0. induction a as [|c a IH].
  - now destruct b.
  - change (substring 0 (S (String.length a)) (String c (a +:+ b))
            = String c a).
    cbn [substring]. now rewrite IH.
Qed.

Section Facts.
Context {BLM X : Type} (imports : Platform BLM X).

Abbreviation Op := (Promise (Session (Machine X) SystemCall)).

(** X18: [repoExists] never fails on the modelled disk: it answers
    yes exactly when a directory is found at the repository path (a
    regular file there counts as no repository), and leaves the
    machine as it was. *)
Theorem repoExists_iff_directory (options : BackportOptions BLM)
    (s : Session (Machine X) SystemCall) :
  repoExists imports options s
  = (Resolved
       (match fs (world s) !! getRepoPath imports options with
        | Some Directory => true
        | Some RegularFile | None => false
        end),
     {| world := world s;
        calls := calls s ++ [Stat (getRepoPath imports options)] |}).
Proof.
  unfold repoExists, folderExists, catch, andThen, stat, perform.
  destruct (fs (world s) !! getRepoPath imports options) as [[|]|] eqn:E;
    cbv beta iota; try reflexivity.
Qed.

(** X19: removing a remote fails only when the command fails with a
    status other than 128, and then with the error of the command;
    adding a remote never fails. *)
Theorem remotes_swallow_failures (options : BackportOptions BLM)
    (remoteName : string) (s : Session (Machine X) SystemCall)
    (e : JsError) :
  ((deleteRemote imports options remoteName s).1 = Rejected e
   <-> (exec imports ("git remote rm " +:+ remoteName)
             (getRepoPath imports options) (world s)).1 = Rejected e
       /\ errCode e <> Some (CodeNumber 128))
  /\ (addRemote imports options remoteName s).1 <> Rejected e.
Proof.
  split.
  - unfold deleteRemote, catch, andThen, perform, resolve, reject.
    destruct (exec imports _ _ (world s)) as [[r|e0|] m]; cbn [fst].
    + split; [discriminate | intros [[=] _]].
    + case_bool_decide as Hcode; cbn [negb fst].
      * split; [discriminate|]. intros [[= ->] Hne]. contradiction.
      * split.
        -- intros [= ->]. now split.
        -- now intros [[= ->] _].
    + split; [discriminate | intros [[=] _]].
  - unfold addRemote, catch, andThen, perform, resolve.
    destruct (exec imports _ _ (world s)) as [[r|e0|] m]; discriminate.
Qed.

(** X20: continuing a cherry-pick fails only when the command fails
    with a status other than 128; a failure with status 128 (the
    cherry-pick was completed by hand) counts as success. *)
Theorem cherrypickContinue_swallows_128 (options : BackportOptions BLM)
    (s : Session (Machine X) SystemCall) (e : JsError) :
  (cherrypickContinue imports options s).1 = Rejected e
  <-> (exec imports "git -c core.editor=true cherry-pick --continue"
            (getRepoPath imports options) (world s)).1 = Rejected e
      /\ errCode e <> Some (CodeNumber 128).
Proof.
  unfold cherrypickContinue, catch, andThen, perform, resolve, reject.
  destruct (exec imports _ _ (world s)) as [[r|e0|] m]; cbn [fst].
  - split; [discriminate | intros [[=] _]].
  - case_bool_decide as Hcode; cbn [fst].
    + split; [discriminate|]. intros [[= ->] Hne]. contradiction.
    + split.
      * intros [= ->]. now split.
      * now intros [[= ->] _].
  - split; [discriminate | intros [[=] _]].
Qed.

(** X21: a branch-setup failure whose stderr holds [couldn't find
    remote ref] in any mix of upper and lower case becomes the handled
    error that names the base branch. *)
Theorem createFeatureBranch_missing_remote_ref
    (options : BackportOptions BLM) (baseBranch featureBranch : string)
    (s : Session (Machine X) SystemCall) (e : JsError) (m : Machine X)
    (before mark after : string) :
  Js.toLowerCase mark = "couldn't find remote ref" ->
  errStderr e = Some (before +:+ mark +:+ after) ->
  exec imports
       ("git reset --hard && git clean -d --force && git fetch "
          +:+ repoOwner options +:+ " " +:+ baseBranch
          +:+ " && git checkout -B " +:+ featureBranch +:+ " "
          +:+ repoOwner options +:+ "/" +:+ baseBranch +:+ " --no-track")
       (getRepoPath imports options) (world s)
  = (Rejected e, m) ->
  (createFeatureBranch imports options baseBranch featureBranch s).1
  = Rejected (newHandledError
                ("The branch " +:+ Js.dq +:+ baseBranch +:+ Js.dq
                   +:+ " is invalid or doesn't exist")).
Proof.
  intros Hmark Hstderr Hexec.
  unfold createFeatureBranch, catch, perform. rewrite Hexec.
  assert (Hfound : stderrIncludes e "couldn't find remote ref" = true).
  { unfold stderrIncludes. rewrite Hstderr.
    apply (JsFacts.includes_piece _ (Js.toLowerCase before) _
                                  (Js.toLowerCase after)).
    now rewrite !toLowerCase_app, Hmark. }
  now rewrite Hfound.
Qed.

(** X22: when [git diff --check] fails with status 2, the files with
    conflicts are listed without repetition; every entry comes from a
    line of the output that is not blank, and every such line has its
    entry. *)
Theorem getFilesWithConflicts_lists_each_file_once
    (pathResolve : string -> string -> string)
    (options : BackportOptions BLM) (s : Session (Machine X) SystemCall)
    (e : JsError) (m : Machine X) (out : string) :
  exec imports "git --no-pager diff --check" (getRepoPath imports options)
       (world s)
  = (Rejected e, m) ->
  errCode e = Some (CodeNumber 2) ->
  errStdout e = Some out ->
  exists files,
    (getFilesWithConflicts imports pathResolve options s).1 = Resolved files
    /\ NoDup files
    /\ forall entry,
         entry ∈ files
         <-> exists line,
               line ∈ JsText.split (ascii_of_nat 10) out
               /\ JsText.trim line <> EmptyString
               /\ entry = conflictEntry pathResolve
                            (getRepoPath imports options) line.
Proof.
  intros Hexec Hcode Hout.
  unfold getFilesWithConflicts, catch, andThen, perform. rewrite Hexec.
  cbv beta iota. rewrite bool_decide_eq_true_2 by exact Hcode.
  rewrite Hout. eexists. split; [reflexivity|].
  unfold JsText.uniq.
  destruct (uniqFrom_spec []
              (map (conflictEntry pathResolve (getRepoPath imports options))
                   (filter (fun line => JsText.trim line <> EmptyString)
                           (JsText.split (ascii_of_nat 10) out))))
    as [Hnd Hin].
  split; [exact Hnd|]. intros entry. rewrite Hin, list_elem_of_fmap.
  split.
  - intros [[line [-> Hline]] _]. apply list_elem_of_filter in Hline.
    exists line. tauto.
  - intros [line [Hline [Hblank ->]]]. split; [|apply not_elem_of_nil].
    exists line. split; [reflexivity|]. now apply list_elem_of_filter.
Qed.

(** X23: the entry of an output line names the file before the
    first colon, trimmed; of a line without any colon the last
    character is cut off before trimming. *)
Theorem conflictEntry_reads_file_name
    (pathResolve : string -> string -> string)
    (repoPath file : string) :
  ~ Js.occurs ":" file ->
  (forall rest,
     conflictEntry pathResolve repoPath (file +:+ ":" +:+ rest)
     = " - " +:+ pathResolve repoPath (JsText.trim file))
  /\ (forall last,
        last <> ":"%char ->
        conflictEntry pathResolve repoPath
                      (file +:+ String last EmptyString)
        = " - " +:+ pathResolve repoPath (JsText.trim file)).
Proof.
  intros Hfile. unfold conflictEntry. split.
  - intros rest.
    change (file +:+ ":" +:+ rest) with (file +:+ String ":" rest).
    rewrite (indexOf_first ":" file rest Hfile). cbn [JsText.sliceTo].
    now rewrite slice0_prefix.
  - intros last Hlast.
    rewrite indexOf_absent.
    + cbn [JsText.sliceTo].
      rewrite StepsMoreFacts.length_append. cbn [String.length].
      replace (String.length file + 1 - 1) with (String.length file) by lia.
      now rewrite slice0_prefix.
    + intros Hin. apply occurs_app in Hin as [Hin|Hin]; [tauto|].
      cbn in Hin. destruct Hin as [Heq|[]]. now subst.
Qed.

Lemma run_repoExists_directory (options : BackportOptions BLM)
    (s : Session (Machine X) SystemCall) :
  fs (world s) !! getRepoPath imports options = Some Directory ->
  repoExists imports options s
  = (Resolved true,
     {| world := world s;
        calls := calls s ++ [Stat (getRepoPath imports options)] |}).
Proof.
  intros Hdir. unfold repoExists, folderExists, catch, andThen, stat, perform.
  now rewrite Hdir.
Qed.

Lemma appendsOnly_deleteRemote (P : SystemCall -> Prop)
    (options : BackportOptions BLM) (remoteName : string) :
  (forall cmd cwd, P (Exec cmd cwd)) ->
  appendsOnly P (deleteRemote imports options remoteName).
Proof.
  intros HP. unfold deleteRemote. apply appendsOnly_catch.
  - apply appendsOnly_andThen; [apply appendsOnly_perform, HP|].
    intros _. apply appendsOnly_resolve.
  - intros e. destruct (negb _);
      [apply appendsOnly_reject | apply appendsOnly_resolve].
Qed.

Lemma appendsOnly_addRemote (P : SystemCall -> Prop)
    (options : BackportOptions BLM) (remoteName : string) :
  (forall cmd cwd, P (Exec cmd cwd)) ->
  appendsOnly P (addRemote imports options remoteName).
Proof.
  intros HP. unfold addRemote. apply appendsOnly_catch.
  - apply appendsOnly_andThen; [apply appendsOnly_perform, HP|].
    intros _. apply appendsOnly_resolve.
  - intros e. apply appendsOnly_resolve.
Qed.

(** The remote setup that ends [maybeSetupRepo]. *)
Lemma appendsOnly_remotes (P : SystemCall -> Prop)
    (options : BackportOptions BLM) :
  (forall cmd cwd, P (Exec cmd cwd)) ->
  appendsOnly P
    (andThen (deleteRemote imports options (username options))
       (fun _ =>
          andThen (addRemote imports options (username options))
            (fun _ =>
               if negb (String.eqb (username options) (repoOwner options))
               then
                 andThen (deleteRemote imports options (repoOwner options))
                         (fun _ =>
                            addRemote imports options (repoOwner options))
               else resolve tt))).
Proof.
  intros HP.
  apply appendsOnly_andThen; [now apply appendsOnly_deleteRemote|].
  intros _. apply appendsOnly_andThen; [now apply appendsOnly_addRemote|].
  intros _. destruct (negb _); [|apply appendsOnly_resolve].
  apply appendsOnly_andThen; [now apply appendsOnly_deleteRemote|].
  intros _. now apply appendsOnly_addRemote.
Qed.

(** X24: on a machine where the repository is already cloned,
    [maybeSetupRepo] neither clones nor deletes: after the existence
    check it only runs git commands in the repository (the remote
    setup), whatever they answer. *)
Theorem maybeSetupRepo_existing_repo_only_sets_remotes
    (options : BackportOptions BLM) (s : Session (Machine X) SystemCall) :
  fs (world s) !! getRepoPath imports options = Some Directory ->
  exists commands,
    calls (maybeSetupRepo imports options s).2
    = calls s ++ Stat (getRepoPath imports options) :: commands
    /\ Forall (fun c => exists cmd,
                          c = Exec cmd (getRepoPath imports options))
              commands.
Proof.
  intros Hdir. unfold maybeSetupRepo.
  rewrite (run_andThen_any _ _ _ _ _ (run_repoExists_directory options s Hdir)).
  cbn [negb]. unfold andThen at 1, resolve at 1. cbv beta iota.
  match goal with
  | |- context [andThen ?p ?f ?s0] =>
      assert (Hremotes :
                appendsOnly
                  (fun c => exists cmd,
                              c = Exec cmd (getRepoPath imports options))
                  (andThen p f))
  end.
  { apply appendsOnly_andThen.
    - unfold deleteRemote. apply appendsOnly_catch.
      + apply appendsOnly_andThen; [apply appendsOnly_perform; eauto|].
        intros _. apply appendsOnly_resolve.
      + intros e. destruct (negb _);
          [apply appendsOnly_reject | apply appendsOnly_resolve].
    - intros _. apply appendsOnly_andThen.
      + unfold addRemote. apply appendsOnly_catch.
        * apply appendsOnly_andThen; [apply appendsOnly_perform; eauto|].
          intros _. apply appendsOnly_resolve.
        * intros e. apply appendsOnly_resolve.
      + intros _. destruct (negb _); [|apply appendsOnly_resolve].
        apply appendsOnly_andThen.
        * unfold deleteRemote. apply appendsOnly_catch.
          -- apply appendsOnly_andThen; [apply appendsOnly_perform; eauto|].
             intros _. apply appendsOnly_resolve.
          -- intros e. destruct (negb _);
               [apply appendsOnly_reject | apply appendsOnly_resolve].
        * intros _. unfold addRemote. apply appendsOnly_catch.
          -- apply appendsOnly_andThen; [apply appendsOnly_perform; eauto|].
             intros _. apply appendsOnly_resolve.
          -- intros e. apply appendsOnly_resolve. }
  match goal with
  | |- context [andThen ?p ?f ?s0] =>
      destruct (Hremotes s0) as [commands [E F]]
  end.
  cbn [calls] in E. exists commands. split; [|exact F].
  rewrite E. now rewrite <- app_assoc.
Qed.

(** X25: [maybeSetupRepo] deletes the repository folder only on a run
    that fails: a run that resolves has made no [del] call. *)
Theorem maybeSetupRepo_resolved_never_deletes
    (options : BackportOptions BLM) (s s' : Session (Machine X) SystemCall) :
  maybeSetupRepo imports options s = (Resolved tt, s') ->
  exists made,
    calls s' = calls s ++ made
    /\ Forall (fun c => isDelCall c = false) made.
Proof.
  set (P := fun c : SystemCall => isDelCall c = false).
  intros Hrun. unfold maybeSetupRepo in Hrun.
  apply settled_andThen in Hrun as [cloned [s0 [Hexists Hrun]]].
  apply settled_andThen in Hrun as [[] [s1 [Hclone Hremotes]]].
  assert (E0 : exists tr0, calls s0 = calls s ++ tr0 /\ Forall P tr0).
  { assert (Hstat : appendsOnly P (repoExists imports options)).
    { unfold repoExists, folderExists. apply appendsOnly_catch.
      - apply appendsOnly_andThen; [now apply appendsOnly_perform|].
        intros stats. apply appendsOnly_resolve.
      - intros e. destruct (decide _);
          [apply appendsOnly_resolve | apply appendsOnly_reject]. }
    destruct (Hstat s) as [tr0 H0]. rewrite Hexists in H0. now exists tr0. }
  assert (E1 : exists tr1, calls s1 = calls s0 ++ tr1 /\ Forall P tr1).
  { destruct cloned; cbn [negb] in Hclone.
    - injection Hclone as <-. exists []. now rewrite app_nil_r.
    - apply settled_catch in Hclone as [Hclone|[e [sx [_ Hdel]]]].
      + assert (Hattempt : appendsOnly P (cloneAttempt imports options)).
        { unfold cloneAttempt, cloneRepo.
          apply appendsOnly_andThen; [apply appendsOnly_andThen|].
          - now apply appendsOnly_perform.
          - intros _. now apply appendsOnly_perform.
          - intros _. now apply appendsOnly_deleteRemote. }
        destruct (Hattempt s0) as [tr1 H1]. rewrite Hclone in H1.
        now exists tr1.
      + apply settled_andThen in Hdel as [[] [sy [_ Hrej]]].
        discriminate. }
  destruct (appendsOnly_remotes P options (fun _ _ => eq_refl) s1)
    as [tr2 [E2 F2]].
  rewrite Hremotes in E2. cbn [snd] in E2.
  destruct E0 as [tr0 [E0 F0]], E1 as [tr1 [E1 F1]].
  exists (tr0 ++ tr1 ++ tr2). split.
  - rewrite E2, E1, E0. now rewrite <- !app_assoc.
  - now repeat apply Forall_app_2.
Qed.

(** X26: the remote setup tolerates the expected failures: on a
    machine where the repository is already cloned, if every git
    command settles and every failing [git remote rm] fails with
    status 128 (no such remote), then [maybeSetupRepo] resolves,
    however the [git remote add] commands end. *)
Theorem maybeSetupRepo_tolerates_remote_failures
    (options : BackportOptions BLM) (s : Session (Machine X) SystemCall) :
  (forall cmd cwd m, (exec imports cmd cwd m).1 <> Pending) ->
  (forall remoteName cwd m e,
     (exec imports ("git remote rm " +:+ remoteName) cwd m).1 = Rejected e ->
     errCode e = Some (CodeNumber 128)) ->
  fs (world s) !! getRepoPath imports options = Some Directory ->
  (maybeSetupRepo imports options s).1 = Resolved tt.
Proof.
  intros Hsettles Hremove Hdir.
  assert (Hdelete :
            forall remoteName s0,
            exists s1,
              deleteRemote imports options remoteName s0 = (Resolved tt, s1)).
  { intros remoteName s0.
    unfold deleteRemote, catch, andThen, perform, resolve, reject.
    specialize (Hsettles ("git remote rm " +:+ remoteName)
                         (getRepoPath imports options) (world s0)).
    specialize (Hremove remoteName (getRepoPath imports options) (world s0)).
    destruct (exec imports _ _ (world s0)) as [[r|e|] m]; cbn [fst] in *.
    - now eexists.
    - rewrite bool_decide_eq_true_2 by now apply Hremove.
      now eexists.
    - now elim Hsettles. }
  assert (Hadd :
            forall remoteName s0,
            exists s1,
              addRemote imports options remoteName s0 = (Resolved tt, s1)).
  { intros remoteName s0.
    unfold addRemote, catch, andThen, perform, resolve.
    match goal with
    | |- context [exec imports ?cmd ?cwd ?m] =>
        specialize (Hsettles cmd cwd m);
        destruct (exec imports cmd cwd m) as [[r|e|] m']
    end; cbn [fst] in *;
      [now eexists | now eexists | now elim Hsettles]. }
  unfold maybeSetupRepo.
  rewrite (run_andThen_any _ _ _ _ _ (run_repoExists_directory options s Hdir)).
  cbn [negb]. unfold andThen at 1, resolve at 1. cbv beta iota.
  match goal with
  | |- context [andThen (deleteRemote imports options (username options))
                        _ ?s0] =>
      destruct (Hdelete (username options) s0) as [s1 H1]
  end.
  rewrite (run_andThen_any _ _ _ _ _ H1).
  destruct (Hadd (username options) s1) as [s2 H2].
  rewrite (run_andThen_any _ _ _ _ _ H2).
  destruct (negb _); [|reflexivity].
  destruct (Hdelete (repoOwner options) s2) as [s3 H3].
  rewrite (run_andThen_any _ _ _ _ _ H3).
  destruct (Hadd (repoOwner options) s3) as [s4 H4].
  now rewrite H4.
Qed.

End Facts.

Lemma createFeatureBranch_missing_remote_ref_witness :
  (createFeatureBranch
     (Demo.gitImports (Some (Demo.invalidBranchError "6.x")) None)
     (Demo.options false) "6.x" "backport/6.x/pr-1000" Demo.freshMachine).1
  = Rejected (newHandledError
                ("The branch " +:+ Js.dq +:+ "6.x" +:+ Js.dq
                   +:+ " is invalid or doesn't exist")).
Proof.
  apply (createFeatureBranch_missing_remote_ref
           (Demo.gitImports (Some (Demo.invalidBranchError "6.x")) None)
           (Demo.options false) "6.x" "backport/6.x/pr-1000"
           Demo.freshMachine (Demo.invalidBranchError "6.x")
           (world Demo.freshMachine)
           "fatal: " "Couldn't find remote ref" " 6.x");
    reflexivity.
Defined.

Lemma getFilesWithConflicts_lists_each_file_once_witness :
  exists files,
    (getFilesWithConflicts
       (Demo.gitImports (Some Scenarios.conflictMarkers) None)
       Scenarios.joinPath (Demo.options false) Demo.freshMachine).1
    = Resolved files
    /\ NoDup files
    /\ " - /myHomeDir/.backport/repositories/elastic/kibana/a.ts" ∈ files.
Proof.
  destruct (getFilesWithConflicts_lists_each_file_once
              (Demo.gitImports (Some Scenarios.conflictMarkers) None)
              Scenarios.joinPath (Demo.options false) Demo.freshMachine
              Scenarios.conflictMarkers (world Demo.freshMachine)
              ("a.ts:1: leftover conflict marker" +:+ Js.nl
                 +:+ "a.ts:5: leftover conflict marker" +:+ Js.nl
                 +:+ "b.ts:2: leftover conflict marker" +:+ Js.nl)
              eq_refl eq_refl eq_refl)
    as [files [Hrun [Hnd Hin]]].
  exists files. split; [exact Hrun|]. split; [exact Hnd|].
  apply Hin. exists "a.ts:5: leftover conflict marker".
  split; [|split; [discriminate | reflexivity]].
  vm_compute. apply list_elem_of_In. cbn. auto.
Defined.

Lemma maybeSetupRepo_existing_repo_only_sets_remotes_witness :
  exists commands,
    calls (maybeSetupRepo (Demo.gitImports (Some Scenarios.noSuchRemote) None)
                          (Demo.options false) Scenarios.clonedMachine).2
    = Stat "/myHomeDir/.backport/repositories/elastic/kibana" :: commands
    /\ length commands = 4.
Proof.
  destruct (maybeSetupRepo_existing_repo_only_sets_remotes
              (Demo.gitImports (Some Scenarios.noSuchRemote) None)
              (Demo.options false) Scenarios.clonedMachine)
    as [commands [Hcalls _]].
  - vm_compute. reflexivity.
  - exists commands. split; [exact Hcalls|].
    assert (Hlen :
              length
                (calls (maybeSetupRepo
                          (Demo.gitImports (Some Scenarios.noSuchRemote) None)
                          (Demo.options false) Scenarios.clonedMachine).2)
              = 5) by (vm_compute; reflexivity).
    rewrite Hcalls in Hlen. cbn in Hlen. lia.
Defined.

Lemma maybeSetupRepo_resolved_never_deletes_witness :
  exists made,
    calls (maybeSetupRepo (Demo.gitImports None None) (Demo.options false)
                          Demo.freshMachine).2
    = made
    /\ Forall (fun c => isDelCall c = false) made.
Proof.
  destruct (maybeSetupRepo_resolved_never_deletes
              (Demo.gitImports None None) (Demo.options false)
              Demo.freshMachine
              (maybeSetupRepo (Demo.gitImports None None) (Demo.options false)
                              Demo.freshMachine).2)
    as [made [Hcalls Hnone]].
  - vm_compute. reflexivity.
  - exists made. split; [exact Hcalls | exact Hnone].
Defined.

Lemma maybeSetupRepo_tolerates_remote_failures_witness :
  (maybeSetupRepo (Demo.gitImports (Some Scenarios.noSuchRemote) None)
                  (Demo.options false) Scenarios.clonedMachine).1
  = Resolved tt.
Proof.
  apply (maybeSetupRepo_tolerates_remote_failures
           (Demo.gitImports (Some Scenarios.noSuchRemote) None)
           (Demo.options false) Scenarios.clonedMachine).
  - intros cmd cwd m. discriminate.
  - intros remoteName cwd m e [= <-]. reflexivity.
  - vm_compute. reflexivity.
Defined.

Lemma conflictEntry_reads_file_name_witness :
  conflictEntry Scenarios.joinPath "/repo"
                "src/a.ts:12: leftover conflict marker"
  = " - /repo/src/a.ts".
Proof.
  refine (proj1 (conflictEntry_reads_file_name
                   Scenarios.joinPath "/repo" "src/a.ts" _)
                "12: leftover conflict marker").
  cbn. intuition discriminate.
Defined.

End GitMoreFacts.
